(** * The Steam protobuf client (src/protocol/protobuf_client.py)

    A shallow embedding of [ProtobufClient]: the inbound packet pipeline
    ([_process_packet], [_process_message], [_process_multi] and the
    per-message routines), the session fields they update, and the outbound
    calls they trigger ([_send], [get_apps_info], [log_on], [close]).

    Python values are modelled as follows.
    - [bytes] is a list of bytes; slices clamp their bounds as Python does.
    - Integers are [Z]; [struct.unpack("<I", b)] is little endian and raises
      [struct.error] unless [b] has exactly four bytes.
    - A coroutine is a state transformer over the client object that either
      returns a value or raises an exception; the state changes made before
      the exception are kept, as in Python.
    - The handler callbacks and the socket belong to the surrounding system:
      every call to one of them is appended to a trace, and the callee
      decides (from the trace so far and the arguments) whether it returns
      or raises. A callee does not write the client's private fields.
    - The heartbeat coroutine runs beside the main loop. It only reads the
      client, so it is kept as an entry of a task table (created, cancelled)
      and its own sends are left out of the trace.
    - Protobuf, gzip, vdf and json are external libraries, and the
      [protocol.consts] / [protocol.types] / [protocol.messages] modules
      live outside this source file: their decoders and constants are taken
      as a [Collaborators] record the development is parametric in. *)

From Stdlib Require Import ZArith List String Ascii Lia.
From Stdlib.Strings Require Import Byte.
From stdpp Require Import base option list gmap strings pretty.

Open Scope Z_scope.
#[local] Set Warnings "-register-all".

(** ** Python primitives *)

Definition bytes := list byte.

Inductive exn :=
| struct_error            (* struct.error *)
| DecodeError             (* google.protobuf.message.DecodeError *)
| BadGzipFile             (* gzip.decompress on a payload that is not gzip *)
| SyntaxError             (* vdf: malformed binary or text document *)
| KeyError
| TypeError
| ValueError
| AttributeError
| AssertionError
| RecursionError
| UnknownBackendResponse  (* galaxy.api.errors.UnknownBackendResponse *)
| CancelledError          (* asyncio.CancelledError: a BaseException *)
| Raised (name : string). (* any other Exception raised by a callee *)

(** [except Exception] catches everything but the [BaseException]-only
    classes; of those only [CancelledError] can reach the client. *)
Definition is_Exception (e : exn) : bool :=
  match e with CancelledError => false | _ => true end.

Definition is_KeyError (e : exn) : bool :=
  match e with KeyError => true | _ => false end.

Inductive result (A : Type) :=
| Ok (a : A)
| Raise (e : exn).
Arguments Ok {A} a.
Arguments Raise {A} e.

Definition len {A} (l : list A) : Z := Z.of_nat (length l).

(** [b[i:j]] for non-negative [i] and [j]: both bounds are clamped to
    [len b], and the slice is empty when [j <= i]. *)
Definition slice {A} (b : list A) (i j : Z) : list A :=
  let i' := Z.min i (len b) in
  let j' := Z.min j (len b) in
  take (Z.to_nat (j' - i')) (drop (Z.to_nat i') b).

(** [b[i:]] for non-negative [i]. *)
Definition slice_from {A} (b : list A) (i : Z) : list A :=
  drop (Z.to_nat (Z.min i (len b))) b.

(** [b[:-1]]: everything but the last element. *)
Definition slice_but_last {A} (b : list A) : list A :=
  take (length b - 1)%nat b.

Definition byte_val (b : byte) : Z := Z.of_N (Byte.to_N b).

(** [struct.unpack("<I", b)[0]] *)
Definition struct_unpack_I (b : bytes) : result Z :=
  match b with
  | [b0; b1; b2; b3] =>
      Ok (byte_val b0 + 256 * byte_val b1 + 65536 * byte_val b2
          + 16777216 * byte_val b3)
  | _ => Raise struct_error
  end.

Definition byte_of_Z (z : Z) : byte :=
  match Byte.of_N (Z.to_N (z mod 256)) with
  | Some b => b
  | None => x00
  end.

Definition le32 (z : Z) : bytes :=
  [byte_of_Z z; byte_of_Z (z / 256); byte_of_Z (z / 65536);
   byte_of_Z (z / 16777216)].

(** [struct.pack("<2I", a, b)]: each argument must fit 32 unsigned bits. *)
Definition struct_pack_2I (a b : Z) : result bytes :=
  if (0 <=? a) && (a <? 2 ^ 32) && (0 <=? b) && (b <? 2 ^ 32)
  then Ok (le32 a ++ le32 b)
  else Raise struct_error.

(** [str(n)] for an [int]. *)
Definition str (n : Z) : string := pretty n.

(** [needle in hay] for two [str] values: substring test. *)
Fixpoint is_substring (needle hay : string) : bool :=
  String.prefix needle hay ||
  match hay with
  | EmptyString => false
  | String _ rest => is_substring needle rest
  end.

(** ** Values produced by the [vdf] library

    [vdf.binary_loads] and [vdf.loads] (with the default [mapper=dict])
    return nested [dict]s with [str] keys whose leaves are [str], [int]
    (the binary integer kinds) or [float]. A [dict] is kept as the list of
    its items in insertion order; a parsed dict has no duplicate key. *)

Inductive vdf :=
| VDict (items : list (string * vdf))
| VStr (s : string)
| VInt (z : Z)
| VFloat (bits : Z).

Fixpoint assoc {V} (k : string) (items : list (string * V)) : option V :=
  match items with
  | [] => None
  | (k', v) :: rest => if String.eqb k' k then Some v else assoc k rest
  end.

(** [v[k]] with a [str] key. *)
Definition getitem (v : vdf) (k : string) : result vdf :=
  match v with
  | VDict items =>
      match assoc k items with
      | Some x => Ok x
      | None => Raise KeyError
      end
  | VStr _ => Raise TypeError     (* string indices must be integers *)
  | VInt _ | VFloat _ => Raise TypeError  (* not subscriptable *)
  end.

(** [k in v] with a [str] key. *)
Definition contains (k : string) (v : vdf) : result bool :=
  match v with
  | VDict items => Ok (bool_decide (is_Some (assoc k items)))
  | VStr s => Ok (is_substring k s)
  | VInt _ | VFloat _ => Raise TypeError  (* not iterable *)
  end.

(** [for x in v]: the keys of a dict, the characters of a string. *)
Definition iter_keys (v : vdf) : result (list string) :=
  match v with
  | VDict items => Ok (map fst items)
  | VStr s => Ok (map (fun c => String c EmptyString) (list_ascii_of_string s))
  | VInt _ | VFloat _ => Raise TypeError
  end.

(** [v.lower()]: only [str] has the method. The case mapping itself is the
    interpreter's and is passed in. *)
Definition lower (str_lower : string -> string) (v : vdf) : result string :=
  match v with
  | VStr s => Ok (str_lower s)
  | _ => Raise AttributeError
  end.

(** ** Values produced by [json.loads] *)

Inductive json :=
| JNull
| JBool (b : bool)
| JInt (z : Z)
| JFloat (repr : string)
| JStr (s : string)
| JArr (items : list json)
| JObj (members : list (string * json)).

Definition json_getitem (v : json) (k : string) : result json :=
  match v with
  | JObj members =>
      match assoc k members with
      | Some x => Ok x
      | None => Raise KeyError
      end
  | _ => Raise TypeError
  end.

(** Lists and dicts cannot be dictionary keys. *)
Definition hashable (v : json) : bool :=
  match v with
  | JArr _ | JObj _ => false
  | _ => true
  end.

(** ** Protobuf messages (protocol.messages)

    One record per message class, holding the fields the client reads or
    writes. A field the client tests with [HasField], or sets
    conditionally, is an [option]; a field it only reads carries the value
    the accessor returns (the declared default when the field is absent). *)

Module CMsgProtoBufHeader.
Record t := {
  steamid : option Z;
  client_sessionid : option Z;
  jobid_source : option Z;
  jobid_target : option Z;
  target_job_name : option string }.
Definition empty : t :=
  {| steamid := None; client_sessionid := None; jobid_source := None;
     jobid_target := None; target_job_name := None |}.
End CMsgProtoBufHeader.

Module CMsgMulti.
Record t := { size_unzipped : Z; message_body : bytes }.
End CMsgMulti.

Module CMsgClientLogonResponse.
Record t := { eresult : Z; out_of_game_heartbeat_seconds : Z }.
End CMsgClientLogonResponse.

Module CMsgClientLoggedOff.
Record t := { eresult : Z }.
End CMsgClientLoggedOff.

Module CMsgClientFriendsList.
Record Friend := { ulfriendid : Z; efriendrelationship : Z }.
Record t := { bincremental : bool; friends : list Friend }.
End CMsgClientFriendsList.

Module CMsgClientPersonaState.
Record KV := { key : string; value : string }.
Record Friend := {
  friendid : Z;
  game_played_app_id : Z;
  player_name : option string;
  avatar_hash : option bytes;
  persona_state : option Z;
  gameid : option Z;
  rich_presence : list KV;
  game_name : option string }.
Record t := { friends : list Friend }.
End CMsgClientPersonaState.

Module CMsgClientLicenseList.
Record License := {
  package_id : Z;
  owner_id : Z;
  flags : Z;
  license_type : Z }.
Record t := { licenses : list License }.
End CMsgClientLicenseList.

Module CMsgClientPICSProductInfoResponse.
Record PackageInfo := { packageid : Z; buffer : bytes }.
Record AppInfo := { app_buffer : bytes }.
Record t := { packages : list PackageInfo; apps : list AppInfo }.
End CMsgClientPICSProductInfoResponse.

Definition token_lists := list (string * list (string * string)).

Module CCommunity_GetAppRichPresenceLocalization_Response.
Record t := { appid : Z; token_lists : token_lists }.
End CCommunity_GetAppRichPresenceLocalization_Response.

Module CMsgClientGetUserStatsResponse.
Record Stats := { stat_id : Z; stat_value : Z }.
Record Achievement_Blocks := { achievement_id : Z; unlock_time : list Z }.
Record t := {
  game_id : Z;
  stats : list Stats;
  achievement_blocks : list Achievement_Blocks;
  schema : bytes }.
End CMsgClientGetUserStatsResponse.

Module CPlayer_GetFriendsGameplayInfo_Response.
Record t := { your_info_minutes_played_forever : Z }.
End CPlayer_GetFriendsGameplayInfo_Response.

Module CCloudConfigStore_Download_Response.
(** [data[i].entries[j].value] *)
Record t := { data : list (list string) }.
End CCloudConfigStore_Download_Response.

(** Outbound message bodies built by the calls modelled here. *)
Inductive out_message :=
| CMsgClientLogon (account_name : string)
    (protocol_version qos_level client_os_type ui_mode chat_mode : Z)
    (web_logon_nonce : string) (client_instance_id : Z)
| CMsgClientPICSProductInfoRequest (packages apps : list Z).

(** Modelled from the spec: [protocol.types.UserInfo] is declared outside
    this source file. It is the "per-user presence record with optional
    fields (name, avatar hash, status enum, currently-played game id,
    free-form key/value presence attributes)", each "populated only when
    the corresponding optional field was present in the wire message":
    every attribute of a new record is [None]. *)
Module UserInfo.
Record t := {
  name : option string;
  avatar_hash : option bytes;
  state : option Z;
  game_id : option Z;
  game_name : option string;
  rich_presence : option (gmap string string) }.
Definition new : t :=
  {| name := None; avatar_hash := None; state := None; game_id := None;
     game_name := None; rich_presence := None |}.
End UserInfo.

(** One element of [achievements_unlocked]. *)
Record Achievement := {
  id : Z;
  unlock_time : Z;
  name : vdf }.

(** ** External collaborators *)

Record Collaborators := {
  (* protocol.consts *)
  EMsg_Multi : Z;
  EMsg_ClientLogOnResponse : Z;
  EMsg_ClientLogOff : Z;
  EMsg_ClientFriendsList : Z;
  EMsg_ClientPersonaState : Z;
  EMsg_ClientLicenseList : Z;
  EMsg_PICSProductInfoResponse : Z;
  EMsg_ClientGetUserStatsResponse : Z;
  EMsg_ServiceMethod : Z;
  EMsg_ServiceMethodResponse : Z;
  EMsg_ClientLogon : Z;
  EMsg_PICSProductInfoRequest : Z;
  EResult_OK : Z;
  EAccountType_Individual : Z;
  (* [EFriendRelationship(v)] and [EPersonaState(v)] raise [ValueError]
     when [v] is not a member of the enumeration *)
  is_EFriendRelationship : Z -> bool;
  is_EPersonaState : Z -> bool;
  (* protocol.types: [SteamId.parse(steam_id).type_] *)
  SteamId_parse_type : Z -> Z;
  (* protocol.messages: [ParseFromString] of each inbound class,
     [SerializeToString] of the header and of the outbound bodies, and the
     declared default of [jobid_target] *)
  parse_Header : bytes -> result CMsgProtoBufHeader.t;
  parse_Multi : bytes -> result CMsgMulti.t;
  parse_LogonResponse : bytes -> result CMsgClientLogonResponse.t;
  parse_LoggedOff : bytes -> result CMsgClientLoggedOff.t;
  parse_FriendsList : bytes -> result CMsgClientFriendsList.t;
  parse_PersonaState : bytes -> result CMsgClientPersonaState.t;
  parse_LicenseList : bytes -> result CMsgClientLicenseList.t;
  parse_PICSProductInfoResponse :
    bytes -> result CMsgClientPICSProductInfoResponse.t;
  parse_RichPresenceLocalization :
    bytes -> result CCommunity_GetAppRichPresenceLocalization_Response.t;
  parse_GetUserStatsResponse :
    bytes -> result CMsgClientGetUserStatsResponse.t;
  parse_GetFriendsGameplayInfo :
    bytes -> result CPlayer_GetFriendsGameplayInfo_Response.t;
  parse_CloudConfigStore_Download :
    bytes -> result CCloudConfigStore_Download_Response.t;
  jobid_target_default : Z;
  serialize_Header : CMsgProtoBufHeader.t -> bytes;
  serialize : out_message -> bytes;
  (* gzip, vdf, json *)
  gzip_decompress : bytes -> result bytes;
  (* [vdf.binary_loads(b, merge_duplicate_keys=m)] *)
  vdf_binary_loads : bool -> bytes -> result vdf;
  (* [vdf.loads(b.decode('utf-8', 'replace'))] *)
  vdf_loads : bytes -> result vdf;
  json_loads : string -> result json;
  (* builtins: [int(s)] on a [str], [int(x)] on a [float], [s.lower()] *)
  int_of_str : string -> result Z;
  int_of_float : Z -> result Z;
  str_lower : string -> string }.

(** ** The client object *)

Inductive loglevel := INFO | WARNING.

Inductive call :=
| call_log_on_handler (result : Z)
| call_log_off_handler (result : Z)
| call_relationship_handler (incremental : bool) (friends : gmap Z Z)
| call_user_info_handler (user_id : Z) (user_info : UserInfo.t)
| call_license_import_handler
    (licenses : list CMsgClientLicenseList.License)
| call_app_info_handler (appid : Z) (title : option vdf) (game : option bool)
| call_package_info_handler (packageid : Z)
| call_translations_handler (appid : Z) (tokens : option token_lists)
| call_stats_handler (game_id : Z)
    (stats : list CMsgClientGetUserStatsResponse.Stats)
    (achievements : list Achievement)
| call_times_handler (job_id : Z) (minutes : Z).

(** What the surrounding system observes, oldest first. [logger.debug]
    lines are below the logger's level and are not recorded; a log line is
    recorded by level and message template. *)
Inductive event :=
| Log (level : loglevel) (template : string)
| Call (c : call)
| Send (data : bytes).

(** A callback of the surrounding system: given what happened so far and
    the call, it returns ([None]) or raises. *)
Definition callee (A : Type) := list event -> A -> option exn.

(** A heartbeat task created with [asyncio.create_task]. *)
Record Task := { interval : Z; cancelled : bool }.

Record ProtobufClient := {
  _socket : callee bytes;                       (* self._socket.send *)
  log_on_handler : option (callee call);
  log_off_handler : option (callee call);
  relationship_handler : option (callee call);
  user_info_handler : option (callee call);
  license_import_handler : option (callee call);
  app_info_handler : option (callee call);
  package_info_handler : option (callee call);
  translations_handler : option (callee call);
  stats_handler : option (callee call);
  times_handler : option (callee call);
  _steam_id : option Z;
  _miniprofile_id : option Z;
  _heartbeat_task : option nat;                 (* index into [tasks] *)
  _session_id : option Z;
  collections_event : bool;                     (* collections['event'] *)
  (* collections['collections']: the item assignments, oldest first *)
  collections : list (json * json);
  tasks : list Task;                            (* the loop's tasks *)
  trace : list event }.

(** [ProtobufClient(set_socket)] *)
Definition __init__ (set_socket : callee bytes) : ProtobufClient :=
  {| _socket := set_socket;
     log_on_handler := None; log_off_handler := None;
     relationship_handler := None; user_info_handler := None;
     license_import_handler := None; app_info_handler := None;
     package_info_handler := None; translations_handler := None;
     stats_handler := None; times_handler := None;
     _steam_id := None; _miniprofile_id := None; _heartbeat_task := None;
     _session_id := None; collections_event := false; collections := [];
     tasks := []; trace := [] |}.

Definition set_steam_id (v : option Z) (c : ProtobufClient) :=
  let 'Build_ProtobufClient a b0 b1 b2 b3 b4 b5 b6 b7 b8 b9 _ d e f g h i j
    := c in Build_ProtobufClient a b0 b1 b2 b3 b4 b5 b6 b7 b8 b9 v d e f g h i j.
Definition set_miniprofile_id (v : option Z) (c : ProtobufClient) :=
  let 'Build_ProtobufClient a b0 b1 b2 b3 b4 b5 b6 b7 b8 b9 c0 _ e f g h i j
    := c in Build_ProtobufClient a b0 b1 b2 b3 b4 b5 b6 b7 b8 b9 c0 v e f g h i j.
Definition set_heartbeat_task (v : option nat) (c : ProtobufClient) :=
  let 'Build_ProtobufClient a b0 b1 b2 b3 b4 b5 b6 b7 b8 b9 c0 d _ f g h i j
    := c in Build_ProtobufClient a b0 b1 b2 b3 b4 b5 b6 b7 b8 b9 c0 d v f g h i j.
Definition set_session_id (v : option Z) (c : ProtobufClient) :=
  let 'Build_ProtobufClient a b0 b1 b2 b3 b4 b5 b6 b7 b8 b9 c0 d e _ g h i j
    := c in Build_ProtobufClient a b0 b1 b2 b3 b4 b5 b6 b7 b8 b9 c0 d e v g h i j.
Definition set_collections_event (v : bool) (c : ProtobufClient) :=
  let 'Build_ProtobufClient a b0 b1 b2 b3 b4 b5 b6 b7 b8 b9 c0 d e f _ h i j
    := c in Build_ProtobufClient a b0 b1 b2 b3 b4 b5 b6 b7 b8 b9 c0 d e f v h i j.
Definition set_collections (v : list (json * json)) (c : ProtobufClient) :=
  let 'Build_ProtobufClient a b0 b1 b2 b3 b4 b5 b6 b7 b8 b9 c0 d e f g _ i j
    := c in Build_ProtobufClient a b0 b1 b2 b3 b4 b5 b6 b7 b8 b9 c0 d e f g v i j.
Definition set_tasks (v : list Task) (c : ProtobufClient) :=
  let 'Build_ProtobufClient a b0 b1 b2 b3 b4 b5 b6 b7 b8 b9 c0 d e f g h _ j
    := c in Build_ProtobufClient a b0 b1 b2 b3 b4 b5 b6 b7 b8 b9 c0 d e f g h v j.
Definition set_trace (v : list event) (c : ProtobufClient) :=
  let 'Build_ProtobufClient a b0 b1 b2 b3 b4 b5 b6 b7 b8 b9 c0 d e f g h i _
    := c in Build_ProtobufClient a b0 b1 b2 b3 b4 b5 b6 b7 b8 b9 c0 d e f g h i v.

(** ** Coroutines *)

Definition M (A : Type) := ProtobufClient -> result A * ProtobufClient.

Definition ret {A} (a : A) : M A := fun self => (Ok a, self).

Definition bind {A B} (m : M A) (k : A -> M B) : M B :=
  fun self =>
    match m self with
    | (Ok a, self') => k a self'
    | (Raise e, self') => (Raise e, self')
    end.

Definition raise {A} (e : exn) : M A := fun self => (Raise e, self).

Declare Scope py_scope.
Delimit Scope py_scope with py.
Bind Scope py_scope with M.
Notation "x ← y ; z" := (bind y (fun x => z))
  (at level 20, y at level 100, z at level 200, only parsing) : py_scope.
Notation "y ;; z" := (bind y (fun _ => z))
  (at level 100, z at level 200, only parsing, right associativity)
  : py_scope.
Open Scope py_scope.

(** A computation that cannot touch the client. *)
Definition lift {A} (r : result A) : M A := fun self => (r, self).

Definition get : M ProtobufClient := fun self => (Ok self, self).

Definition modify (f : ProtobufClient -> ProtobufClient) : M unit :=
  fun self => (Ok tt, f self).

Definition emit (ev : event) : M unit :=
  modify (fun self => set_trace (trace self ++ [ev]) self).

Definition log (level : loglevel) (template : string) : M unit :=
  emit (Log level template).

(** [try: body / except <classes matched by catches>: handler] where the
    handler sees the exception. *)
Definition try_except {A} (body : M A) (catches : exn -> bool)
    (handler : exn -> M A) : M A :=
  fun self =>
    match body self with
    | (Ok a, self') => (Ok a, self')
    | (Raise e, self') =>
        if catches e then handler e self' else (Raise e, self')
    end.

(** [await callee(args)]: the call is recorded, then the callee returns or
    raises. *)
Definition await {A} (f : callee A) (ev : event) (args : A) : M unit :=
  self ← get;
  emit ev;;
  match f (trace self) args with
  | None => ret tt
  | Some e => raise e
  end.

(** [await self.<handler>(args)]: calling an attribute that is still
    [None] raises [TypeError] ('NoneType' object is not callable). *)
Definition await_handler (h : option (callee call)) (c : call) : M unit :=
  match h with
  | None => raise TypeError
  | Some f => await f (Call c) c
  end.

(** [for x in xs: body x] *)
Fixpoint for_each {A} (xs : list A) (body : A -> M unit) : M unit :=
  match xs with
  | [] => ret tt
  | x :: rest => body x;; for_each rest body
  end.

(** [for x in xs: acc = body acc x], threading the loop's local variable. *)
Fixpoint fold_each {A B} (xs : list A) (acc : B) (body : B -> A -> M B)
  : M B :=
  match xs with
  | [] => ret acc
  | x :: rest => acc' ← body acc x; fold_each rest acc' body
  end.

Definition enumerate {A} (l : list A) : list (Z * A) :=
  imap (fun i x => (Z.of_nat i, x)) l.

(** [v[k1][k2]...] *)
Fixpoint getpath (v : vdf) (ks : list string) : result vdf :=
  match ks with
  | [] => Ok v
  | k :: rest =>
      match getitem v k with
      | Ok x => getpath x rest
      | Raise e => Raise e
      end
  end.

(** Assigning a Python value to a protobuf [uint32] / [fixed64] field. *)
Definition check_uint (bits : Z) (z : Z) : result Z :=
  if (0 <=? z) && (z <? 2 ^ bits) then Ok z else Raise ValueError.

Definition assign_uint32 (v : vdf) : result Z :=
  match v with
  | VInt z => check_uint 32 z
  | _ => Raise TypeError
  end.

(** Assigning to an [int32] field. *)
Definition check_int32 (z : Z) : result Z :=
  if (- 2 ^ 31 <=? z) && (z <? 2 ^ 31) then Ok z else Raise ValueError.

(** [if v is not None: field = v] *)
Definition assign_if_set (check : Z -> result Z) (o : option Z)
  : result (option Z) :=
  match o with
  | None => Ok None
  | Some z =>
      match check z with
      | Ok z' => Ok (Some z')
      | Raise e => Raise e
      end
  end.

(** ** The methods of [ProtobufClient] *)

Section Client.

Context (ext : Collaborators).

Definition _PROTO_MASK : Z := 0x80000000.

(** [asyncio.create_task(self._heartbeat(interval))], stored in
    [self._heartbeat_task]. *)
Definition create_heartbeat_task (seconds : Z) : M unit :=
  modify (fun self =>
    set_heartbeat_task (Some (length (tasks self)))
      (set_tasks (tasks self ++ [{| interval := seconds; cancelled := false |}])
         self)).

(** [task.cancel()] on the task with handle [t]. *)
Definition cancelled_at (t : nat) (self : ProtobufClient) : ProtobufClient :=
  set_tasks
    (alter (fun k => {| interval := interval k; cancelled := true |}) t
       (tasks self))
    self.

Definition cancel (t : nat) : M unit := modify (cancelled_at t).

Definition close : M unit :=
  self ← get;
  match _heartbeat_task self with
  | Some t => cancel t
  | None => ret tt
  end.

Definition _send (emsg : Z) (message : out_message)
    (source_job_id target_job_id : option Z) (target_job_name : option string)
  : M unit :=
  self ← get;
  steamid ← lift (assign_if_set (check_uint 64) (_steam_id self));
  client_sessionid ← lift (assign_if_set check_int32 (_session_id self));
  jobid_source ← lift (assign_if_set (check_uint 64) source_job_id);
  jobid_target ← lift (assign_if_set (check_uint 64) target_job_id);
  let proto_header :=
    {| CMsgProtoBufHeader.steamid := steamid;
       CMsgProtoBufHeader.client_sessionid := client_sessionid;
       CMsgProtoBufHeader.jobid_source := jobid_source;
       CMsgProtoBufHeader.jobid_target := jobid_target;
       CMsgProtoBufHeader.target_job_name := target_job_name |} in
  let header := serialize_Header ext proto_header in
  let body := serialize ext message in
  data ← lift (struct_pack_2I (Z.lor emsg _PROTO_MASK) (len header));
  let data := data ++ header ++ body in
  await (_socket self) (Send data) data.

Definition log_on (steam_id miniprofile_id : Z) (account_name token : string)
  : M unit :=
  (* magic numbers taken from JavaScript Steam client *)
  let message :=
    CMsgClientLogon account_name 65580 2 4294966596 4 2 token 0 in
  try_except
    (modify (set_steam_id (Some steam_id));;
     modify (set_miniprofile_id (Some miniprofile_id));;
     _send (EMsg_ClientLogon ext) message None None None)
    is_Exception
    (fun e => modify (set_steam_id None);; raise e).

Definition get_apps_info (app_ids : list vdf) : M unit :=
  log INFO "Sending call {EMsg.PICSProductInfoRequest} with {app_ids}";;
  apps ← fold_each app_ids [] (fun apps app_id =>
            appid ← lift (assign_uint32 app_id);
            ret (apps ++ [appid]));
  _send (EMsg_PICSProductInfoRequest ext)
    (CMsgClientPICSProductInfoRequest [] apps) None None None.

(** [if self.<handler> is not None: await self.<handler>(args)] *)
Definition await_if_set (h : option (callee call)) (c : call) : M unit :=
  match h with
  | None => ret tt
  | Some f => await f (Call c) c
  end.

Definition _process_client_log_on_response (body : bytes) : M unit :=
  message ← lift (parse_LogonResponse ext body);
  let result := CMsgClientLogonResponse.eresult message in
  (if result =? EResult_OK ext
   then create_heartbeat_task
          (CMsgClientLogonResponse.out_of_game_heartbeat_seconds message)
   else ret tt);;
  self ← get;
  await_if_set (log_on_handler self) (call_log_on_handler result).

Definition _process_client_log_off (body : bytes) : M unit :=
  message ← lift (parse_LoggedOff ext body);
  let result := CMsgClientLoggedOff.eresult message in
  self ← get;
  match _heartbeat_task self with
  | None => raise AssertionError   (* assert self._heartbeat_task is not None *)
  | Some t =>
      cancel t;;
      await_if_set (log_off_handler self) (call_log_off_handler result)
  end.

(** The body of [for relationship in message.friends]; [friends] is the
    dictionary being built. *)
Definition friend_list_entry (friends : gmap Z Z)
    (relationship : CMsgClientFriendsList.Friend) : M (gmap Z Z) :=
  let steam_id := CMsgClientFriendsList.ulfriendid relationship in
  let rel := CMsgClientFriendsList.efriendrelationship relationship in
  if SteamId_parse_type ext steam_id =? EAccountType_Individual ext
  then
    if is_EFriendRelationship ext rel
    then ret (<[steam_id := rel]> friends)
    else raise ValueError
  else ret friends.

Definition _process_client_friend_list (body : bytes) : M unit :=
  self ← get;
  match relationship_handler self with
  | None => ret tt
  | Some _ =>
      message ← lift (parse_FriendsList ext body);
      friends ← fold_each (CMsgClientFriendsList.friends message)
                  (∅ : gmap Z Z) friend_list_entry;
      await_handler (relationship_handler self)
        (call_relationship_handler
           (CMsgClientFriendsList.bincremental message) friends)
  end.

Definition starts_with_hash (s : string) : bool :=
  match s with
  | String c _ => Ascii.eqb c "#"
  | EmptyString => false
  end.

Definition is_empty_str (s : string) : bool :=
  match s with
  | EmptyString => true
  | _ => false
  end.

(** The body of [for element in user.rich_presence] for a user playing
    [gameid]; [rich_presence] is the dictionary being built. *)
Definition rich_presence_element (gameid : Z)
    (rich_presence : gmap string string)
    (element : CMsgClientPersonaState.KV) : M (gmap string string) :=
  let k := CMsgClientPersonaState.key element in
  let v := CMsgClientPersonaState.value element in
  let rich_presence := <[k := v]> rich_presence in
  (if String.eqb k "status" && negb (is_empty_str v)
   then
     if starts_with_hash v
     then
       self ← get;
       await_handler (translations_handler self)
         (call_translations_handler gameid None)
     else ret tt
   else ret tt);;
  ret rich_presence.

(** The body of [for user in message.friends]. The attributes of
    [user_info] are computed in the order the source assigns them. *)
Definition persona_state_user (user : CMsgClientPersonaState.Friend)
  : M unit :=
  let user_id := CMsgClientPersonaState.friendid user in
  let played := CMsgClientPersonaState.game_played_app_id user in
  self ← get;
  (if bool_decide (Some user_id = _steam_id self) && negb (played =? 0)
   then get_apps_info [VInt played]
   else ret tt);;
  state ← match CMsgClientPersonaState.persona_state user with
           | Some p =>
               if is_EPersonaState ext p then ret (Some p)
               else raise ValueError
           | None => ret None
           end;
  rich_presence ←
    match CMsgClientPersonaState.gameid user with
    | Some gameid =>
        rp ← fold_each (CMsgClientPersonaState.rich_presence user)
               (∅ : gmap string string) (rich_presence_element gameid);
        ret (Some rp)
    | None => ret None
    end;
  let user_info :=
    {| UserInfo.name := CMsgClientPersonaState.player_name user;
       UserInfo.avatar_hash := CMsgClientPersonaState.avatar_hash user;
       UserInfo.state := state;
       UserInfo.game_id := CMsgClientPersonaState.gameid user;
       UserInfo.game_name := CMsgClientPersonaState.game_name user;
       UserInfo.rich_presence := rich_presence |} in
  self ← get;
  await_handler (user_info_handler self)
    (call_user_info_handler user_id user_info).

Definition _process_client_persona_state (body : bytes) : M unit :=
  self ← get;
  match user_info_handler self with
  | None => ret tt
  | Some _ =>
      message ← lift (parse_PersonaState ext body);
      for_each (CMsgClientPersonaState.friends message) persona_state_user
  end.

(** The body of [for license in message.licenses]. *)
Definition license_list_entry
    (licenses_to_check : list CMsgClientLicenseList.License)
    (license : CMsgClientLicenseList.License)
  : M (list CMsgClientLicenseList.License) :=
  (* license.type 1024 = free games
     license.flags 520 = unidentified trash entries (games which are not
     owned nor are free) *)
  self ← get;
  miniprofile_id ←
    match _miniprofile_id self with
    | Some p => ret p
    | None => raise TypeError      (* int(None) *)
    end;
  if (CMsgClientLicenseList.owner_id license =? miniprofile_id)
     && negb (CMsgClientLicenseList.flags license =? 520)
  then ret (licenses_to_check ++ [license])
  else ret licenses_to_check.

Definition _process_license_list (body : bytes) : M unit :=
  self ← get;
  match license_import_handler self with
  | None => ret tt
  | Some _ =>
      message ← lift (parse_LicenseList ext body);
      licenses_to_check ←
        fold_each (CMsgClientLicenseList.licenses message) []
          license_list_entry;
      self ← get;
      await_handler (license_import_handler self)
        (call_license_import_handler licenses_to_check)
  end.

(** [int(v)] on a value taken from a vdf document. *)
Definition py_int (v : vdf) : result Z :=
  match v with
  | VInt z => Ok z
  | VStr s => int_of_str ext s
  | VFloat b => int_of_float ext b
  | VDict _ => Raise TypeError
  end.

(** The body of [for info in message.packages]; [apps_to_parse] is the
    list being accumulated. *)
Definition package_info_entry (apps_to_parse : list vdf)
    (info : CMsgClientPICSProductInfoResponse.PackageInfo)
  : M (list vdf) :=
  let packageid := CMsgClientPICSProductInfoResponse.packageid info in
  self ← get;
  await_handler (package_info_handler self)
    (call_package_info_handler packageid);;
  if packageid =? 0 then
    (* Packageid 0 contains trash entries for every user *)
    log INFO "Skipping packageid 0 ";;
    ret apps_to_parse
  else
    package_content ←
      lift (vdf_binary_loads ext true
              (slice_from (CMsgClientPICSProductInfoResponse.buffer info) 4));
    appids ← lift (getpath package_content [str packageid; "appids"]);
    keys ← lift (iter_keys appids);
    fold_each keys apps_to_parse (fun apps_to_parse app =>
      v ← lift (getpath package_content [str packageid; "appids"; app]);
      n ← lift (py_int v);
      self ← get;
      await_handler (app_info_handler self) (call_app_info_handler n None None);;
      v' ← lift (getpath package_content [str packageid; "appids"; app]);
      ret (apps_to_parse ++ [v'])).

(** The body of [for info in message.apps]. *)
Definition app_info_entry
    (info : CMsgClientPICSProductInfoResponse.AppInfo) : M unit :=
  app_content ←
    lift (vdf_loads ext
            (slice_but_last (CMsgClientPICSProductInfoResponse.app_buffer info)));
  let not_a_game : M unit :=
    v ← lift (getpath app_content ["appinfo"; "appid"]);
    appid ← lift (py_int v);
    self ← get;
    await_handler (app_info_handler self)
      (call_app_info_handler appid None (Some false)) in
  try_except
    (t ← lift (getpath app_content ["appinfo"; "common"; "type"]);
     kind ← lift (lower (str_lower ext) t);
     if String.eqb kind "game" then
       v ← lift (getpath app_content ["appinfo"; "appid"]);
       appid ← lift (py_int v);
       title ← lift (getpath app_content ["appinfo"; "common"; "name"]);
       self ← get;
       await_handler (app_info_handler self)
         (call_app_info_handler appid (Some title) (Some true))
     else not_a_game)
    is_KeyError
    (fun _ => (* Unrecognized app type *) not_a_game).

Definition _process_package_info_response (body : bytes) : M unit :=
  message ← lift (parse_PICSProductInfoResponse ext body);
  apps_to_parse ←
    fold_each (CMsgClientPICSProductInfoResponse.packages message) []
      package_info_entry;
  for_each (CMsgClientPICSProductInfoResponse.apps message) app_info_entry;;
  if 0 <? len apps_to_parse then
    log INFO "Apps to parse {apps_to_parse}, {len(apps_to_parse)} entries";;
    get_apps_info apps_to_parse
  else ret tt.

Definition _process_rich_presence_translations (body : bytes) : M unit :=
  message ← lift (parse_RichPresenceLocalization ext body);
  log INFO
    "Received information about rich presence translations for {message.appid}";;
  self ← get;
  await_handler (translations_handler self)
    (call_translations_handler
       (CCommunity_GetAppRichPresenceLocalization_Response.appid message)
       (Some (CCommunity_GetAppRichPresenceLocalization_Response.token_lists
                message))).

(** The keys
    [[str(game_id)]['stats'][str(achievement_block.achievement_id)]['bits']]
    under which the schema keeps the bits of a block. *)
Definition bits_path (game_id achievement_id : Z) : list string :=
  [str game_id; "stats"; str achievement_id; "bits"].

(** The body of [for index, unlock_time in enumerate(...)], for the block
    [achievement_id] of game [game_id]. *)
Definition user_stats_slot (achievements_schema : vdf)
    (game_id achievement_id : Z) (achievements_unlocked : list Achievement)
    (slot : Z * Z) : M (list Achievement) :=
  let '(index, unlock_time) := slot in
  let achi_block_enum := 32 * (achievement_id - 1) in
  let bits := bits_path game_id achievement_id in
  if 0 <? unlock_time then
    table ← lift (getpath achievements_schema bits);
    present ← lift (contains (str index) table);
    if negb present then
      log INFO "Non existent achievement unlocked";;
      ret achievements_unlocked
    else
      try_except
        (localized ←
           lift (getpath achievements_schema
                   (bits ++ [str index; "display"; "name"]));
         english ← lift (contains "english" localized);
         name ←
           (if english
            then lift (getpath achievements_schema
                         (bits ++ [str index; "display"; "name"; "english"]))
            else lift (getpath achievements_schema
                         (bits ++ [str index; "display"; "name"])));
         ret (achievements_unlocked
                ++ [{| id := achi_block_enum + index;
                       unlock_time := unlock_time;
                       name := name |}]))
        (fun _ => true)
        (fun _ =>
           log INFO
             "Unable to parse achievement {index} from block {achievement_block.achievement_id}";;
           log INFO "{achievs}";;
           log INFO "{achievements_schema}";;
           log INFO "{message.schema}";;
           raise UnknownBackendResponse)
  else ret achievements_unlocked.

Definition user_stats_block (achievements_schema : vdf) (game_id : Z)
    (achievements_unlocked : list Achievement)
    (achievement_block : CMsgClientGetUserStatsResponse.Achievement_Blocks)
  : M (list Achievement) :=
  fold_each
    (enumerate (CMsgClientGetUserStatsResponse.unlock_time achievement_block))
    achievements_unlocked
    (user_stats_slot achievements_schema game_id
       (CMsgClientGetUserStatsResponse.achievement_id achievement_block)).

Definition _process_user_stats_response (body : bytes) : M unit :=
  message ← lift (parse_GetUserStatsResponse ext body);
  let game_id := CMsgClientGetUserStatsResponse.game_id message in
  let stats := CMsgClientGetUserStatsResponse.stats message in
  let achievs := CMsgClientGetUserStatsResponse.achievement_blocks message in
  log INFO "Processing user stats response for {message.game_id}";;
  achievements_schema ←
    lift (vdf_binary_loads ext false
            (CMsgClientGetUserStatsResponse.schema message));
  achievements_unlocked ←
    fold_each achievs [] (user_stats_block achievements_schema game_id);
  self ← get;
  await_handler (stats_handler self)
    (call_stats_handler game_id stats achievements_unlocked).

Definition _process_user_time_response (body : bytes) (target_job_id : Z)
  : M unit :=
  message ← lift (parse_GetFriendsGameplayInfo ext body);
  self ← get;
  await_handler (times_handler self)
    (call_times_handler target_job_id
       (CPlayer_GetFriendsGameplayInfo_Response.your_info_minutes_played_forever
          message)).

Definition _process_collections_response (body : bytes) : M unit :=
  message ← lift (parse_CloudConfigStore_Download ext body);
  for_each (CCloudConfigStore_Download_Response.data message) (fun entries =>
    for_each entries (fun value =>
      try_except
        (loaded_val ← lift (json_loads ext value);
         added ← lift (json_getitem loaded_val "added");
         name ← lift (json_getitem loaded_val "name");
         if hashable name
         then modify (fun self =>
                set_collections (collections self ++ [(name, added)]) self)
         else raise TypeError)
        (fun _ => true)
        (fun _ => ret tt)));;
  modify (set_collections_event true).

Definition _process_service_method_response (target_job_name : string)
    (target_job_id : Z) (body : bytes) : M unit :=
  (if String.eqb target_job_name "Community.GetAppRichPresenceLocalization#1"
   then _process_rich_presence_translations body else ret tt);;
  (if String.eqb target_job_name "Player.GetFriendsGameplayInfo#1"
   then _process_user_time_response body target_job_id else ret tt);;
  (if String.eqb target_job_name "CloudConfigStore.Download#1"
   then _process_collections_response body else ret tt).

(** The [while] loop of [_process_multi]. Every turn moves [offset] at
    least four bytes forward, so [length data] turns are always enough
    ([multi_loop_fuel]). *)
Fixpoint multi_loop (process_packet : bytes -> M unit) (turns : nat)
    (data : bytes) (offset : Z) : M unit :=
  match turns with
  | O => ret tt
  | S turns' =>
      if offset + 4 <=? len data then
        size ← lift (struct_unpack_I (slice data offset (offset + 4)));
        process_packet (slice data (offset + 4) (offset + 4 + size));;
        multi_loop process_packet turns' data (offset + 4 + size)
      else ret tt
  end.

(** The payload of a container: decompressed when [size_unzipped > 0]. *)
Definition multi_data (message : CMsgMulti.t) : result bytes :=
  if 0 <? CMsgMulti.size_unzipped message
  then gzip_decompress ext (CMsgMulti.message_body message)
  else Ok (CMsgMulti.message_body message).

Definition _process_multi (process_packet : bytes -> M unit) (body : bytes)
  : M unit :=
  message ← lift (parse_Multi ext body);
  data ← lift (multi_data message);
  multi_loop process_packet (length data) data 0.

Definition header_client_sessionid (h : CMsgProtoBufHeader.t) : Z :=
  default 0 (CMsgProtoBufHeader.client_sessionid h).
Definition header_target_job_name (h : CMsgProtoBufHeader.t) : string :=
  default EmptyString (CMsgProtoBufHeader.target_job_name h).
Definition header_jobid_target (h : CMsgProtoBufHeader.t) : Z :=
  default (jobid_target_default ext) (CMsgProtoBufHeader.jobid_target h).

Definition _process_message (process_packet : bytes -> M unit) (emsg : Z)
    (header : CMsgProtoBufHeader.t) (body : bytes) : M unit :=
  if emsg =? EMsg_Multi ext then
    _process_multi process_packet body
  else if emsg =? EMsg_ClientLogOnResponse ext then
    _process_client_log_on_response body
  else if emsg =? EMsg_ClientLogOff ext then
    _process_client_log_off body
  else if emsg =? EMsg_ClientFriendsList ext then
    _process_client_friend_list body
  else if emsg =? EMsg_ClientPersonaState ext then
    _process_client_persona_state body
  else if emsg =? EMsg_ClientLicenseList ext then
    _process_license_list body
  else if emsg =? EMsg_PICSProductInfoResponse ext then
    _process_package_info_response body
  else if emsg =? EMsg_ClientGetUserStatsResponse ext then
    _process_user_stats_response body
  else if emsg =? EMsg_ServiceMethod ext then
    _process_service_method_response (header_target_job_name header)
      (header_jobid_target header) body
  else if emsg =? EMsg_ServiceMethodResponse ext then
    _process_service_method_response (header_target_job_name header)
      (header_jobid_target header) body
  else
    log WARNING "Ignored message %d".

(** [self._session_id is None and header.client_sessionid != 0] *)
Definition note_session_id (header : CMsgProtoBufHeader.t) : M unit :=
  self ← get;
  if bool_decide (_session_id self = None)
     && negb (header_client_sessionid header =? 0)
  then
    log INFO "Session id: %d";;
    modify (set_session_id (Some (header_client_sessionid header)))
  else ret tt.

(** One activation of [_process_packet]; [process_packet] is the method
    itself, reached again through [_process_multi]. *)
Definition process_packet_body (process_packet : bytes -> M unit)
    (packet : bytes) : M unit :=
  let package_size := len packet in
  (if package_size <? 8
   then log WARNING "Package too small, ignoring..."
   else ret tt);;
  raw_emsg ← lift (struct_unpack_I (slice packet 0 4));
  let emsg := Z.land raw_emsg (Z.lnot _PROTO_MASK) in
  if negb (Z.land raw_emsg _PROTO_MASK =? 0) then
    header_len ← lift (struct_unpack_I (slice packet 4 8));
    header ← lift (parse_Header ext (slice packet 8 (8 + header_len)));
    note_session_id header;;
    _process_message process_packet emsg header
      (slice_from packet (8 + header_len))
  else
    log WARNING "Packet with extended header - ignoring".

(** [_process_packet], with the nesting of containers bounded by [depth]
    as the interpreter's recursion limit bounds it. *)
Fixpoint _process_packet (depth : nat) (packet : bytes) : M unit :=
  match depth with
  | O => raise RecursionError
  | S depth' => process_packet_body (_process_packet depth') packet
  end.

(** The receiving half of [run]: the packets the socket delivers are
    processed in order, and an exception leaves the loop. *)
Definition process_packets (depth : nat) (packets : list bytes) : M unit :=
  for_each packets (_process_packet depth).

End Client.

(** ** A test double for the collaborators

    The decoders of the double read the first byte of their input as an
    index into a table of canned decodings, so that an example can name the
    message a body stands for. The constants are the values Steam uses. *)

Module Fixture.

Inductive payload :=
| P_Header (h : CMsgProtoBufHeader.t)
| P_Multi (m : CMsgMulti.t)
| P_LogonResponse (m : CMsgClientLogonResponse.t)
| P_LoggedOff (m : CMsgClientLoggedOff.t)
| P_FriendsList (m : CMsgClientFriendsList.t)
| P_PersonaState (m : CMsgClientPersonaState.t)
| P_LicenseList (m : CMsgClientLicenseList.t)
| P_PICSProductInfoResponse (m : CMsgClientPICSProductInfoResponse.t)
| P_RichPresenceLocalization
    (m : CCommunity_GetAppRichPresenceLocalization_Response.t)
| P_GetUserStatsResponse (m : CMsgClientGetUserStatsResponse.t)
| P_GetFriendsGameplayInfo (m : CPlayer_GetFriendsGameplayInfo_Response.t)
| P_CloudConfigStore_Download (m : CCloudConfigStore_Download_Response.t)
| P_Bytes (b : bytes)
| P_Vdf (v : vdf)
| P_Json (j : json).

Definition canned_at (canned : list payload) (b : bytes) : option payload :=
  match b with
  | [] => None
  | x :: _ => canned !! N.to_nat (Byte.to_N x)
  end.

Definition decode {A} (canned : list payload) (pick : payload -> option A)
    (e : exn) (b : bytes) : result A :=
  match canned_at canned b ≫= pick with
  | Some a => Ok a
  | None => Raise e
  end.

Definition collaborators (canned : list payload) : Collaborators :=
  {| EMsg_Multi := 1;
     EMsg_ClientLogOnResponse := 751;
     EMsg_ClientLogOff := 706;
     EMsg_ClientFriendsList := 767;
     EMsg_ClientPersonaState := 766;
     EMsg_ClientLicenseList := 780;
     EMsg_PICSProductInfoResponse := 8904;
     EMsg_ClientGetUserStatsResponse := 819;
     EMsg_ServiceMethod := 146;
     EMsg_ServiceMethodResponse := 147;
     EMsg_ClientLogon := 5514;
     EMsg_PICSProductInfoRequest := 8903;
     EResult_OK := 1;
     EAccountType_Individual := 1;
     is_EFriendRelationship := fun v => (0 <=? v) && (v <=? 7);
     is_EPersonaState := fun v => (0 <=? v) && (v <=? 7);
     SteamId_parse_type := fun steam_id => Z.land (Z.shiftr steam_id 52) 15;
     parse_Header := fun b =>
       match b with
       | [] => Ok CMsgProtoBufHeader.empty
       | _ => decode canned
                (fun p => match p with P_Header h => Some h | _ => None end)
                DecodeError b
       end;
     parse_Multi := decode canned
       (fun p => match p with P_Multi m => Some m | _ => None end) DecodeError;
     parse_LogonResponse := decode canned
       (fun p => match p with P_LogonResponse m => Some m | _ => None end)
       DecodeError;
     parse_LoggedOff := decode canned
       (fun p => match p with P_LoggedOff m => Some m | _ => None end)
       DecodeError;
     parse_FriendsList := decode canned
       (fun p => match p with P_FriendsList m => Some m | _ => None end)
       DecodeError;
     parse_PersonaState := decode canned
       (fun p => match p with P_PersonaState m => Some m | _ => None end)
       DecodeError;
     parse_LicenseList := decode canned
       (fun p => match p with P_LicenseList m => Some m | _ => None end)
       DecodeError;
     parse_PICSProductInfoResponse := decode canned
       (fun p => match p with
                 | P_PICSProductInfoResponse m => Some m | _ => None end)
       DecodeError;
     parse_RichPresenceLocalization := decode canned
       (fun p => match p with
                 | P_RichPresenceLocalization m => Some m | _ => None end)
       DecodeError;
     parse_GetUserStatsResponse := decode canned
       (fun p => match p with
                 | P_GetUserStatsResponse m => Some m | _ => None end)
       DecodeError;
     parse_GetFriendsGameplayInfo := decode canned
       (fun p => match p with
                 | P_GetFriendsGameplayInfo m => Some m | _ => None end)
       DecodeError;
     parse_CloudConfigStore_Download := decode canned
       (fun p => match p with
                 | P_CloudConfigStore_Download m => Some m | _ => None end)
       DecodeError;
     jobid_target_default := 18446744073709551615;
     serialize_Header := fun _ => [];
     serialize := fun _ => [];
     gzip_decompress := decode canned
       (fun p => match p with P_Bytes b => Some b | _ => None end) BadGzipFile;
     vdf_binary_loads := fun _ => decode canned
       (fun p => match p with P_Vdf v => Some v | _ => None end) SyntaxError;
     vdf_loads := decode canned
       (fun p => match p with P_Vdf v => Some v | _ => None end) SyntaxError;
     json_loads := fun s =>
       decode canned
         (fun p => match p with P_Json j => Some j | _ => None end) ValueError
         (list_byte_of_string s);
     int_of_str := fun _ => Raise ValueError;
     int_of_float := fun _ => Raise ValueError;
     str_lower := fun s => s |}.

(** A callee that always returns. *)
Definition returns {A} : callee A := fun _ _ => None.

(** A client whose handlers are all set and whose socket accepts every
    send. *)
Definition client : ProtobufClient :=
  {| _socket := returns;
     log_on_handler := Some returns; log_off_handler := Some returns;
     relationship_handler := Some returns; user_info_handler := Some returns;
     license_import_handler := Some returns; app_info_handler := Some returns;
     package_info_handler := Some returns;
     translations_handler := Some returns;
     stats_handler := Some returns; times_handler := Some returns;
     _steam_id := None; _miniprofile_id := None; _heartbeat_task := None;
     _session_id := None; collections_event := false; collections := [];
     tasks := []; trace := [] |}.

(** [emsg] with the protobuf flag, the header length, the header, the
    body. *)
Definition frame (emsg : Z) (header body : bytes) : bytes :=
  le32 (Z.lor emsg _PROTO_MASK) ++ le32 (len header) ++ header ++ body.

End Fixture.

(** * The outbound requests and the job loop

    The methods of [ProtobufClient] that send a request, and one turn of
    [run]. The request classes they build and the message types they use
    live outside this source file as well: they are taken as an [Outbound]
    record. The two attributes of the client the methods above never touch,
    [_job_id_iterator] and [job_list], are kept beside the client in a
    [Runner].

    The loop is followed on its own: what other coroutines do to the client
    while the loop awaits (the owner appending a job, the heartbeat task
    sending) is not part of the model, and neither is [_heartbeat], which
    only sleeps and sends until it is cancelled. *)

(** The requests built by the methods below, with the fields they set. *)
Inductive request :=
| CMsgClientGetUserStats (game_id : Z)
| CPlayer_GetFriendsGameplayInfo_Request (appid : Z)
| CMsgClientChangeStatus (persona_state : Z)
| CChat_RequestFriendPersonaStates_Request
| CMsgClientRequestFriendData (friends : list Z) (persona_state_requested : Z)
| CCloudConfigStore_Download_Request (enamespaces : list Z)
| CCommunity_GetAppRichPresenceLocalization_Request
    (appid : Z) (language : string).

Record Outbound := {
  (* protocol.consts *)
  EMsg_ClientGetUserStats : Z;
  EMsg_ServiceMethodCallFromClient : Z;
  EMsg_ClientChangeStatus : Z;
  EMsg_ClientRequestFriendData : Z;
  (* protocol.messages: building the message object, field by field, and
     [SerializeToString]; a field assignment the class rejects raises *)
  build_request : request -> result bytes }.

(** A value of a job dictionary: the owner of the client stores strings
    and integers. *)
Inductive job_value :=
| JobStr (s : string)
| JobInt (z : Z).

#[global] Instance job_value_eq_dec : EqDecision job_value.
Proof. solve_decision. Defined.

(** A job: a [dict] with [str] keys. *)
Definition job := gmap string job_value.

Record Runner := {
  client : ProtobufClient;
  _job_id_iterator : Z;       (* the value [next(self._job_id_iterator)] gives *)
  job_list : list job }.

(** [ProtobufClient(set_socket)]: [count(1)] and an empty job list. *)
Definition new_runner (set_socket : callee bytes) : Runner :=
  {| client := __init__ set_socket; _job_id_iterator := 1; job_list := [] |}.

Definition R (A : Type) := Runner -> result A * Runner.

Definition rret {A} (a : A) : R A := fun r => (Ok a, r).

Definition rbind {A B} (m : R A) (k : A -> R B) : R B :=
  fun r =>
    match m r with
    | (Ok a, r') => k a r'
    | (Raise e, r') => (Raise e, r')
    end.

Declare Scope run_scope.
Delimit Scope run_scope with run.
Bind Scope run_scope with R.
Notation "x ← y ; z" := (rbind y (fun x => z))
  (at level 20, y at level 100, z at level 200, only parsing) : run_scope.
Notation "y ;; z" := (rbind y (fun _ => z))
  (at level 100, z at level 200, only parsing, right associativity)
  : run_scope.

(** A method that only needs the client. *)
Definition on_client {A} (m : M A) : R A :=
  fun r =>
    let (a, c) := m (client r) in
    (a, {| client := c; _job_id_iterator := _job_id_iterator r;
           job_list := job_list r |}).

Definition rlift {A} (x : result A) : R A := fun r => (x, r).

(** [next(self._job_id_iterator)] *)
Definition next_job_id : R Z :=
  fun r =>
    (Ok (_job_id_iterator r),
     {| client := client r; _job_id_iterator := _job_id_iterator r + 1;
        job_list := job_list r |}).

(** [for x in xs: body x] over a runner. *)
Fixpoint rfor_each {A} (xs : list A) (body : A -> R unit) : R unit :=
  match xs with
  | [] => rret tt
  | x :: rest => rbind (body x) (fun _ => rfor_each rest body)
  end.

(** [xs.remove(x)]: the first element equal to [x] is removed;
    [ValueError] when there is none. *)
Fixpoint list_remove {A} `{EqDecision A} (x : A) (xs : list A)
  : option (list A) :=
  match xs with
  | [] => None
  | y :: rest =>
      if decide (y = x) then Some rest
      else match list_remove x rest with
           | Some rest' => Some (y :: rest')
           | None => None
           end
  end.

(** [wait_closed] and [_process_packets]: both bodies are [pass]. *)
Definition wait_closed : M unit := ret tt.

Definition _process_packets : M unit := ret tt.

(** [asyncio.TimeoutError], as [asyncio.wait_for] raises it. *)
Definition TimeoutError : exn := Raised "asyncio.TimeoutError".

Definition is_TimeoutError (e : exn) : bool :=
  match e with
  | Raised name => String.eqb name "asyncio.TimeoutError"
  | _ => false
  end.

Section Requests.

Context (ext : Collaborators) (out : Outbound).

(** [_send] for a message of a class outside [out_message]: [body] is the
    message's [SerializeToString()]. *)
Definition _send_serialized (emsg : Z) (body : bytes)
    (source_job_id target_job_id : option Z) (target_job_name : option string)
  : M unit :=
  self ← get;
  steamid ← lift (assign_if_set (check_uint 64) (_steam_id self));
  client_sessionid ← lift (assign_if_set check_int32 (_session_id self));
  jobid_source ← lift (assign_if_set (check_uint 64) source_job_id);
  jobid_target ← lift (assign_if_set (check_uint 64) target_job_id);
  let proto_header :=
    {| CMsgProtoBufHeader.steamid := steamid;
       CMsgProtoBufHeader.client_sessionid := client_sessionid;
       CMsgProtoBufHeader.jobid_source := jobid_source;
       CMsgProtoBufHeader.jobid_target := jobid_target;
       CMsgProtoBufHeader.target_job_name := target_job_name |} in
  let header := serialize_Header ext proto_header in
  data ← lift (struct_pack_2I (Z.lor emsg _PROTO_MASK) (len header));
  let data := data ++ header ++ body in
  await (_socket self) (Send data) data.

(** [int(job['game_id'])] *)
Definition job_int (v : job_value) : result Z :=
  match v with
  | JobInt z => Ok z
  | JobStr s => int_of_str ext s
  end.

Definition _import_game_stats (game_id : job_value) : M unit :=
  log INFO "Importing game stats for {game_id}";;
  n ← lift (job_int game_id);
  body ← lift (build_request out (CMsgClientGetUserStats n));
  _send_serialized (EMsg_ClientGetUserStats out) body None None None.

Definition _import_game_time (game_id : job_value) : M unit :=
  log INFO "Importing game time for {game_id}";;
  n ← lift (job_int game_id);
  body ← lift (build_request out (CPlayer_GetFriendsGameplayInfo_Request n));
  source ← lift (job_int game_id);
  target ← lift (job_int game_id);
  _send_serialized (EMsg_ServiceMethodCallFromClient out) body
    (Some source) (Some target) (Some "Player.GetFriendsGameplayInfo#1").

Definition set_persona_state (state : Z) : M unit :=
  body ← lift (build_request out (CMsgClientChangeStatus state));
  _send_serialized (EMsg_ClientChangeStatus out) body None None None.

Definition get_friends_statuses : R unit :=
  (job_id ← next_job_id;
   on_client
     (body ← lift (build_request out CChat_RequestFriendPersonaStates_Request);
      _send_serialized (EMsg_ServiceMethodCallFromClient out) body
        (Some job_id) None (Some "Chat.RequestFriendPersonaStates#1")))%run.

Definition get_user_infos (users : list Z) (flags : Z) : M unit :=
  body ← lift (build_request out (CMsgClientRequestFriendData users flags));
  _send_serialized (EMsg_ClientRequestFriendData out) body None None None.

Definition _import_collections : R unit :=
  (job_id ← next_job_id;
   on_client
     (body ← lift (build_request out (CCloudConfigStore_Download_Request [1]));
      _send_serialized (EMsg_ServiceMethodCallFromClient out) body
        (Some job_id) None (Some "CloudConfigStore.Download#1")))%run.

Definition get_packages_info (package_ids : list vdf) : M unit :=
  log INFO "Sending call {EMsg.PICSProductInfoRequest} with {package_ids}";;
  packages ← fold_each package_ids [] (fun packages package_id =>
               packageid ← lift (assign_uint32 package_id);
               ret (packages ++ [packageid]));
  _send ext (EMsg_PICSProductInfoRequest ext)
    (CMsgClientPICSProductInfoRequest packages []) None None None.

(** [get_presence_localization(appid, language)]; the source's default
    for [language] is ['english']. *)
Definition get_presence_localization (appid : Z) (language : string)
  : R unit :=
  (on_client
     (log INFO
        "Sending call for rich presence localization with {appid}, {language}");;
   body ← rlift (build_request out
                   (CCommunity_GetAppRichPresenceLocalization_Request
                      appid language));
   job_id ← next_job_id;
   on_client
     (_send_serialized (EMsg_ServiceMethodCallFromClient out) body
        (Some job_id) None
        (Some "Community.GetAppRichPresenceLocalization#1")))%run.

(** [job[key]] *)
Definition job_getitem (j : job) (key : string) : result job_value :=
  match j !! key with
  | Some v => Ok v
  | None => Raise KeyError
  end.

(** [self.job_list.remove(job)] *)
Definition remove_job (j : job) : R unit :=
  fun r =>
    match list_remove j (job_list r) with
    | Some rest =>
        (Ok tt,
         {| client := client r; _job_id_iterator := _job_id_iterator r;
            job_list := rest |})
    | None => (Raise ValueError, r)
    end.

(** The body of [for job in self.job_list.copy()]. *)
Definition run_job (j : job) : R unit :=
  (on_client (log INFO "New job on list {job}");;
   name ← rlift (job_getitem j "job_name");
   (if bool_decide (name = JobStr "import_game_stats") then
      game_id ← rlift (job_getitem j "game_id");
      on_client (_import_game_stats game_id);;
      game_id ← rlift (job_getitem j "game_id");
      on_client (_import_game_time game_id);;
      remove_job j
    else rret tt);;
   name ← rlift (job_getitem j "job_name");
   (if bool_decide (name = JobStr "import_collections") then
      _import_collections;;
      remove_job j
    else rret tt))%run.

(** The first half of a turn of [run]: the jobs queued when the turn
    starts are taken in order. *)
Definition run_jobs : R unit :=
  fun r => rfor_each (job_list r) run_job r.

(** One turn of the [while True] of [run]. [received] is what
    [asyncio.wait_for(self._socket.recv(), 0.1)] gives: a packet, or the
    exception it raises ([TimeoutError] when nothing arrived in time). *)
Definition run_turn (depth : nat) (received : result bytes) : R unit :=
  (run_jobs;;
   fun r =>
     match (packet ← rlift received;
            on_client (_process_packet ext depth packet)) r with
     | (Ok a, r') => (Ok a, r')
     | (Raise e, r') =>
         if is_TimeoutError e then (Ok tt, r') else (Raise e, r')
     end)%run.

(** [run]: the [while True] loop, for the turns [arrivals] describes; an
    exception ends the loop. *)
Definition run (depth : nat) (arrivals : list (result bytes)) : R unit :=
  rfor_each arrivals (run_turn depth).

End Requests.

(** * Notions used to state the properties *)

(** ** Calls and traces *)

(** What a callee answers, as the outcome of the [await]. *)
Definition outcome_of (o : option exn) : result unit :=
  match o with
  | None => Ok tt
  | Some e => Raise e
  end.

(** The call [c] reaches the callee [f]: it is recorded at the end of the
    trace, and the callee's answer is the outcome. *)
Definition delivered (f : callee call) (c : call) (self : ProtobufClient)
  : result unit * ProtobufClient :=
  (outcome_of (f (trace self) c), set_trace (trace self ++ [Call c]) self).

(** [self'] is [self] with the events [evs] added to its trace. *)
Definition extends (self self' : ProtobufClient) (evs : list event) : Prop :=
  self' = set_trace (trace self ++ evs) self.

Definition is_Log (ev : event) : Prop :=
  match ev with
  | Log _ _ => True
  | _ => False
  end.

Definition is_handler_call (ev : event) : Prop :=
  match ev with
  | Call _ => True
  | _ => False
  end.

Definition is_user_info_call (ev : event) : Prop :=
  match ev with
  | Call (call_user_info_handler _ _) => True
  | _ => False
  end.

(** A callee that returns whatever happened before and whatever it is
    given. *)
Definition always_returns {A} (f : callee A) : Prop :=
  forall tr a, f tr a = None.

(** ** Containers and short packets *)

(** One record of a container payload: the length of the packet as a
    little-endian 32-bit word, then the packet. *)
Definition record_of (packet : bytes) : bytes := le32 (len packet) ++ packet.

Definition records (packets : list bytes) : bytes :=
  concat (map record_of packets).

Definition too_small_warning : event :=
  Log WARNING "Package too small, ignoring...".

Definition extended_header_warning : event :=
  Log WARNING "Packet with extended header - ignoring".

(** ** The session id *)

(** A computation that leaves [_session_id] as it found it. *)
Definition frames_session_id {A} (m : M A) : Prop :=
  forall self, _session_id (snd (m self)) = _session_id self.

(** A property of the session id that adopting a nonzero id for an unset
    one cannot break. *)
Definition adoption_stable (I : option Z -> Prop) : Prop :=
  forall v, v <> 0 -> I None -> I (Some v).

(** A computation that keeps a property of the session id. *)
Definition keeps_session_id (I : option Z -> Prop) {A} (m : M A) : Prop :=
  forall self, I (_session_id self) -> I (_session_id (snd (m self))).

(** The first nonzero value of a list of session id values. *)
Definition first_nonzero (ids : list Z) : option Z :=
  head (List.filter (fun v => negb (v =? 0)) ids).

(** The session id of a client that started with [sid] and then saw
    headers carrying the values [ids], in this order: a known id stays, and
    otherwise the first nonzero value is adopted. *)
Definition adopted (sid : option Z) (ids : list Z) : option Z :=
  match sid with
  | Some v => Some v
  | None => first_nonzero ids
  end.

(** The packets the loop of a container passes on, in order. *)
Fixpoint multi_records (turns : nat) (data : bytes) (offset : Z)
  : list bytes :=
  match turns with
  | O => []
  | S turns' =>
      if offset + 4 <=? len data then
        match struct_unpack_I (slice data offset (offset + 4)) with
        | Ok size =>
            slice data (offset + 4) (offset + 4 + size)
            :: multi_records turns' data (offset + 4 + size)
        | Raise _ => []
        end
      else []
  end.

(** The session id values of the headers that reading a packet comes
    across, in the order it parses them: the value of the packet's own
    header (0 when the header has none), then, for a container, those of
    the packets inside it. A packet that cannot be read that far has
    none. *)
Fixpoint headers_of (ext : Collaborators) (depth : nat) (packet : bytes)
  : list Z :=
  match depth with
  | O => []
  | S depth' =>
      match struct_unpack_I (slice packet 0 4) with
      | Raise _ => []
      | Ok raw_emsg =>
          if negb (Z.land raw_emsg _PROTO_MASK =? 0) then
            match struct_unpack_I (slice packet 4 8) with
            | Raise _ => []
            | Ok header_len =>
                match parse_Header ext (slice packet 8 (8 + header_len)) with
                | Raise _ => []
                | Ok header =>
                    header_client_sessionid header
                    :: (if Z.land raw_emsg (Z.lnot _PROTO_MASK)
                           =? EMsg_Multi ext
                        then
                          match parse_Multi ext
                                  (slice_from packet (8 + header_len)) with
                          | Raise _ => []
                          | Ok message =>
                              match multi_data ext message with
                              | Raise _ => []
                              | Ok data =>
                                  concat
                                    (map (headers_of ext depth')
                                       (multi_records (length data) data 0))
                              end
                          end
                        else [])
                end
            end
          else []
      end
  end.

(** A computation that comes across the headers [all] when it runs to
    its end, and across the first of them when it raises: the session id
    it leaves is the one adopted from the headers it came across. *)
Definition notes {A} (m : M A) (all : list Z) : Prop :=
  forall self,
    exists ids,
      ids `prefix_of` all
      /\ _session_id (snd (m self)) = adopted (_session_id self) ids
      /\ (forall a, fst (m self) = Ok a -> ids = all).

(** ** The heartbeat task *)

Definition cancelled_task (k : Task) : Task :=
  {| interval := interval k; cancelled := true |}.

(** ** Friend lists *)

(** The friends of a friend list whose steam id is an individual account,
    as (steam id, relationship) pairs in message order. *)
Definition individual_friends (ext : Collaborators)
    (friends : list CMsgClientFriendsList.Friend) : list (Z * Z) :=
  omap (fun r =>
          if SteamId_parse_type ext (CMsgClientFriendsList.ulfriendid r)
             =? EAccountType_Individual ext
          then Some (CMsgClientFriendsList.ulfriendid r,
                     CMsgClientFriendsList.efriendrelationship r)
          else None) friends.

(** The dictionary built by assigning the pairs in order: a later pair
    with the same key replaces the earlier one. *)
Definition dict_of (pairs : list (Z * Z)) : gmap Z Z :=
  foldl (fun d p => <[p.1 := p.2]> d) ∅ pairs.

(** ** Persona states *)

(** A rich-presence attribute that names a localization key: its key is
    [status] and its value starts with [#]. *)
Definition localization_key (element : CMsgClientPersonaState.KV) : bool :=
  String.eqb (CMsgClientPersonaState.key element) "status"
  && starts_with_hash (CMsgClientPersonaState.value element).

(** The calls to the translations handler a persona-state entry asks for:
    one per localization key, when the entry has a game id. *)
Definition translation_calls (user : CMsgClientPersonaState.Friend)
  : list event :=
  match CMsgClientPersonaState.gameid user with
  | Some gameid =>
      map (fun _ => Call (call_translations_handler gameid None))
        (List.filter localization_key
           (CMsgClientPersonaState.rich_presence user))
  | None => []
  end.

(** The dictionary of rich-presence attributes: a later attribute with
    the same key replaces the earlier one. *)
Definition presence_dict (elements : list CMsgClientPersonaState.KV)
  : gmap string string :=
  foldl (fun d element =>
           <[CMsgClientPersonaState.key element
             := CMsgClientPersonaState.value element]> d)
    ∅ elements.

(** The presence record of an entry: the fields the entry has, and the
    dictionary of all its attributes when it has a game id. *)
Definition presence_record (user : CMsgClientPersonaState.Friend)
  : UserInfo.t :=
  {| UserInfo.name := CMsgClientPersonaState.player_name user;
     UserInfo.avatar_hash := CMsgClientPersonaState.avatar_hash user;
     UserInfo.state := CMsgClientPersonaState.persona_state user;
     UserInfo.game_id := CMsgClientPersonaState.gameid user;
     UserInfo.game_name := CMsgClientPersonaState.game_name user;
     UserInfo.rich_presence :=
       match CMsgClientPersonaState.gameid user with
       | Some _ =>
           Some (presence_dict (CMsgClientPersonaState.rich_presence user))
       | None => None
       end |}.

(** The entry is about the account of the client, and that account plays
    an app: the one case in which the entry makes an app-info request. *)
Definition own_account_playing (user : CMsgClientPersonaState.Friend)
    (self : ProtobufClient) : bool :=
  bool_decide (Some (CMsgClientPersonaState.friendid user) = _steam_id self)
  && negb (CMsgClientPersonaState.game_played_app_id user =? 0).

(** An entry whose persona state, when it has one, is a value of the
    enumeration. *)
Definition valid_persona_state (ext : Collaborators)
    (user : CMsgClientPersonaState.Friend) : Prop :=
  forall p,
    CMsgClientPersonaState.persona_state user = Some p ->
    is_EPersonaState ext p = true.

(** ** License lists *)

(** The entries of a license list the client forwards for the secondary
    profile [miniprofile_id]. *)
Definition forwarded_licenses (miniprofile_id : Z)
    (licenses : list CMsgClientLicenseList.License)
  : list CMsgClientLicenseList.License :=
  filter (fun l => CMsgClientLicenseList.owner_id l = miniprofile_id
                   ∧ CMsgClientLicenseList.flags l ≠ 520) licenses.

(** ** Achievement slots

    A slot is one entry of a block's [unlock_time] list, with the block id
    and its index in the list: (block id, (index, unlock time)). *)

Definition slots_of (message : CMsgClientGetUserStatsResponse.t)
  : list (Z * (Z * Z)) :=
  concat
    (map (fun b =>
            map (pair (CMsgClientGetUserStatsResponse.achievement_id b))
              (enumerate (CMsgClientGetUserStatsResponse.unlock_time b)))
       (CMsgClientGetUserStatsResponse.achievement_blocks message)).

(** The display name the schema gives bit [index] of a block: the
    [english] one when the name has localizations. *)
Definition display_name (schema : vdf) (game_id achievement_id index : Z)
  : result vdf :=
  let name_path :=
    bits_path game_id achievement_id ++ [str index; "display"; "name"] in
  match getpath schema name_path with
  | Raise e => Raise e
  | Ok localized =>
      match contains "english" localized with
      | Raise e => Raise e
      | Ok true => getpath schema (name_path ++ ["english"])
      | Ok false => getpath schema name_path
      end
  end.

(** How the schema stands to a slot. *)
Inductive slot_status :=
| Locked                  (* the unlock time is zero *)
| NoBitsTable (e : exn)   (* the block's bits table cannot be looked up *)
| Absent                  (* the bits table has no entry for the index *)
| Unreadable              (* it has one, but no display name can be read *)
| Named (name : vdf).     (* it has one, with this display name *)

Definition slot_status_of (schema : vdf) (game_id : Z) (slot : Z * (Z * Z))
  : slot_status :=
  let '(achievement_id, (index, unlock_time)) := slot in
  if 0 <? unlock_time then
    match getpath schema (bits_path game_id achievement_id) with
    | Raise e => NoBitsTable e
    | Ok table =>
        match contains (str index) table with
        | Raise e => NoBitsTable e
        | Ok false => Absent
        | Ok true =>
            match display_name schema game_id achievement_id index with
            | Ok name => Named name
            | Raise _ => Unreadable
            end
        end
    end
  else Locked.

(** Slots that do not stop the processing of a stats response. *)
Definition benign (st : slot_status) : Prop :=
  match st with
  | Locked | Absent | Named _ => True
  | NoBitsTable _ | Unreadable => False
  end.

(** The achievements reported for a list of slots: one per named slot. *)
Definition achievements_of (schema : vdf) (game_id : Z)
    (slots : list (Z * (Z * Z))) : list Achievement :=
  omap (fun slot =>
          match slot_status_of schema game_id slot with
          | Named name =>
              Some {| id := 32 * (slot.1 - 1) + slot.2.1;
                      unlock_time := slot.2.2;
                      name := name |}
          | _ => None
          end) slots.

(** The log lines written for a list of benign slots: one per absent
    slot. *)
Definition skipped_logs (schema : vdf) (game_id : Z)
    (slots : list (Z * (Z * Z))) : list event :=
  omap (fun slot =>
          match slot_status_of schema game_id slot with
          | Absent => Some (Log INFO "Non existent achievement unlocked")
          | _ => None
          end) slots.

(** * Sample inputs *)

(** A concrete logon whose socket refuses the send. *)
Definition refusing_socket : callee bytes :=
  fun _ _ => Some (Raised "ConnectionClosed").

Definition logon_response_example : CMsgClientLogonResponse.t :=
  {| CMsgClientLogonResponse.eresult := 1;
     CMsgClientLogonResponse.out_of_game_heartbeat_seconds := 9 |}.

(** A logon response packet whose body is entry 1 of the canned table. *)
Definition logon_response_packet : bytes := Fixture.frame 751 [] [x01].

(** A container payload that ends in two stray bytes after one complete
    record. *)
Definition dangling_multi_example : CMsgMulti.t :=
  {| CMsgMulti.size_unzipped := 0;
     CMsgMulti.message_body := record_of logon_response_packet ++ [x2a; x2a] |}.

(** A container payload whose only record declares 100 bytes and holds
    nine. *)
Definition truncated_multi_example : CMsgMulti.t :=
  {| CMsgMulti.size_unzipped := 0;
     CMsgMulti.message_body := le32 100 ++ logon_response_packet |}.

Definition multi_examples : Collaborators :=
  Fixture.collaborators
    [Fixture.P_Multi dangling_multi_example;
     Fixture.P_LogonResponse logon_response_example;
     Fixture.P_Multi truncated_multi_example].

Definition header_with_session (v : Z) : CMsgProtoBufHeader.t :=
  {| CMsgProtoBufHeader.steamid := None;
     CMsgProtoBufHeader.client_sessionid := Some v;
     CMsgProtoBufHeader.jobid_source := None;
     CMsgProtoBufHeader.jobid_target := None;
     CMsgProtoBufHeader.target_job_name := None |}.

(** Two packets whose headers carry the session ids 7 and 9. *)
Definition session_examples : Collaborators :=
  Fixture.collaborators
    [Fixture.P_Header (header_with_session 7);
     Fixture.P_Header (header_with_session 9)].

(** A packet whose header carries no session id. *)
Definition packet_without_session : bytes := Fixture.frame 9999 [] [].

Definition packet_with_session_7 : bytes := Fixture.frame 9999 [x00] [].
Definition packet_with_session_9 : bytes := Fixture.frame 9999 [x01] [].

Definition logged_off_example : CMsgClientLoggedOff.t :=
  {| CMsgClientLoggedOff.eresult := 1 |}.

(** A client that logged on successfully: one heartbeat task is running. *)
Definition client_with_heartbeat : ProtobufClient :=
  set_heartbeat_task (Some 0%nat)
    (set_tasks [{| interval := 9; cancelled := false |}] Fixture.client).

Definition friends_example : CMsgClientFriendsList.t :=
  {| CMsgClientFriendsList.bincremental := false;
     CMsgClientFriendsList.friends :=
       [ (* an individual account: type 1 in bits 52..55 *)
         {| CMsgClientFriendsList.ulfriendid := 76561197960265729;
            CMsgClientFriendsList.efriendrelationship := 3 |};
         (* a clan: type 7 *)
         {| CMsgClientFriendsList.ulfriendid := 103582791429521409;
            CMsgClientFriendsList.efriendrelationship := 3 |} ] |}.

(** A friend playing game 730 whose presence has a localization key under
    [status]. *)
Definition persona_status_example : CMsgClientPersonaState.Friend :=
  {| CMsgClientPersonaState.friendid := 76561197960265729;
     CMsgClientPersonaState.game_played_app_id := 730;
     CMsgClientPersonaState.player_name := Some "gordon";
     CMsgClientPersonaState.avatar_hash := None;
     CMsgClientPersonaState.persona_state := Some 1;
     CMsgClientPersonaState.gameid := Some 730;
     CMsgClientPersonaState.rich_presence :=
       [ {| CMsgClientPersonaState.key := "status";
            CMsgClientPersonaState.value := "#Status_InGame" |} ];
     CMsgClientPersonaState.game_name := None |}.

(** The same friend, with the localization key under [steam_display]. *)
Definition persona_display_example : CMsgClientPersonaState.Friend :=
  {| CMsgClientPersonaState.friendid := 76561197960265729;
     CMsgClientPersonaState.game_played_app_id := 730;
     CMsgClientPersonaState.player_name := Some "gordon";
     CMsgClientPersonaState.avatar_hash := None;
     CMsgClientPersonaState.persona_state := Some 1;
     CMsgClientPersonaState.gameid := Some 730;
     CMsgClientPersonaState.rich_presence :=
       [ {| CMsgClientPersonaState.key := "steam_display";
            CMsgClientPersonaState.value := "#Status_InGame" |} ];
     CMsgClientPersonaState.game_name := None |}.

(** The record delivered for [persona_status_example] and for
    [persona_display_example], up to the presence attributes. *)
Definition persona_info_example (attributes : gmap string string)
  : UserInfo.t :=
  {| UserInfo.name := Some "gordon";
     UserInfo.avatar_hash := None;
     UserInfo.state := Some 1;
     UserInfo.game_id := Some 730;
     UserInfo.game_name := None;
     UserInfo.rich_presence := Some attributes |}.

Definition license_example : CMsgClientLicenseList.t :=
  {| CMsgClientLicenseList.licenses :=
       [ {| CMsgClientLicenseList.package_id := 1;
            CMsgClientLicenseList.owner_id := 42;
            CMsgClientLicenseList.flags := 0;
            CMsgClientLicenseList.license_type := 1 |};
         {| CMsgClientLicenseList.package_id := 2;
            CMsgClientLicenseList.owner_id := 42;
            CMsgClientLicenseList.flags := 520;
            CMsgClientLicenseList.license_type := 1 |};
         {| CMsgClientLicenseList.package_id := 3;
            CMsgClientLicenseList.owner_id := 99;
            CMsgClientLicenseList.flags := 0;
            CMsgClientLicenseList.license_type := 1 |} ] |}.

(** The stats response of the specification's example: block 1, bit 5
    unlocked. *)
Definition stats_example : CMsgClientGetUserStatsResponse.t :=
  {| CMsgClientGetUserStatsResponse.game_id := 1;
     CMsgClientGetUserStatsResponse.stats := [];
     CMsgClientGetUserStatsResponse.achievement_blocks :=
       [ {| CMsgClientGetUserStatsResponse.achievement_id := 1;
            CMsgClientGetUserStatsResponse.unlock_time :=
              [0; 0; 0; 0; 0; 1600000000] |} ];
     CMsgClientGetUserStatsResponse.schema := [x01] |}.

(** A schema for game 1 whose block 1 describes bit 0 only. *)
Definition schema_without_bit_5 : vdf :=
  VDict [("1", VDict [("stats", VDict [("1", VDict [("bits", VDict
    [("0", VDict [("display", VDict [("name", VStr "First blood")])])])])])])].

(** A schema whose bit 5 has an entry without a display name. *)
Definition schema_unnamed_bit_5 : vdf :=
  VDict [("1", VDict [("stats", VDict [("1", VDict [("bits", VDict
    [("5", VDict [("bit", VInt 5)])])])])])].

(** A schema for game 1 that has no block 1. *)
Definition schema_without_block_1 : vdf :=
  VDict [("1", VDict [("stats", VDict [("2", VDict [("bits", VDict [])])])])].

(** A schema whose bit 5 has an english display name. *)
Definition schema_named_bit_5 : vdf :=
  VDict [("1", VDict [("stats", VDict [("1", VDict [("bits", VDict
    [("5", VDict [("display", VDict [("name",
       VDict [("english", VStr "Survivor"); ("german", VStr "Ueberlebender")]
     )])])])])])])].

(** A product-info response with one package entry and no app entry. *)
Definition package_info_example : CMsgClientPICSProductInfoResponse.t :=
  {| CMsgClientPICSProductInfoResponse.packages :=
       [ {| CMsgClientPICSProductInfoResponse.packageid := 0;
            CMsgClientPICSProductInfoResponse.buffer := [] |} ];
     CMsgClientPICSProductInfoResponse.apps := [] |}.

Definition handler_examples : Collaborators :=
  Fixture.collaborators
    [Fixture.P_GetUserStatsResponse stats_example;
     Fixture.P_Vdf schema_named_bit_5;
     Fixture.P_PICSProductInfoResponse package_info_example].

(** * Proof automation *)

Create HintDb frames.

Ltac frames_step :=
  first
    [ assumption
    | match goal with
      | |- frames_session_id (bind _ _) => fail 1
      | |- frames_session_id (try_except _ _ _) => fail 1
      | |- frames_session_id (for_each _ _) => fail 1
      | |- frames_session_id (fold_each _ _ _) => fail 1
      | |- frames_session_id (match ?x with _ => _ end) => destruct x
      | |- frames_session_id (let _ := _ in _) => lazy zeta
      | |- frames_session_id _ => solve [auto with frames]
      end ].

(** Case analysis on the next schema lookup of the goal. *)
Ltac case_lookup :=
  match goal with
  | |- context [match getpath ?s ?p with _ => _ end] =>
      destruct (getpath s p) as [?|?]
  | |- context [match contains ?k ?v with _ => _ end] =>
      destruct (contains k v) as [[|]|?]
  end; simpl.


(** * Notions for the requests, the framing and the job loop *)

(** ** Frames *)

(** A packet on the wire: the message type with the protobuf flag and the
    length of the header, as little-endian 32-bit words, then the header
    and the body. *)
Definition wire_frame (emsg : Z) (header body : bytes) : bytes :=
  le32 (Z.lor emsg _PROTO_MASK) ++ le32 (len header) ++ header ++ body.

(** The header of a request: the ids of the client, and the job fields of
    the call. *)
Definition stamped_header (self : ProtobufClient)
    (source_job_id target_job_id : option Z) (target_job_name : option string)
  : CMsgProtoBufHeader.t :=
  {| CMsgProtoBufHeader.steamid := _steam_id self;
     CMsgProtoBufHeader.client_sessionid := _session_id self;
     CMsgProtoBufHeader.jobid_source := source_job_id;
     CMsgProtoBufHeader.jobid_target := target_job_id;
     CMsgProtoBufHeader.target_job_name := target_job_name |}.

(** The values a header field of [bits] unsigned bits takes. *)
Definition fits_uint (bits : Z) (o : option Z) : Prop :=
  match o with
  | Some z => 0 <= z < 2 ^ bits
  | None => True
  end.

Definition fits_int32 (o : option Z) : Prop :=
  match o with
  | Some z => - 2 ^ 31 <= z < 2 ^ 31
  | None => True
  end.

(** The ids of the client fit the header fields they are copied to. *)
Definition ids_fit (self : ProtobufClient) : Prop :=
  fits_uint 64 (_steam_id self) /\ fits_int32 (_session_id self).

(** A header too long for the 32-bit length word cannot be framed. *)
Definition header_fits (ext : Collaborators) (h : CMsgProtoBufHeader.t)
  : Prop :=
  len (serialize_Header ext h) < 2 ^ 32.

(** The frame a request is sent as. *)
Definition request_frame (ext : Collaborators) (self : ProtobufClient)
    (emsg : Z) (source_job_id target_job_id : option Z)
    (target_job_name : option string) (body : bytes) : bytes :=
  wire_frame emsg
    (serialize_Header ext
       (stamped_header self source_job_id target_job_id target_job_name))
    body.

(** What sending [data] does to the client and what it answers. *)
Definition sent (data : bytes) (self : ProtobufClient)
  : result unit * ProtobufClient :=
  (outcome_of (_socket self (trace self) data),
   set_trace (trace self ++ [Send data]) self).

(** The message types [_process_message] has a branch for. *)
Definition known_emsgs (ext : Collaborators) : list Z :=
  [EMsg_Multi ext; EMsg_ClientLogOnResponse ext; EMsg_ClientLogOff ext;
   EMsg_ClientFriendsList ext; EMsg_ClientPersonaState ext;
   EMsg_ClientLicenseList ext; EMsg_PICSProductInfoResponse ext;
   EMsg_ClientGetUserStatsResponse ext; EMsg_ServiceMethod ext;
   EMsg_ServiceMethodResponse ext].

(** The client after [log_on] stored the two ids. *)
Definition logging_on (steam_id miniprofile_id : Z) (self : ProtobufClient)
  : ProtobufClient :=
  set_miniprofile_id (Some miniprofile_id) (set_steam_id (Some steam_id) self).

(** The logon message of [log_on]. *)
Definition logon_message (account_name token : string) : out_message :=
  CMsgClientLogon account_name 65580 2 4294966596 4 2 token 0.

(** ** Collections *)

(** The item assignment an entry of a collections download leads to: the
    entry must be a JSON document with the keys [added] and [name], and the
    name must be hashable. *)
Definition collection_of (ext : Collaborators) (value : string)
  : option (json * json) :=
  match json_loads ext value with
  | Ok loaded_val =>
      match json_getitem loaded_val "added", json_getitem loaded_val "name" with
      | Ok added, Ok name => if hashable name then Some (name, added) else None
      | _, _ => None
      end
  | Raise _ => None
  end.

(** A collections download with one entry to keep, one without a name and
    one that is not JSON. The first character of an entry selects the
    canned document. *)
Definition collections_example : CCloudConfigStore_Download_Response.t :=
  {| CCloudConfigStore_Download_Response.data :=
       [ [String "001" "favourites"; String "002" "nameless"];
         [String "009" "not json"] ] |}.

Definition collections_examples : Collaborators :=
  Fixture.collaborators
    [Fixture.P_CloudConfigStore_Download collections_example;
     Fixture.P_Json (JObj [("name", JStr "Favourites");
                           ("added", JArr [JInt 730; JInt 440])]);
     Fixture.P_Json (JObj [("added", JArr [JInt 10])])].

(** ** The footprint of the inbound half

    The ways the processing of a packet changes the client. *)
Inductive update : ProtobufClient -> ProtobufClient -> Prop :=
| update_trace (ev : event) (self : ProtobufClient) :
    update self (set_trace (trace self ++ [ev]) self)
| update_session_id (v : Z) (self : ProtobufClient) :
    update self (set_session_id (Some v) self)
| update_collections (item : json * json) (self : ProtobufClient) :
    update self (set_collections (collections self ++ [item]) self)
| update_collections_event (self : ProtobufClient) :
    update self (set_collections_event true self)
| update_new_task (seconds : Z) (self : ProtobufClient) :
    update self
      (set_heartbeat_task (Some (length (tasks self)))
         (set_tasks
            (tasks self ++ [{| interval := seconds; cancelled := false |}])
            self))
| update_cancel (t : nat) (self : ProtobufClient) :
    update self (cancelled_at t self).

(** A computation that changes the client by such updates only. *)
Definition only_updates {A} (m : M A) : Prop :=
  forall self, rtc update self (snd (m self)).

Create HintDb updates.

Ltac updates_step :=
  first
    [ assumption
    | match goal with
      | |- only_updates (bind _ _) => fail 1
      | |- only_updates (try_except _ _ _) => fail 1
      | |- only_updates (for_each _ _) => fail 1
      | |- only_updates (fold_each _ _ _) => fail 1
      | |- only_updates (match ?x with _ => _ end) => destruct x
      | |- only_updates (let _ := _ in _) => lazy zeta
      | |- only_updates _ => solve [auto with updates]
      end ].

(** The socket, the ids given at logon and the ten handlers are the same
    in both clients. *)
Definition same_wiring (a b : ProtobufClient) : Prop :=
  _socket b = _socket a
  /\ _steam_id b = _steam_id a
  /\ _miniprofile_id b = _miniprofile_id a
  /\ log_on_handler b = log_on_handler a
  /\ log_off_handler b = log_off_handler a
  /\ relationship_handler b = relationship_handler a
  /\ user_info_handler b = user_info_handler a
  /\ license_import_handler b = license_import_handler a
  /\ app_info_handler b = app_info_handler a
  /\ package_info_handler b = package_info_handler a
  /\ translations_handler b = translations_handler a
  /\ stats_handler b = stats_handler a
  /\ times_handler b = times_handler a.

(** Every task of [a] is still a task of [b], with its interval, and
    cancelled if it was. *)
Definition tasks_kept (a b : ProtobufClient) : Prop :=
  forall t k,
    tasks a !! t = Some k ->
    exists k', tasks b !! t = Some k'
               /\ interval k' = interval k
               /\ (cancelled k = true -> cancelled k' = true).

(** Every name that has a value in the collections of [a] has one in the
    collections of [b] (a later assignment may have replaced the value),
    and the event of [b] is set if that of [a] is. *)
Definition has_collection (name : json) (c : ProtobufClient) : Prop :=
  exists added, (name, added) ∈ collections c.

Definition collections_kept (a b : ProtobufClient) : Prop :=
  (forall name, has_collection name a -> has_collection name b)
  /\ (collections_event a = true -> collections_event b = true).

(** ** Product information *)

(** What the processing records for a package entry with the id 0. *)
Definition skipped_package : list event :=
  [Call (call_package_info_handler 0); Log INFO "Skipping packageid 0 "].

(** The package loop over [pre ++ [info] ++ post] when [info] has the id
    0: the entries before it, the two events of [info], then the entries
    after it, which go on with the apps collected before it. *)
Definition packages_around_zero (ext : Collaborators)
    (pre post : list CMsgClientPICSProductInfoResponse.PackageInfo)
  : M (list vdf) :=
  apps_to_parse ← fold_each pre [] (package_info_entry ext);
  modify (fun self => set_trace (trace self ++ skipped_package) self);;
  fold_each post apps_to_parse (package_info_entry ext).

(** The call that reports an app: with its title when it is a game. *)
Definition reported_app (appid : Z) (title : option vdf) : call :=
  match title with
  | Some name => call_app_info_handler appid (Some name) (Some true)
  | None => call_app_info_handler appid None (Some false)
  end.

(** The values of 32 unsigned bits. *)
Definition is_uint32 (z : Z) : Prop := 0 <= z < 2 ^ 32.

(** The log line and the frame of a product-info request for [packages]
    and [apps]. *)
Definition product_info_request (ext : Collaborators) (self : ProtobufClient)
    (template : string) (packages apps : list Z) : list event :=
  [Log INFO template;
   Send (request_frame ext self (EMsg_PICSProductInfoRequest ext)
           None None None
           (serialize ext (CMsgClientPICSProductInfoRequest packages apps)))].

(** The [appids] table of a package document: keys and app ids. *)
Definition appids_table (apps : list (string * Z)) : vdf :=
  VDict (map (fun kn => (kn.1, VInt kn.2)) apps).

(** What the processing records for a package with apps: the package is
    reported, then each app, then the apps are requested in one frame. *)
Definition package_with_apps_events (ext : Collaborators)
    (self : ProtobufClient) (packageid : Z) (apps : list (string * Z))
  : list event :=
  Call (call_package_info_handler packageid)
  :: map (fun kn => Call (call_app_info_handler kn.2 None None)) apps
  ++ Log INFO "Apps to parse {apps_to_parse}, {len(apps_to_parse)} entries"
  :: product_info_request ext self
       "Sending call {EMsg.PICSProductInfoRequest} with {app_ids}"
       [] (map snd apps).

(** ** Game time *)

(** The header of the game-time request for game [g]: the game id is both
    the source and the target job id. *)
Definition game_time_header (self : ProtobufClient) (g : Z)
  : CMsgProtoBufHeader.t :=
  stamped_header self (Some g) (Some g) (Some "Player.GetFriendsGameplayInfo#1").

(** A response header that answers [request]: it names the same job, and
    its target job id is the source job id of the request. *)
Definition answers (response request : CMsgProtoBufHeader.t) : Prop :=
  CMsgProtoBufHeader.target_job_name response
  = CMsgProtoBufHeader.target_job_name request
  /\ CMsgProtoBufHeader.jobid_target response
     = CMsgProtoBufHeader.jobid_source request.

(** ** Service calls and job ids *)

(** The three methods that take a job id from [_job_id_iterator]. *)
Inductive service_call :=
| FriendsStatuses
| ImportCollections
| PresenceLocalization (appid : Z) (language : string).

Definition perform (ext : Collaborators) (out : Outbound) (c : service_call)
  : R unit :=
  match c with
  | FriendsStatuses => get_friends_statuses ext out
  | ImportCollections => _import_collections ext out
  | PresenceLocalization appid language =>
      get_presence_localization ext out appid language
  end.

Definition service_request (c : service_call) : request :=
  match c with
  | FriendsStatuses => CChat_RequestFriendPersonaStates_Request
  | ImportCollections => CCloudConfigStore_Download_Request [1]
  | PresenceLocalization appid language =>
      CCommunity_GetAppRichPresenceLocalization_Request appid language
  end.

Definition service_job_name (c : service_call) : string :=
  match c with
  | FriendsStatuses => "Chat.RequestFriendPersonaStates#1"
  | ImportCollections => "CloudConfigStore.Download#1"
  | PresenceLocalization _ _ => "Community.GetAppRichPresenceLocalization#1"
  end.

Definition service_log (c : service_call) : list event :=
  match c with
  | PresenceLocalization _ _ =>
      [Log INFO
         "Sending call for rich presence localization with {appid}, {language}"]
  | _ => []
  end.

(** The serialized request, when the request can be built. *)
Definition service_body (out : Outbound) (c : service_call) : bytes :=
  match build_request out (service_request c) with
  | Ok body => body
  | Raise _ => []
  end.

(** What a service call made with the job id [job_id] records. *)
Definition service_events (ext : Collaborators) (out : Outbound)
    (self : ProtobufClient) (job_id : Z) (c : service_call) : list event :=
  service_log c
  ++ [Send (request_frame ext self (EMsg_ServiceMethodCallFromClient out)
              (Some job_id) None (Some (service_job_name c))
              (service_body out c))].

(** The runner with another client. *)
Definition with_client (c : ProtobufClient) (r : Runner) : Runner :=
  {| client := c; _job_id_iterator := _job_id_iterator r;
     job_list := job_list r |}.

(** ** The job list *)

(** The jobs a turn of [run] serves. *)
Definition served (j : job) : bool :=
  bool_decide (j !! "job_name" = Some (JobStr "import_game_stats"))
  || bool_decide (j !! "job_name" = Some (JobStr "import_collections")).

(** ** A test double for the request classes

    The constants are the values Steam uses; a request is serialized to one
    byte that tells its class. *)
Definition outbound_example : Outbound :=
  {| EMsg_ClientGetUserStats := 818;
     EMsg_ServiceMethodCallFromClient := 151;
     EMsg_ClientChangeStatus := 716;
     EMsg_ClientRequestFriendData := 815;
     build_request := fun r =>
       Ok [match r with
           | CMsgClientGetUserStats _ => x01
           | CPlayer_GetFriendsGameplayInfo_Request _ => x02
           | CMsgClientChangeStatus _ => x03
           | CChat_RequestFriendPersonaStates_Request => x04
           | CMsgClientRequestFriendData _ _ => x05
           | CCloudConfigStore_Download_Request _ => x06
           | CCommunity_GetAppRichPresenceLocalization_Request _ _ => x07
           end] |}.

(** * More sample inputs *)

(** A test double whose header serializer writes the job name: the
    serialized header is as long as the name. *)
Definition naming_collaborators : Collaborators :=
  let base := Fixture.collaborators [] in
  {| EMsg_Multi := EMsg_Multi base;
     EMsg_ClientLogOnResponse := EMsg_ClientLogOnResponse base;
     EMsg_ClientLogOff := EMsg_ClientLogOff base;
     EMsg_ClientFriendsList := EMsg_ClientFriendsList base;
     EMsg_ClientPersonaState := EMsg_ClientPersonaState base;
     EMsg_ClientLicenseList := EMsg_ClientLicenseList base;
     EMsg_PICSProductInfoResponse := EMsg_PICSProductInfoResponse base;
     EMsg_ClientGetUserStatsResponse := EMsg_ClientGetUserStatsResponse base;
     EMsg_ServiceMethod := EMsg_ServiceMethod base;
     EMsg_ServiceMethodResponse := EMsg_ServiceMethodResponse base;
     EMsg_ClientLogon := EMsg_ClientLogon base;
     EMsg_PICSProductInfoRequest := EMsg_PICSProductInfoRequest base;
     EResult_OK := EResult_OK base;
     EAccountType_Individual := EAccountType_Individual base;
     is_EFriendRelationship := is_EFriendRelationship base;
     is_EPersonaState := is_EPersonaState base;
     SteamId_parse_type := SteamId_parse_type base;
     parse_Header := parse_Header base;
     parse_Multi := parse_Multi base;
     parse_LogonResponse := parse_LogonResponse base;
     parse_LoggedOff := parse_LoggedOff base;
     parse_FriendsList := parse_FriendsList base;
     parse_PersonaState := parse_PersonaState base;
     parse_LicenseList := parse_LicenseList base;
     parse_PICSProductInfoResponse := parse_PICSProductInfoResponse base;
     parse_RichPresenceLocalization := parse_RichPresenceLocalization base;
     parse_GetUserStatsResponse := parse_GetUserStatsResponse base;
     parse_GetFriendsGameplayInfo := parse_GetFriendsGameplayInfo base;
     parse_CloudConfigStore_Download := parse_CloudConfigStore_Download base;
     jobid_target_default := jobid_target_default base;
     serialize_Header := fun h =>
       list_byte_of_string
         (default EmptyString (CMsgProtoBufHeader.target_job_name h));
     serialize := serialize base;
     gzip_decompress := gzip_decompress base;
     vdf_binary_loads := vdf_binary_loads base;
     vdf_loads := vdf_loads base;
     json_loads := json_loads base;
     int_of_str := int_of_str base;
     int_of_float := int_of_float base;
     str_lower := str_lower base |}.


(** A logon response (entry 0) and a logoff (entry 1). *)
Definition session_end_examples : Collaborators :=
  Fixture.collaborators
    [Fixture.P_LogonResponse logon_response_example;
     Fixture.P_LoggedOff logged_off_example].

(** An app document of a game with a name. *)
Definition game_app_example : vdf :=
  VDict [("appinfo",
          VDict [("appid", VInt 730);
                 ("common", VDict [("type", VStr "game");
                                   ("name", VStr "Counter-Strike")])])].

Definition app_examples : Collaborators :=
  Fixture.collaborators [Fixture.P_Vdf game_app_example].

(** An app entry whose buffer, without its last byte, selects entry 0. *)
Definition game_app_entry : CMsgClientPICSProductInfoResponse.AppInfo :=
  {| CMsgClientPICSProductInfoResponse.app_buffer := [x00; x00] |}.

(** An app handler that raises [KeyError] when it is told about a game. *)
Definition game_averse_handler : callee call :=
  fun _ c =>
    match c with
    | call_app_info_handler _ _ (Some true) => Some KeyError
    | _ => None
    end.

Definition client_with_game_averse_handler : ProtobufClient :=
  {| _socket := Fixture.returns;
     log_on_handler := None; log_off_handler := None;
     relationship_handler := None; user_info_handler := None;
     license_import_handler := None;
     app_info_handler := Some game_averse_handler;
     package_info_handler := None; translations_handler := None;
     stats_handler := None; times_handler := None;
     _steam_id := None; _miniprofile_id := None; _heartbeat_task := None;
     _session_id := None; collections_event := false; collections := [];
     tasks := []; trace := [] |}.

(** A product-info response with package 17, whose document (entry 1,
    selected by the buffer after its first four bytes) lists two apps. *)
Definition package_17_entry : CMsgClientPICSProductInfoResponse.PackageInfo :=
  {| CMsgClientPICSProductInfoResponse.packageid := 17;
     CMsgClientPICSProductInfoResponse.buffer := [x00; x00; x00; x00; x01] |}.

Definition package_17_apps : list (string * Z) := [("0", 730); ("1", 440)].

Definition package_17_document : vdf :=
  VDict [("17", VDict [("appids", appids_table package_17_apps)])].

Definition package_17_response : CMsgClientPICSProductInfoResponse.t :=
  {| CMsgClientPICSProductInfoResponse.packages := [package_17_entry];
     CMsgClientPICSProductInfoResponse.apps := [] |}.

Definition package_examples : Collaborators :=
  Fixture.collaborators
    [Fixture.P_PICSProductInfoResponse package_17_response;
     Fixture.P_Vdf package_17_document].

(** A response with an entry for package 0 before package 17. *)
Definition package_0_entry : CMsgClientPICSProductInfoResponse.PackageInfo :=
  {| CMsgClientPICSProductInfoResponse.packageid := 0;
     CMsgClientPICSProductInfoResponse.buffer := [x00; x00; x00; x00; x07] |}.

Definition mixed_package_response : CMsgClientPICSProductInfoResponse.t :=
  {| CMsgClientPICSProductInfoResponse.packages :=
       [package_0_entry; package_17_entry];
     CMsgClientPICSProductInfoResponse.apps := [] |}.

Definition mixed_package_examples : Collaborators :=
  Fixture.collaborators
    [Fixture.P_PICSProductInfoResponse mixed_package_response;
     Fixture.P_Vdf package_17_document].

(** A playtime response (entry 0). *)
Definition played_example : CPlayer_GetFriendsGameplayInfo_Response.t :=
  {| CPlayer_GetFriendsGameplayInfo_Response.your_info_minutes_played_forever
       := 1234 |}.

Definition played_examples : Collaborators :=
  Fixture.collaborators [Fixture.P_GetFriendsGameplayInfo played_example].

(** ** Jobs *)

(** What serving a stats job for game [g] records: the job is logged, the
    stats are requested, then the game time. *)
Definition stats_job_events (ext : Collaborators) (out : Outbound)
    (self : ProtobufClient) (g : Z) (stats_body time_body : bytes)
  : list event :=
  [Log INFO "New job on list {job}";
   Log INFO "Importing game stats for {game_id}";
   Send (request_frame ext self (EMsg_ClientGetUserStats out) None None None
           stats_body);
   Log INFO "Importing game time for {game_id}";
   Send (wire_frame (EMsg_ServiceMethodCallFromClient out)
           (serialize_Header ext (game_time_header self g)) time_body)].

(** A stats job for game 730 and a job nobody serves. *)
Definition stats_job_example : job :=
  {["job_name" := JobStr "import_game_stats"; "game_id" := JobInt 730]}.

Definition unknown_job_example : job :=
  {["job_name" := JobStr "import_friends"]}.

(** ** Calls only *)

(** A computation whose only effect is to call handlers. *)
Definition only_calls {A} (m : M A) : Prop :=
  forall self,
    exists evs, extends self (snd (m self)) evs /\ Forall is_handler_call evs.

(** An entry of a friend list that cannot be converted: an individual
    account with a relationship value outside the enumeration. *)
Definition bad_relationship (ext : Collaborators)
    (r : CMsgClientFriendsList.Friend) : Prop :=
  SteamId_parse_type ext (CMsgClientFriendsList.ulfriendid r)
    = EAccountType_Individual ext
  /\ is_EFriendRelationship ext (CMsgClientFriendsList.efriendrelationship r)
     = false.

(** A friend list whose second entry, an individual account, has the
    relationship value 99. *)
Definition bad_friends_example : CMsgClientFriendsList.t :=
  {| CMsgClientFriendsList.bincremental := false;
     CMsgClientFriendsList.friends :=
       [ {| CMsgClientFriendsList.ulfriendid := 76561197960265729;
            CMsgClientFriendsList.efriendrelationship := 3 |};
         {| CMsgClientFriendsList.ulfriendid := 76561197960265730;
            CMsgClientFriendsList.efriendrelationship := 99 |} ] |}.

(** The own account of the client playing app 730. *)
Definition own_persona_example : CMsgClientPersonaState.Friend :=
  {| CMsgClientPersonaState.friendid := 76561197960265729;
     CMsgClientPersonaState.game_played_app_id := 730;
     CMsgClientPersonaState.player_name := Some "gordon";
     CMsgClientPersonaState.avatar_hash := None;
     CMsgClientPersonaState.persona_state := Some 1;
     CMsgClientPersonaState.gameid := Some 730;
     CMsgClientPersonaState.rich_presence :=
       [ {| CMsgClientPersonaState.key := "status";
            CMsgClientPersonaState.value := "#Status_InGame" |} ];
     CMsgClientPersonaState.game_name := None |}.

Definition logged_on_client : ProtobufClient :=
  set_steam_id (Some 76561197960265729) Fixture.client.

(** ** What [run] keeps

    Between two states of the runner: the job id iterator did not go back,
    the job list only lost jobs, and the client changed by updates of the
    inbound half only. *)
Definition run_keeps (a b : Runner) : Prop :=
  _job_id_iterator a <= _job_id_iterator b
  /\ job_list b `sublist_of` job_list a
  /\ rtc update (client a) (client b).

Definition keeps_running {A} (m : R A) : Prop :=
  forall r, run_keeps r (snd (m r)).

(** * Properties *)

(** ** Loops *)

(** A loop whose body leaves the client alone. *)
Lemma fold_each_ok {A B} (xs : list A) (body : B -> A -> M B)
    (g : B -> A -> B) (self : ProtobufClient) :
  (forall acc x, x ∈ xs -> body acc x self = (Ok (g acc x), self)) ->
  forall acc, fold_each xs acc body self = (Ok (foldl g acc xs), self).
Proof.
  induction xs as [|x xs IH]; intros Hbody acc; simpl; [reflexivity|].
  unfold bind. rewrite Hbody by constructor.
  apply IH. intros acc' y Hy. apply Hbody. by constructor.
Qed.

Lemma fold_each_app {A B} (xs ys : list A) (acc : B) (body : B -> A -> M B)
    (self : ProtobufClient) :
  fold_each (xs ++ ys) acc body self
  = bind (fold_each xs acc body) (fun acc' => fold_each ys acc' body) self.
Proof.
  revert acc self. induction xs as [|x xs IH]; intros acc self; simpl.
  - reflexivity.
  - unfold bind in *. destruct (body acc x self) as [[acc'|e] self'].
    + by rewrite IH.
    + reflexivity.
Qed.

Lemma fold_each_map {A A' B} (f : A -> A') (xs : list A) (acc : B)
    (body : B -> A' -> M B) (self : ProtobufClient) :
  fold_each (map f xs) acc body self
  = fold_each xs acc (fun acc x => body acc (f x)) self.
Proof.
  revert acc self. induction xs as [|x xs IH]; intros acc self; simpl.
  - reflexivity.
  - unfold bind. destruct (body acc (f x) self) as [[acc'|e] self']; auto.
Qed.

(** A nested loop is a loop over the concatenation. *)
Lemma fold_each_concat {A A' B} (inner : A -> list A') (xs : list A)
    (acc : B) (body : B -> A' -> M B) (self : ProtobufClient) :
  fold_each xs acc (fun acc x => fold_each (inner x) acc body) self
  = fold_each (concat (map inner xs)) acc body self.
Proof.
  revert acc self. induction xs as [|x xs IH]; intros acc self; simpl.
  - reflexivity.
  - rewrite fold_each_app. unfold bind.
    destruct (fold_each (inner x) acc body self) as [[acc'|e] self']; auto.
Qed.

(** ** The trace *)

Lemma trace_set_trace (t : list event) (self : ProtobufClient) :
  trace (set_trace t self) = t.
Proof. by destruct self. Qed.

Lemma set_trace_set_trace (t t' : list event) (self : ProtobufClient) :
  set_trace t' (set_trace t self) = set_trace t' self.
Proof. by destruct self. Qed.

Lemma set_trace_trace (self : ProtobufClient) :
  set_trace (trace self) self = self.
Proof. by destruct self. Qed.

Lemma stats_handler_set_trace (t : list event) (self : ProtobufClient) :
  stats_handler (set_trace t self) = stats_handler self.
Proof. by destruct self. Qed.

Lemma log_run (level : loglevel) (template : string) (self : ProtobufClient) :
  log level template self
  = (Ok tt, set_trace (trace self ++ [Log level template]) self).
Proof. reflexivity. Qed.

Lemma await_run {A} (f : callee A) (ev : event) (args : A)
    (self : ProtobufClient) :
  await f ev args self
  = (outcome_of (f (trace self) args), set_trace (trace self ++ [ev]) self).
Proof.
  unfold await, bind, get, emit, modify. simpl.
  by destruct (f (trace self) args).
Qed.

Lemma await_handler_set (f : callee call) (c : call) (self : ProtobufClient) :
  await_handler (Some f) c self = delivered f c self.
Proof. apply await_run. Qed.

(** ** Steps that only add to the trace *)

Lemma extends_nil (self : ProtobufClient) : extends self self [].
Proof. unfold extends. by rewrite app_nil_r, set_trace_trace. Qed.

Lemma extends_app (a b c : ProtobufClient) (evs evs' : list event) :
  extends a b evs -> extends b c evs' -> extends a c (evs ++ evs').
Proof.
  unfold extends. intros -> ->.
  by rewrite trace_set_trace, set_trace_set_trace, app_assoc.
Qed.

Lemma extends_trace (a b : ProtobufClient) (evs : list event) :
  extends a b evs -> trace b = trace a ++ evs.
Proof. intros ->. apply trace_set_trace. Qed.

Lemma extends_handlers (a b : ProtobufClient) (evs : list event) :
  extends a b evs ->
  translations_handler b = translations_handler a
  /\ user_info_handler b = user_info_handler a
  /\ _steam_id b = _steam_id a
  /\ _session_id b = _session_id a
  /\ _socket b = _socket a.
Proof. intros ->. by destruct a. Qed.

Lemma await_extends {A} (f : callee A) (ev : event) (args : A)
    (self : ProtobufClient) :
  extends self (snd (await f ev args self)) [ev].
Proof. by rewrite await_run. Qed.

Lemma fold_each_same_state {A B} (xs : list A) (body : B -> A -> M B)
    (self : ProtobufClient) :
  (forall acc x, snd (body acc x self) = self) ->
  forall acc, snd (fold_each xs acc body self) = self.
Proof.
  intros Hbody. induction xs as [|x xs IH]; intros acc; simpl; [done|].
  unfold bind. specialize (Hbody acc x).
  destruct (body acc x self) as [[acc'|e] self']; simpl in Hbody; subst self'.
  - apply IH.
  - reflexivity.
Qed.

Lemma _send_extends (ext : Collaborators) (emsg : Z) (message : out_message)
    (source target : option Z) (name : option string)
    (self : ProtobufClient) :
  exists evs,
    extends self (snd (_send ext emsg message source target name self)) evs
    /\ Forall (fun ev => ~ is_handler_call ev) evs.
Proof.
  unfold _send, bind, get, lift.
  destruct (assign_if_set (check_uint 64) (_steam_id self));
    [|exists []; split; [apply extends_nil|constructor]].
  destruct (assign_if_set check_int32 (_session_id self));
    [|exists []; split; [apply extends_nil|constructor]].
  destruct (assign_if_set (check_uint 64) source);
    [|exists []; split; [apply extends_nil|constructor]].
  destruct (assign_if_set (check_uint 64) target);
    [|exists []; split; [apply extends_nil|constructor]].
  destruct (struct_pack_2I _ _);
    [|exists []; split; [apply extends_nil|constructor]].
  eexists. split; [apply await_extends|].
  constructor; [|constructor]. intros [].
Qed.

Lemma get_apps_info_extends (ext : Collaborators) (app_ids : list vdf)
    (self : ProtobufClient) :
  exists evs,
    extends self (snd (get_apps_info ext app_ids self)) evs
    /\ Forall (fun ev => ~ is_handler_call ev) evs.
Proof.
  unfold get_apps_info, bind. rewrite log_run.
  set (self1 := set_trace _ self).
  set (loop := fold_each _ _ _).
  assert (snd (loop self1) = self1) as Hloop.
  { apply fold_each_same_state. intros acc x. unfold bind, lift, ret.
    by destruct (assign_uint32 x). }
  destruct (loop self1) as [[apps|e] self2]; simpl in Hloop; subst self2.
  - destruct (_send_extends ext (EMsg_PICSProductInfoRequest ext)
                (CMsgClientPICSProductInfoRequest [] apps) None None None
                self1) as (evs & Hext & Hevs).
    eexists. split.
    + eapply extends_app; [|exact Hext]. reflexivity.
    + constructor; [intros []|exact Hevs].
  - eexists. split; [reflexivity|]. constructor; [intros []|constructor].
Qed.

(** ** Bytes and slices *)

Lemma byte_val_range (b : byte) : 0 <= byte_val b < 256.
Proof.
  unfold byte_val. pose proof (Byte.to_N_bounded b). lia.
Qed.

Lemma struct_unpack_I_range (b : bytes) (n : Z) :
  struct_unpack_I b = Ok n -> 0 <= n < 2 ^ 32.
Proof.
  destruct b as [|b0 [|b1 [|b2 [|b3 [|]]]]]; try discriminate.
  intros [= <-].
  pose proof (byte_val_range b0). pose proof (byte_val_range b1).
  pose proof (byte_val_range b2). pose proof (byte_val_range b3). lia.
Qed.

Lemma struct_unpack_I_length (b : bytes) (n : Z) :
  struct_unpack_I b = Ok n -> length b = 4%nat.
Proof.
  destruct b as [|b0 [|b1 [|b2 [|b3 [|]]]]]; try discriminate. reflexivity.
Qed.

Lemma byte_val_of_Z (z : Z) : byte_val (byte_of_Z z) = z mod 256.
Proof.
  unfold byte_val, byte_of_Z.
  pose proof (Z.mod_pos_bound z 256 ltac:(lia)) as Hr.
  destruct (Byte.of_N (Z.to_N (z mod 256))) as [b|] eqn:Hb.
  - apply Byte.to_of_N in Hb. rewrite Hb. lia.
  - apply Byte.of_N_None_iff in Hb. lia.
Qed.

Lemma struct_unpack_I_le32 (n : Z) :
  0 <= n < 2 ^ 32 -> struct_unpack_I (le32 n) = Ok n.
Proof.
  intros Hn. unfold le32, struct_unpack_I. rewrite !byte_val_of_Z. f_equal.
  pose proof (Z.div_mod n 256 ltac:(lia)).
  pose proof (Z.div_mod (n / 256) 256 ltac:(lia)).
  pose proof (Z.div_mod (n / 256 / 256) 256 ltac:(lia)).
  replace (n / 65536) with (n / 256 / 256)
    by (rewrite Z.div_div by lia; reflexivity).
  replace (n / 16777216) with (n / 256 / 256 / 256)
    by (rewrite !Z.div_div by lia; reflexivity).
  assert (n / 256 / 256 / 256 < 256).
  { rewrite !Z.div_div by lia. apply Z.div_lt_upper_bound; lia. }
  assert (0 <= n / 256 / 256 / 256).
  { rewrite !Z.div_div by lia. apply Z.div_pos; lia. }
  rewrite (Z.mod_small (n / 256 / 256 / 256) 256) by lia. lia.
Qed.

Lemma len_app {A} (a b : list A) : len (a ++ b) = len a + len b.
Proof. unfold len. rewrite length_app. lia. Qed.

Lemma len_nonneg {A} (a : list A) : 0 <= len a.
Proof. unfold len. lia. Qed.

Lemma len_le32 (n : Z) : len (le32 n) = 4.
Proof. reflexivity. Qed.

(** A slice that starts past a prefix is a slice of the rest. *)
Lemma slice_app_shift {A} (pre data : list A) (i j : Z) :
  0 <= i ->
  slice (pre ++ data) (len pre + i) (len pre + j) = slice data i j.
Proof.
  intros Hi. unfold slice. rewrite len_app.
  pose proof (len_nonneg pre). pose proof (len_nonneg data).
  replace (Z.min (len pre + i) (len pre + len data))
    with (len pre + Z.min i (len data)) by lia.
  replace (Z.min (len pre + j) (len pre + len data))
    with (len pre + Z.min j (len data)) by lia.
  replace (len pre + Z.min j (len data) - (len pre + Z.min i (len data)))
    with (Z.min j (len data) - Z.min i (len data)) by lia.
  f_equal.
  replace (Z.to_nat (len pre + Z.min i (len data)))
    with (length pre + Z.to_nat (Z.min i (len data)))%nat
    by (unfold len in *; lia).
  by rewrite drop_app_add.
Qed.

Lemma slice_prefix {A} (a b : list A) : slice (a ++ b) 0 (len a) = a.
Proof.
  unfold slice. rewrite len_app.
  pose proof (len_nonneg a). pose proof (len_nonneg b).
  replace (Z.min 0 (len a + len b)) with 0 by lia.
  replace (Z.min (len a) (len a + len b)) with (len a) by lia.
  rewrite Z.sub_0_r. change (Z.to_nat 0) with 0%nat. rewrite drop_0.
  unfold len. rewrite Nat2Z.id. by rewrite take_app_length.
Qed.

Lemma slice_all_from {A} (data : list A) (i j : Z) :
  0 <= i -> len data <= j -> slice data i j = slice_from data i.
Proof.
  intros Hi Hj. unfold slice, slice_from.
  pose proof (len_nonneg data).
  replace (Z.min j (len data)) with (len data) by lia.
  apply take_ge. rewrite length_drop. unfold len in *. lia.
Qed.

(** ** Containers *)

(** The turns given to the loop of [_process_multi] never run out. *)
Lemma multi_loop_fuel (process_packet : bytes -> M unit) (data : bytes)
    (turns turns' : nat) :
  forall (offset : Z) (self : ProtobufClient),
  0 <= offset ->
  len data - offset <= Z.of_nat turns ->
  len data - offset <= Z.of_nat turns' ->
  multi_loop process_packet turns data offset self
  = multi_loop process_packet turns' data offset self.
Proof.
  revert turns'. induction turns as [|turns IH];
    intros [|turns'] offset self Hoff H1 H2; simpl.
  - reflexivity.
  - destruct (Z.leb_spec (offset + 4) (len data)); [lia|reflexivity].
  - destruct (Z.leb_spec (offset + 4) (len data)); [lia|reflexivity].
  - destruct (Z.leb_spec (offset + 4) (len data)); [|reflexivity].
    unfold bind, lift.
    destruct (struct_unpack_I (slice data offset (offset + 4)))
      as [size|e] eqn:Hsize; [|reflexivity].
    apply struct_unpack_I_range in Hsize.
    destruct (process_packet _ self) as [[[]|e] self']; [|reflexivity].
    apply IH; lia.
Qed.

(** The loop is the source's [while]: one turn, then the loop again. *)
Lemma multi_loop_unfold (process_packet : bytes -> M unit) (data : bytes)
    (offset : Z) (self : ProtobufClient) :
  0 <= offset ->
  multi_loop process_packet (length data) data offset self
  = (if offset + 4 <=? len data then
       size ← lift (struct_unpack_I (slice data offset (offset + 4)));
       process_packet (slice data (offset + 4) (offset + 4 + size));;
       multi_loop process_packet (length data) data (offset + 4 + size)
     else ret tt) self.
Proof.
  intros Hoff.
  rewrite (multi_loop_fuel _ _ (length data) (S (length data)))
    by (unfold len; lia).
  simpl. destruct (Z.leb_spec (offset + 4) (len data)); [|reflexivity].
  unfold bind, lift.
  destruct (struct_unpack_I (slice data offset (offset + 4)))
    as [size|e] eqn:Hsize; [|reflexivity].
  apply struct_unpack_I_range in Hsize.
  destruct (process_packet _ self) as [[[]|e] self']; reflexivity.
Qed.

Lemma multi_loop_shift (process_packet : bytes -> M unit)
    (pre data : bytes) (turns : nat) :
  forall (offset : Z) (self : ProtobufClient),
  0 <= offset ->
  multi_loop process_packet turns (pre ++ data) (len pre + offset) self
  = multi_loop process_packet turns data offset self.
Proof.
  induction turns as [|turns IH]; intros offset self Hoff; simpl;
    [reflexivity|].
  rewrite len_app.
  replace (len pre + offset + 4 <=? len pre + len data)
    with (offset + 4 <=? len data) by lia.
  destruct (offset + 4 <=? len data); [|reflexivity].
  unfold bind, lift.
  replace (len pre + offset + 4) with (len pre + (offset + 4)) by lia.
  rewrite slice_app_shift by lia.
  destruct (struct_unpack_I (slice data offset (offset + 4)))
    as [size|e] eqn:Hsize; [|reflexivity].
  apply struct_unpack_I_range in Hsize.
  replace (len pre + (offset + 4) + size)
    with (len pre + (offset + 4 + size)) by lia.
  rewrite slice_app_shift by lia.
  destruct (process_packet _ self) as [[[]|e] self']; [|reflexivity].
  apply IH. lia.
Qed.

Lemma len_record_of (packet : bytes) : len (record_of packet) = 4 + len packet.
Proof. unfold record_of. by rewrite len_app, len_le32. Qed.

(** A complete record at the head of the payload is unpacked and handed
    to packet processing; the loop goes on with the rest. *)
Lemma multi_loop_record (process_packet : bytes -> M unit)
    (packet rest : bytes) (self : ProtobufClient) :
  len packet < 2 ^ 32 ->
  multi_loop process_packet (length (record_of packet ++ rest))
    (record_of packet ++ rest) 0 self
  = (process_packet packet;;
     multi_loop process_packet (length rest) rest 0) self.
Proof.
  intros Hlen. pose proof (len_nonneg packet). pose proof (len_nonneg rest).
  rewrite multi_loop_unfold by lia.
  rewrite len_app, len_record_of.
  destruct (Z.leb_spec (0 + 4) (4 + len packet + len rest)); [|lia].
  unfold bind, lift.
  assert (slice (record_of packet ++ rest) 0 (0 + 4) = le32 (len packet))
    as ->.
  { unfold record_of. rewrite <- app_assoc.
    apply (slice_prefix (le32 (len packet))). }
  rewrite struct_unpack_I_le32 by lia.
  assert (slice (record_of packet ++ rest) (0 + 4) (0 + 4 + len packet)
          = packet) as ->.
  { unfold record_of. rewrite <- app_assoc.
    change (0 + 4) with (len (le32 (len packet)) + 0).
    rewrite <- Z.add_assoc, slice_app_shift by lia.
    apply slice_prefix. }
  destruct (process_packet packet self) as [[[]|e] self']; [|reflexivity].
  replace (0 + 4 + len packet) with (len (record_of packet) + 0)
    by (rewrite len_record_of; lia).
  rewrite multi_loop_shift by lia.
  apply multi_loop_fuel; unfold len in *; rewrite ?length_app; lia.
Qed.

Lemma multi_loop_records (process_packet : bytes -> M unit)
    (packets : list bytes) (tail : bytes) (self : ProtobufClient) :
  Forall (fun packet => len packet < 2 ^ 32) packets ->
  multi_loop process_packet (length (records packets ++ tail))
    (records packets ++ tail) 0 self
  = (for_each packets process_packet;;
     multi_loop process_packet (length tail) tail 0) self.
Proof.
  intros Hlen. revert self.
  induction Hlen as [|packet packets Hpacket _ IH]; intros self.
  - reflexivity.
  - unfold records. cbn [map concat]. fold (records packets).
    rewrite <- app_assoc, multi_loop_record by done.
    cbn [for_each]. unfold bind at 1 2 3.
    destruct (process_packet packet self) as [[[]|e] self']; [|reflexivity].
    apply IH.
Qed.

(** Fewer than four bytes left: the loop stops, whatever they are. *)
Lemma multi_loop_short_tail (process_packet : bytes -> M unit)
    (tail : bytes) (self : ProtobufClient) :
  len tail < 4 ->
  multi_loop process_packet (length tail) tail 0 self = (Ok tt, self).
Proof.
  intros Hlen. rewrite multi_loop_unfold by lia.
  by destruct (Z.leb_spec (0 + 4) (len tail)); [lia|].
Qed.

(** A last record that declares more bytes than are left: the bytes that
    are there are processed as the packet, and the loop stops. *)
Lemma multi_loop_truncated_tail (process_packet : bytes -> M unit)
    (tail : bytes) (size : Z) (self : ProtobufClient) :
  4 <= len tail ->
  struct_unpack_I (take 4 tail) = Ok size ->
  len tail < 4 + size ->
  multi_loop process_packet (length tail) tail 0 self
  = process_packet (drop 4 tail) self.
Proof.
  intros Hlen Hsize Hshort. rewrite multi_loop_unfold by lia.
  destruct (Z.leb_spec (0 + 4) (len tail)); [|lia].
  unfold bind, lift.
  assert (slice tail 0 (0 + 4) = take 4 tail) as ->.
  { unfold slice. replace (Z.min 0 (len tail)) with 0 by lia.
    replace (Z.min (0 + 4) (len tail)) with 4 by lia. reflexivity. }
  rewrite Hsize.
  assert (slice tail (0 + 4) (0 + 4 + size) = drop 4 tail) as ->.
  { rewrite slice_all_from by lia. unfold slice_from.
    replace (Z.min (0 + 4) (len tail)) with 4 by lia. reflexivity. }
  destruct (process_packet (drop 4 tail) self) as [[[]|e] self'];
    [|reflexivity].
  rewrite multi_loop_unfold by lia.
  by destruct (Z.leb_spec (0 + 4 + size + 4) (len tail)); [lia|].
Qed.

(** C3 (amended). Unpacking a container whose payload is a run of
    complete records followed by fewer than four bytes (too few for a
    length prefix) is exactly the processing of the complete records, in
    order: the remaining bytes are ignored and nothing reports them. The
    only errors are those of packet processing. *)
Theorem multi_dangling_bytes_ignored (ext : Collaborators)
    (process_packet : bytes -> M unit) (body : bytes) (message : CMsgMulti.t)
    (packets : list bytes) (tail : bytes) (self : ProtobufClient) :
  parse_Multi ext body = Ok message ->
  multi_data ext message = Ok (records packets ++ tail) ->
  Forall (fun packet => len packet < 2 ^ 32) packets ->
  len tail < 4 ->
  _process_multi ext process_packet body self
  = for_each packets process_packet self.
Proof.
  intros Hparse Hdata Hlen Hshort.
  unfold _process_multi, bind at 1 2, lift. rewrite Hparse, Hdata.
  rewrite multi_loop_records by done. unfold bind.
  destruct (for_each packets process_packet self) as [[[]|e] self'];
    [|reflexivity].
  by apply multi_loop_short_tail.
Qed.

Lemma multi_dangling_bytes_ignored_witness :
  _process_multi multi_examples (_process_packet multi_examples 2) [x00]
    Fixture.client
  = for_each [logon_response_packet] (_process_packet multi_examples 2)
      Fixture.client.
Proof.
  refine (multi_dangling_bytes_ignored multi_examples
            (_process_packet multi_examples 2) [x00]
            dangling_multi_example [logon_response_packet] [x2a; x2a]
            Fixture.client eq_refl eq_refl _ _).
  - repeat constructor.
  - reflexivity.
Defined.

(** C3 (as stated) fails: a container whose payload ends in two stray
    bytes after one complete record is unpacked without any error or
    report; the complete record reaches the logon handler and the stray
    bytes are dropped. *)
Lemma dangling_bytes_are_silently_ignored :
  CMsgMulti.message_body dangling_multi_example
    = record_of logon_response_packet ++ [x2a; x2a]
  /\ (let after :=
        _process_packet multi_examples 3 (Fixture.frame 1 [] [x00])
          Fixture.client in
      fst after = Ok tt /\ trace (snd after) = [Call (call_log_on_handler 1)]).
Proof. repeat split; reflexivity. Qed.

(** A last record that declares more bytes than remain is not reported
    either: the bytes that are there are processed as the packet. *)
Lemma multi_truncated_record_is_processed (ext : Collaborators)
    (process_packet : bytes -> M unit) (body : bytes) (message : CMsgMulti.t)
    (packets : list bytes) (tail : bytes) (size : Z) (self : ProtobufClient) :
  parse_Multi ext body = Ok message ->
  multi_data ext message = Ok (records packets ++ tail) ->
  Forall (fun packet => len packet < 2 ^ 32) packets ->
  4 <= len tail ->
  struct_unpack_I (take 4 tail) = Ok size ->
  len tail < 4 + size ->
  _process_multi ext process_packet body self
  = (for_each packets process_packet;; process_packet (drop 4 tail)) self.
Proof.
  intros Hparse Hdata Hlen H4 Hsize Hshort.
  unfold _process_multi, bind at 1 2, lift. rewrite Hparse, Hdata.
  rewrite multi_loop_records by done. unfold bind.
  destruct (for_each packets process_packet self) as [[[]|e] self'];
    [|reflexivity].
  by apply multi_loop_truncated_tail with size.
Qed.

Example truncated_record_reaches_the_handler :
  let after :=
    _process_packet multi_examples 3 (Fixture.frame 1 [] [x02])
      Fixture.client in
  fst after = Ok tt /\ trace (snd after) = [Call (call_log_on_handler 1)].
Proof. split; reflexivity. Qed.

(** ** Short packets *)

(** A packet of fewer than eight bytes is warned about but not dropped:
    the type word is unpacked all the same. Either an unpack raises
    [struct.error], or the type word has no protobuf flag and the packet
    is ignored for that reason. No handler is called either way. *)
Lemma short_packet_outcome (ext : Collaborators) (depth : nat)
    (packet : bytes) (self : ProtobufClient) :
  len packet < 8 ->
  _process_packet ext (S depth) packet self
  = (Raise struct_error, set_trace (trace self ++ [too_small_warning]) self)
  \/ _process_packet ext (S depth) packet self
     = (Ok tt,
        set_trace
          (trace self ++ [too_small_warning; extended_header_warning]) self).
Proof.
  intros Hlen. cbn [_process_packet]. unfold process_packet_body, bind.
  destruct (Z.ltb_spec (len packet) 8); [|lia]. cbv beta iota.
  rewrite log_run. fold too_small_warning.
  destruct packet as [|b0 [|b1 [|b2 [|b3 rest]]]]; try (by left).
  assert (slice (b0 :: b1 :: b2 :: b3 :: rest) 0 4 = [b0; b1; b2; b3]) as ->.
  { apply (slice_prefix [b0; b1; b2; b3]). }
  unfold lift. cbn [struct_unpack_I]. cbv beta iota.
  destruct (negb (Z.land _ _PROTO_MASK =? 0)).
  - left.
    assert (struct_unpack_I (slice (b0 :: b1 :: b2 :: b3 :: rest) 4 8)
            = Raise struct_error) as ->; [|done].
    change (b0 :: b1 :: b2 :: b3 :: rest) with ([b0; b1; b2; b3] ++ rest).
    change 4 with (len [b0; b1; b2; b3] + 0) at 1.
    change 8 with (len [b0; b1; b2; b3] + 4).
    rewrite slice_app_shift by lia.
    destruct rest as [|b4 [|b5 [|b6 [|b7 rest]]]]; try reflexivity.
    unfold len in Hlen. simpl in Hlen. lia.
  - right. rewrite log_run, trace_set_trace, set_trace_set_trace.
    by rewrite <- app_assoc.
Qed.

Lemma very_short_packet_raises (ext : Collaborators) (depth : nat)
    (packet : bytes) (self : ProtobufClient) :
  len packet < 4 ->
  _process_packet ext (S depth) packet self
  = (Raise struct_error, set_trace (trace self ++ [too_small_warning]) self).
Proof.
  intros Hlen. cbn [_process_packet]. unfold process_packet_body, bind.
  destruct (Z.ltb_spec (len packet) 8); [|lia]. cbv beta iota.
  rewrite log_run. fold too_small_warning.
  destruct packet as [|b0 [|b1 [|b2 [|b3 rest]]]]; try reflexivity.
  unfold len in Hlen. simpl in Hlen. lia.
Qed.

(** C2. What the code does with a three-byte packet: after the warning it
    unpacks the type word anyway and raises [struct.error]; the receive
    loop ends there, and the logon response that follows is never
    processed (alone, it reaches the logon handler). *)
Theorem short_packet_is_not_dropped :
  _process_packet multi_examples 3 [x01; x02; x03] Fixture.client
  = (Raise struct_error, set_trace [too_small_warning] Fixture.client)
  /\ process_packets multi_examples 3
       [[x01; x02; x03]; logon_response_packet] Fixture.client
     = (Raise struct_error, set_trace [too_small_warning] Fixture.client)
  /\ trace (snd (process_packets multi_examples 3 [logon_response_packet]
                   Fixture.client))
     = [Call (call_log_on_handler 1)].
Proof. repeat split; reflexivity. Qed.

(** ** The session id *)

Lemma frames_ret {A} (a : A) : frames_session_id (ret a).
Proof. by intros self. Qed.

Lemma frames_raise {A} (e : exn) : frames_session_id (raise (A := A) e).
Proof. by intros self. Qed.

Lemma frames_lift {A} (r : result A) : frames_session_id (lift r).
Proof. by intros self. Qed.

Lemma frames_get : frames_session_id get.
Proof. by intros self. Qed.

Lemma frames_bind {A B} (m : M A) (k : A -> M B) :
  frames_session_id m -> (forall a, frames_session_id (k a)) ->
  frames_session_id (bind m k).
Proof.
  intros Hm Hk self. unfold bind. specialize (Hm self).
  destruct (m self) as [[a|e] self']; simpl in *; [|done].
  by rewrite Hk.
Qed.

Lemma frames_try_except {A} (body : M A) (catches : exn -> bool)
    (handler : exn -> M A) :
  frames_session_id body -> (forall e, frames_session_id (handler e)) ->
  frames_session_id (try_except body catches handler).
Proof.
  intros Hb Hh self. unfold try_except. specialize (Hb self).
  destruct (body self) as [[a|e] self']; simpl in *; [done|].
  destruct (catches e); [|done]. by rewrite Hh.
Qed.

Lemma frames_for_each {A} (xs : list A) (body : A -> M unit) :
  (forall x, frames_session_id (body x)) ->
  frames_session_id (for_each xs body).
Proof.
  intros Hbody. induction xs as [|x xs IH]; simpl.
  - apply frames_ret.
  - apply frames_bind; [apply Hbody|]. by intros _.
Qed.

Lemma frames_fold_each {A B} (xs : list A) (body : B -> A -> M B) :
  (forall acc x, frames_session_id (body acc x)) ->
  forall acc, frames_session_id (fold_each xs acc body).
Proof.
  intros Hbody. induction xs as [|x xs IH]; intros acc; simpl.
  - apply frames_ret.
  - apply frames_bind; [apply Hbody|]. apply IH.
Qed.

Lemma frames_modify (f : ProtobufClient -> ProtobufClient) :
  (forall self, _session_id (f self) = _session_id self) ->
  frames_session_id (modify f).
Proof. intros Hf self. apply Hf. Qed.

Lemma frames_log (level : loglevel) (template : string) :
  frames_session_id (log level template).
Proof. apply frames_modify. by intros []. Qed.

Lemma frames_await {A} (f : callee A) (ev : event) (args : A) :
  frames_session_id (await f ev args).
Proof. intros self. rewrite await_run. by destruct self. Qed.

Lemma frames_await_handler (h : option (callee call)) (c : call) :
  frames_session_id (await_handler h c).
Proof. destruct h; [apply frames_await|apply frames_raise]. Qed.

Lemma frames_await_if_set (h : option (callee call)) (c : call) :
  frames_session_id (await_if_set h c).
Proof. destruct h; [apply frames_await|apply frames_ret]. Qed.

Lemma frames_cancel (t : nat) : frames_session_id (cancel t).
Proof. apply frames_modify. by intros []. Qed.

Lemma frames_create_heartbeat_task (seconds : Z) :
  frames_session_id (create_heartbeat_task seconds).
Proof. apply frames_modify. by intros []. Qed.

Lemma frames_set_collections_event (b : bool) :
  frames_session_id (modify (set_collections_event b)).
Proof. apply frames_modify. by intros []. Qed.

#[local] Hint Resolve frames_ret frames_raise frames_lift frames_get
  frames_log frames_await frames_await_handler frames_await_if_set
  frames_cancel frames_create_heartbeat_task frames_set_collections_event
  : frames.

Ltac frames :=
  repeat first
    [ frames_step
    | apply frames_bind; [|intros ?]
    | apply frames_try_except; [|intros ?]
    | apply frames_for_each; intros ?
    | apply frames_fold_each; intros ? ? ].

Lemma frames__send (ext : Collaborators) (emsg : Z) (message : out_message)
    (source target : option Z) (name : option string) :
  frames_session_id (_send ext emsg message source target name).
Proof. unfold _send. frames. Qed.

#[local] Hint Resolve frames__send : frames.

Lemma frames_get_apps_info (ext : Collaborators) (app_ids : list vdf) :
  frames_session_id (get_apps_info ext app_ids).
Proof. unfold get_apps_info. frames. Qed.

#[local] Hint Resolve frames_get_apps_info : frames.

Lemma frames_log_on_response (ext : Collaborators) (body : bytes) :
  frames_session_id (_process_client_log_on_response ext body).
Proof. unfold _process_client_log_on_response. frames. Qed.

Lemma frames_log_off (ext : Collaborators) (body : bytes) :
  frames_session_id (_process_client_log_off ext body).
Proof. unfold _process_client_log_off. frames. Qed.

Lemma frames_friend_list (ext : Collaborators) (body : bytes) :
  frames_session_id (_process_client_friend_list ext body).
Proof. unfold _process_client_friend_list, friend_list_entry. frames. Qed.

Lemma frames_persona_state (ext : Collaborators) (body : bytes) :
  frames_session_id (_process_client_persona_state ext body).
Proof.
  unfold _process_client_persona_state, persona_state_user,
    rich_presence_element.
  frames.
Qed.

Lemma frames_license_list (ext : Collaborators) (body : bytes) :
  frames_session_id (_process_license_list ext body).
Proof. unfold _process_license_list, license_list_entry. frames. Qed.

Lemma frames_package_info_response (ext : Collaborators) (body : bytes) :
  frames_session_id (_process_package_info_response ext body).
Proof.
  unfold _process_package_info_response, package_info_entry, app_info_entry.
  frames.
Qed.

Lemma frames_user_stats_response (ext : Collaborators) (body : bytes) :
  frames_session_id (_process_user_stats_response ext body).
Proof.
  unfold _process_user_stats_response, user_stats_block, user_stats_slot.
  frames.
Qed.

Lemma frames_service_method_response (ext : Collaborators)
    (target_job_name : string) (target_job_id : Z) (body : bytes) :
  frames_session_id
    (_process_service_method_response ext target_job_name target_job_id body).
Proof.
  unfold _process_service_method_response,
    _process_rich_presence_translations, _process_user_time_response,
    _process_collections_response.
  frames. apply frames_modify. by intros [].
Qed.

Lemma frames_keeps {A} (I : option Z -> Prop) (m : M A) :
  frames_session_id m -> keeps_session_id I m.
Proof. intros Hm self HI. by rewrite Hm. Qed.

Lemma keeps_bind {A B} (I : option Z -> Prop) (m : M A) (k : A -> M B) :
  keeps_session_id I m -> (forall a, keeps_session_id I (k a)) ->
  keeps_session_id I (bind m k).
Proof.
  intros Hm Hk self HI. unfold bind. specialize (Hm self HI).
  destruct (m self) as [[a|e] self']; simpl in *; [|done].
  by apply Hk.
Qed.

Lemma keeps_for_each {A} (I : option Z -> Prop) (xs : list A)
    (body : A -> M unit) :
  (forall x, keeps_session_id I (body x)) ->
  keeps_session_id I (for_each xs body).
Proof.
  intros Hbody. induction xs as [|x xs IH]; simpl.
  - by intros self.
  - apply keeps_bind; [apply Hbody|]. by intros _.
Qed.

(** [note_session_id] is the one place that writes the session id: it
    adopts a nonzero id when none is known, and does nothing otherwise. *)
Lemma note_session_id_run (header : CMsgProtoBufHeader.t)
    (self : ProtobufClient) :
  _session_id (snd (note_session_id header self))
  = match _session_id self with
    | Some v => Some v
    | None =>
        if header_client_sessionid header =? 0 then None
        else Some (header_client_sessionid header)
    end.
Proof.
  unfold note_session_id, bind, get.
  destruct (_session_id self) as [v|] eqn:Hv; simpl.
  - by rewrite Hv.
  - destruct (header_client_sessionid header =? 0); simpl.
    + by rewrite Hv.
    + by destruct self.
Qed.

Lemma keeps_note_session_id (I : option Z -> Prop)
    (header : CMsgProtoBufHeader.t) :
  adoption_stable I -> keeps_session_id I (note_session_id header).
Proof.
  intros HI self Hself. rewrite note_session_id_run.
  destruct (_session_id self) as [v|]; [done|].
  destruct (Z.eqb_spec (header_client_sessionid header) 0); [done|].
  by apply HI.
Qed.

Lemma keeps_multi_loop (I : option Z -> Prop)
    (process_packet : bytes -> M unit) (data : bytes) (turns : nat) :
  (forall packet, keeps_session_id I (process_packet packet)) ->
  forall offset, keeps_session_id I (multi_loop process_packet turns data offset).
Proof.
  intros Hpp. induction turns as [|turns IH]; intros offset; simpl.
  - by intros self.
  - destruct (offset + 4 <=? len data); [|by intros self].
    apply keeps_bind; [apply frames_keeps, frames_lift|]. intros size.
    apply keeps_bind; [apply Hpp|]. intros _. apply IH.
Qed.

Lemma keeps_process_message (ext : Collaborators) (I : option Z -> Prop)
    (process_packet : bytes -> M unit) (emsg : Z)
    (header : CMsgProtoBufHeader.t) (body : bytes) :
  (forall packet, keeps_session_id I (process_packet packet)) ->
  keeps_session_id I (_process_message ext process_packet emsg header body).
Proof.
  intros Hpp. unfold _process_message.
  destruct (emsg =? EMsg_Multi ext).
  { unfold _process_multi.
    apply keeps_bind; [apply frames_keeps, frames_lift|]. intros message.
    apply keeps_bind; [apply frames_keeps, frames_lift|]. intros data.
    by apply keeps_multi_loop. }
  apply frames_keeps.
  repeat match goal with
         | |- frames_session_id (if ?c then _ else _) => destruct c
         end;
    auto using frames_log_on_response, frames_log_off, frames_friend_list,
      frames_persona_state, frames_license_list, frames_package_info_response,
      frames_user_stats_response, frames_service_method_response, frames_log.
Qed.

Lemma keeps_process_packet_body (ext : Collaborators) (I : option Z -> Prop)
    (process_packet : bytes -> M unit) (packet : bytes) :
  adoption_stable I ->
  (forall packet, keeps_session_id I (process_packet packet)) ->
  keeps_session_id I (process_packet_body ext process_packet packet).
Proof.
  intros HI Hpp. unfold process_packet_body.
  apply keeps_bind.
  { apply frames_keeps. destruct (len packet <? 8); auto with frames. }
  intros _. apply keeps_bind; [apply frames_keeps, frames_lift|]. intros raw.
  destruct (negb _); [|apply frames_keeps, frames_log].
  apply keeps_bind; [apply frames_keeps, frames_lift|]. intros header_len.
  apply keeps_bind; [apply frames_keeps, frames_lift|]. intros header.
  apply keeps_bind; [by apply keeps_note_session_id|]. intros _.
  by apply keeps_process_message.
Qed.

Lemma keeps_process_packet (ext : Collaborators) (I : option Z -> Prop)
    (depth : nat) :
  adoption_stable I ->
  forall packet, keeps_session_id I (_process_packet ext depth packet).
Proof.
  intros HI. induction depth as [|depth IH]; intros packet; simpl.
  - by intros self.
  - by apply keeps_process_packet_body.
Qed.

Lemma keeps_process_packets (ext : Collaborators) (I : option Z -> Prop)
    (depth : nat) (packets : list bytes) :
  adoption_stable I ->
  keeps_session_id I (process_packets ext depth packets).
Proof.
  intros HI. apply keeps_for_each. by apply keeps_process_packet.
Qed.

(** *** Which header the session id comes from *)

Lemma adopted_nil (sid : option Z) : adopted sid [] = sid.
Proof. by destruct sid. Qed.

Lemma adopted_app (sid : option Z) (a b : list Z) :
  adopted (adopted sid a) b = adopted sid (a ++ b).
Proof.
  destruct sid as [v|]; [done|]. unfold adopted, first_nonzero.
  rewrite List.filter_app.
  by destruct (List.filter (fun v => negb (v =? 0)) a).
Qed.

Lemma notes_frames {A} (m : M A) : frames_session_id m -> notes m [].
Proof.
  intros Hm self. exists []. split; [done|].
  split; [by rewrite Hm, adopted_nil|done].
Qed.

(** A computation that raised came across a part of any longer list. *)
Lemma notes_bind {A B} (m : M A) (k : A -> M B) (a b : list Z) :
  notes m a -> (forall x, notes (k x) b) -> notes (bind m k) (a ++ b).
Proof.
  intros Hm Hk self. unfold bind.
  destruct (Hm self) as (ids & Hprefix & Hsid & Hall).
  destruct (m self) as [[x|e] self1]; simpl in *.
  - rewrite (Hall x eq_refl) in *.
    destruct (Hk x self1) as (ids' & Hprefix' & Hsid' & Hall').
    exists (a ++ ids'). split; [by apply prefix_app|].
    split; [by rewrite Hsid', Hsid, adopted_app|].
    intros y Hy. by rewrite (Hall' y Hy).
  - exists ids. split; [by apply prefix_app_r|]. by split.
Qed.

Lemma notes_lift_bind {A B} (r : result A) (k : A -> M B) (all : list Z) :
  (forall x, r = Ok x -> notes (k x) all) -> notes (bind (lift r) k) all.
Proof.
  intros Hk self. unfold bind, lift.
  destruct r as [x|e]; [by apply Hk|].
  exists []. split; [apply prefix_nil|]. by rewrite adopted_nil.
Qed.

Lemma notes_note_session_id (header : CMsgProtoBufHeader.t) :
  notes (note_session_id header) [header_client_sessionid header].
Proof.
  intros self. exists [header_client_sessionid header].
  split; [done|]. split; [|done].
  rewrite note_session_id_run. unfold adopted, first_nonzero. simpl.
  destruct (_session_id self); [done|].
  by destruct (header_client_sessionid header =? 0).
Qed.

Lemma notes_for_each {A} (xs : list A) (body : A -> M unit)
    (f : A -> list Z) :
  (forall x, notes (body x) (f x)) ->
  notes (for_each xs body) (concat (map f xs)).
Proof.
  intros Hbody. induction xs as [|x xs IH]; simpl.
  - apply notes_frames, frames_ret.
  - apply notes_bind; [apply Hbody|]. by intros _.
Qed.

Lemma notes_multi_loop (process_packet : bytes -> M unit)
    (f : bytes -> list Z) (data : bytes) (turns : nat) :
  (forall packet, notes (process_packet packet) (f packet)) ->
  forall offset,
    notes (multi_loop process_packet turns data offset)
      (concat (map f (multi_records turns data offset))).
Proof.
  intros Hpp. induction turns as [|turns IH]; intros offset; simpl.
  - apply notes_frames, frames_ret.
  - destruct (offset + 4 <=? len data); [|apply notes_frames, frames_ret].
    apply notes_lift_bind. intros size ->. simpl.
    apply notes_bind; [apply Hpp|]. intros _. apply IH.
Qed.

Lemma notes_process_message (ext : Collaborators)
    (process_packet : bytes -> M unit) (f : bytes -> list Z) (emsg : Z)
    (header : CMsgProtoBufHeader.t) (body : bytes) :
  (forall packet, notes (process_packet packet) (f packet)) ->
  notes (_process_message ext process_packet emsg header body)
    (if emsg =? EMsg_Multi ext then
       match parse_Multi ext body with
       | Raise _ => []
       | Ok message =>
           match multi_data ext message with
           | Raise _ => []
           | Ok data => concat (map f (multi_records (length data) data 0))
           end
       end
     else []).
Proof.
  intros Hpp. unfold _process_message.
  destruct (emsg =? EMsg_Multi ext).
  { unfold _process_multi.
    apply notes_lift_bind. intros message ->.
    apply notes_lift_bind. intros data ->.
    by apply notes_multi_loop. }
  apply notes_frames.
  repeat match goal with
         | |- frames_session_id (if ?c then _ else _) => destruct c
         end;
    auto using frames_log_on_response, frames_log_off, frames_friend_list,
      frames_persona_state, frames_license_list, frames_package_info_response,
      frames_user_stats_response, frames_service_method_response, frames_log.
Qed.

Lemma notes_process_packet (ext : Collaborators) (depth : nat) :
  forall packet,
    notes (_process_packet ext depth packet) (headers_of ext depth packet).
Proof.
  induction depth as [|depth IH]; intros packet.
  - apply notes_frames, frames_raise.
  - cbn [_process_packet headers_of]. unfold process_packet_body.
    match goal with
    | |- notes _ ?all => apply (notes_bind _ _ [] all)
    end.
    { apply notes_frames. destruct (len packet <? 8); auto with frames. }
    intros _. apply notes_lift_bind. intros raw ->.
    destruct (negb _); [|apply notes_frames, frames_log].
    apply notes_lift_bind. intros header_len ->.
    apply notes_lift_bind. intros header ->.
    apply (notes_bind _ _ [header_client_sessionid header]);
      [apply notes_note_session_id|].
    intros _. by apply notes_process_message.
Qed.

Lemma notes_process_packets (ext : Collaborators) (depth : nat)
    (packets : list bytes) :
  notes (process_packets ext depth packets)
    (concat (map (headers_of ext depth) packets)).
Proof. apply notes_for_each, notes_process_packet. Qed.



(** A packet without a session id, then one with the id 7, then one with
    the id 9: the id is 7. A header without an id leaves the id unset. *)
Example session_id_comes_from_the_first_header_with_one :
  adopted None [0; 7; 9] = Some 7
  /\ _session_id
       (snd (process_packets session_examples 3
               [packet_without_session; packet_with_session_7;
                packet_with_session_9] Fixture.client)) = Some 7
  /\ _session_id
       (snd (process_packets session_examples 3 [packet_without_session]
               Fixture.client)) = None.
Proof. repeat split. Qed.

(** The second packet's id 9 does not replace the id 7 learned from the
    first. *)
Example second_session_id_is_ignored :
  _session_id
    (snd (process_packets session_examples 3
            [packet_with_session_7; packet_with_session_9] Fixture.client))
  = Some 7.
Proof. reflexivity. Qed.

(** ** log_on *)

(** C9. When sending the logon message raises an [Exception], [log_on]
    raises the same exception and leaves [_steam_id] reset to [None]. *)
Theorem log_on_failure_resets_steam_id (ext : Collaborators)
    (steam_id miniprofile_id : Z) (account_name token : string)
    (self after_send : ProtobufClient) (e : exn) :
  _send ext (EMsg_ClientLogon ext)
    (CMsgClientLogon account_name 65580 2 4294966596 4 2 token 0)
    None None None
    (set_miniprofile_id (Some miniprofile_id)
       (set_steam_id (Some steam_id) self)) = (Raise e, after_send) ->
  is_Exception e = true ->
  log_on ext steam_id miniprofile_id account_name token self
    = (Raise e, set_steam_id None after_send)
  /\ _steam_id
       (snd (log_on ext steam_id miniprofile_id account_name token self))
     = None.
Proof.
  intros Hsend Hexc.
  assert (log_on ext steam_id miniprofile_id account_name token self
          = (Raise e, set_steam_id None after_send)) as Hrun.
  { unfold log_on, try_except, bind, modify at 1 2. simpl.
    rewrite Hsend, Hexc. reflexivity. }
  split; [exact Hrun|]. rewrite Hrun. by destruct after_send.
Qed.

Lemma log_on_failure_resets_steam_id_witness :
  let self := __init__ refusing_socket in
  log_on (Fixture.collaborators []) 76561198000000001 42 "gordon" "nonce" self
    = (Raise (Raised "ConnectionClosed"),
       set_steam_id None
         (snd (_send (Fixture.collaborators []) 5514
                 (CMsgClientLogon "gordon" 65580 2 4294966596 4 2 "nonce" 0)
                 None None None
                 (set_miniprofile_id (Some 42)
                    (set_steam_id (Some 76561198000000001) self)))))
  /\ _steam_id
       (snd (log_on (Fixture.collaborators []) 76561198000000001 42
               "gordon" "nonce" self)) = None.
Proof.
  intros self.
  apply (log_on_failure_resets_steam_id (Fixture.collaborators [])
           76561198000000001 42 "gordon" "nonce" self).
  - reflexivity.
  - reflexivity.
Defined.

(** [except Exception] does not catch a cancellation: when the send is
    cancelled, [_steam_id] keeps the value set before the send. *)
Lemma log_on_cancelled_keeps_steam_id (ext : Collaborators)
    (steam_id miniprofile_id : Z) (account_name token : string)
    (self after_send : ProtobufClient) :
  _send ext (EMsg_ClientLogon ext)
    (CMsgClientLogon account_name 65580 2 4294966596 4 2 token 0)
    None None None
    (set_miniprofile_id (Some miniprofile_id)
       (set_steam_id (Some steam_id) self))
    = (Raise CancelledError, after_send) ->
  log_on ext steam_id miniprofile_id account_name token self
  = (Raise CancelledError, after_send).
Proof.
  intros Hsend. unfold log_on, try_except, bind, modify at 1 2. simpl.
  by rewrite Hsend.
Qed.

(** A logon whose send succeeds keeps both ids. *)
Lemma log_on_success_keeps_ids (ext : Collaborators)
    (steam_id miniprofile_id : Z) (account_name token : string)
    (self after_send : ProtobufClient) :
  _send ext (EMsg_ClientLogon ext)
    (CMsgClientLogon account_name 65580 2 4294966596 4 2 token 0)
    None None None
    (set_miniprofile_id (Some miniprofile_id)
       (set_steam_id (Some steam_id) self))
    = (Ok tt, after_send) ->
  log_on ext steam_id miniprofile_id account_name token self
  = (Ok tt, after_send).
Proof.
  intros Hsend. unfold log_on, try_except, bind, modify at 1 2. simpl.
  by rewrite Hsend.
Qed.

(** ** The heartbeat task *)

Lemma close_without_task (self : ProtobufClient) :
  _heartbeat_task self = None -> close self = (Ok tt, self).
Proof. intros H. unfold close, bind, get. by rewrite H. Qed.

Lemma close_with_task (self : ProtobufClient) (t : nat) :
  _heartbeat_task self = Some t -> close self = (Ok tt, cancelled_at t self).
Proof. intros H. unfold close, bind, get. by rewrite H. Qed.

Lemma cancelled_at_heartbeat_task (t : nat) (self : ProtobufClient) :
  _heartbeat_task (cancelled_at t self) = _heartbeat_task self.
Proof. by destruct self. Qed.

Lemma cancelled_at_tasks (t : nat) (self : ProtobufClient) :
  tasks (cancelled_at t self)
  = alter (fun k => {| interval := interval k; cancelled := true |}) t
      (tasks self).
Proof. by destruct self. Qed.

Lemma cancelled_at_lookup (t : nat) (self : ProtobufClient) (k : Task) :
  tasks self !! t = Some k ->
  tasks (cancelled_at t self) !! t = Some (cancelled_task k).
Proof.
  intros H. rewrite cancelled_at_tasks, list_lookup_alter_eq, H. reflexivity.
Qed.

Lemma cancelled_at_twice (t : nat) (self : ProtobufClient) :
  cancelled_at t (cancelled_at t self) = cancelled_at t self.
Proof.
  destruct self. unfold cancelled_at. simpl. f_equal.
  rewrite list_alter_alter_eq. by apply list_alter_ext.
Qed.

(** C5 (amended). [close] cancels the heartbeat task when there is one and
    does nothing otherwise; cancelling again changes nothing. Processing a
    logoff message cancels the heartbeat task when there is one, cancelled
    before or not, and then calls the logoff handler if it is set; when no
    heartbeat task was ever created the [assert] fails: the logoff raises
    [AssertionError] and leaves the client as it was. *)
Theorem heartbeat_cancelled_on_close_and_logoff (ext : Collaborators)
    (self : ProtobufClient) (body : bytes) (message : CMsgClientLoggedOff.t) :
  parse_LoggedOff ext body = Ok message ->
  (_heartbeat_task self = None ->
     close self = (Ok tt, self)
     /\ _process_client_log_off ext body self = (Raise AssertionError, self))
  /\ (forall t, _heartbeat_task self = Some t ->
        close self = (Ok tt, cancelled_at t self)
        /\ close (cancelled_at t self) = (Ok tt, cancelled_at t self)
        /\ _process_client_log_off ext body self
           = await_if_set (log_off_handler self)
               (call_log_off_handler (CMsgClientLoggedOff.eresult message))
               (cancelled_at t self)
        /\ (forall k, tasks self !! t = Some k ->
              tasks (cancelled_at t self) !! t = Some (cancelled_task k))).
Proof.
  intros Hparse. split.
  - intros Hnone. split; [by apply close_without_task|].
    unfold _process_client_log_off, bind, lift, get.
    by rewrite Hparse, Hnone.
  - intros t Hsome. repeat split.
    + by apply close_with_task.
    + rewrite (close_with_task _ t), cancelled_at_twice; [done|].
      by rewrite cancelled_at_heartbeat_task.
    + unfold _process_client_log_off, bind, lift, get.
      by rewrite Hparse, Hsome.
    + apply cancelled_at_lookup.
Qed.

Lemma heartbeat_cancelled_on_close_and_logoff_witness :
  close client_with_heartbeat = (Ok tt, cancelled_at 0 client_with_heartbeat)
  /\ _process_client_log_off
       (Fixture.collaborators [Fixture.P_LoggedOff logged_off_example]) [x00]
       client_with_heartbeat
     = await_if_set (Some Fixture.returns) (call_log_off_handler 1)
         (cancelled_at 0 client_with_heartbeat)
  /\ tasks (cancelled_at 0 client_with_heartbeat) !! 0%nat
     = Some {| interval := 9; cancelled := true |}.
Proof.
  destruct (heartbeat_cancelled_on_close_and_logoff
              (Fixture.collaborators [Fixture.P_LoggedOff logged_off_example])
              client_with_heartbeat [x00] logged_off_example eq_refl)
    as [_ Hsome].
  destruct (Hsome 0%nat eq_refl) as (Hclose & _ & Hlogoff & Htask).
  split; [exact Hclose|]. split; [exact Hlogoff|]. exact (Htask _ eq_refl).
Defined.

(** C5 (as stated) fails: a logoff message that arrives when no heartbeat
    task exists is not a no-op, it raises [AssertionError]. *)
Lemma logoff_without_heartbeat_raises :
  _heartbeat_task Fixture.client = None
  /\ _process_client_log_off
       (Fixture.collaborators [Fixture.P_LoggedOff logged_off_example])
       [x00] Fixture.client
     = (Raise AssertionError, Fixture.client).
Proof. split; reflexivity. Qed.

(** ** Friend lists *)

Lemma dict_of_snoc (pairs : list (Z * Z)) (k v : Z) :
  dict_of (pairs ++ [(k, v)]) = <[k := v]> (dict_of pairs).
Proof. unfold dict_of. by rewrite foldl_app. Qed.

Lemma dict_of_lookup_is_Some (pairs : list (Z * Z)) (k : Z) :
  is_Some (dict_of pairs !! k) <-> exists v, (k, v) ∈ pairs.
Proof.
  induction pairs as [|[k' v'] pairs IH] using rev_ind.
  - unfold dict_of. simpl. rewrite lookup_empty. split.
    + by intros [? ?].
    + intros [v Hv]. by apply elem_of_nil in Hv.
  - rewrite dict_of_snoc. destruct (decide (k' = k)) as [->|Hne].
    + rewrite lookup_insert_eq. split; [|by eauto].
      intros _. exists v'. apply elem_of_app. right. by constructor.
    + rewrite lookup_insert_ne by done. rewrite IH. split.
      * intros [v Hv]. exists v. apply elem_of_app. by left.
      * intros [v Hv]. apply elem_of_app in Hv as [Hv|Hv]; [by eauto|].
        apply list_elem_of_singleton in Hv. congruence.
Qed.

Lemma individual_friends_elem (ext : Collaborators)
    (friends : list CMsgClientFriendsList.Friend) (k v : Z) :
  (k, v) ∈ individual_friends ext friends <->
  exists r, r ∈ friends
            /\ CMsgClientFriendsList.ulfriendid r = k
            /\ CMsgClientFriendsList.efriendrelationship r = v
            /\ SteamId_parse_type ext k = EAccountType_Individual ext.
Proof.
  unfold individual_friends. rewrite list_elem_of_omap. split.
  - intros (r & Hr & Hsome). exists r.
    destruct (Z.eqb_spec
                (SteamId_parse_type ext (CMsgClientFriendsList.ulfriendid r))
                (EAccountType_Individual ext)) as [Hi|Hi]; [|done].
    inversion Hsome; subst. done.
  - intros (r & Hr & <- & <- & Hi). exists r. split; [done|].
    apply Z.eqb_eq in Hi. by rewrite Hi.
Qed.

Lemma friend_list_fold (ext : Collaborators) (self : ProtobufClient)
    (friends : list CMsgClientFriendsList.Friend) :
  (forall r, r ∈ friends ->
     SteamId_parse_type ext (CMsgClientFriendsList.ulfriendid r)
       = EAccountType_Individual ext ->
     is_EFriendRelationship ext (CMsgClientFriendsList.efriendrelationship r)
       = true) ->
  forall pairs,
  fold_each friends (dict_of pairs) (friend_list_entry ext) self
  = (Ok (dict_of (pairs ++ individual_friends ext friends)), self).
Proof.
  induction friends as [|r friends IH]; intros Hvalid pairs; simpl.
  - by rewrite app_nil_r.
  - unfold bind, friend_list_entry at 1. unfold individual_friends. simpl.
    destruct (Z.eqb_spec
                (SteamId_parse_type ext (CMsgClientFriendsList.ulfriendid r))
                (EAccountType_Individual ext)) as [Hi|Hi].
    + rewrite (Hvalid r) by (done || constructor). unfold ret at 1.
      rewrite <- dict_of_snoc, IH.
      * by rewrite <- app_assoc.
      * intros r' Hr'. apply Hvalid. by constructor.
    + unfold ret at 1. apply IH. intros r' Hr'. apply Hvalid. by constructor.
Qed.

(** C10. The mapping handed to the relationship handler is the dictionary
    of the message's entries whose steam id parses to the Individual
    account type (a later entry replacing an earlier one with the same
    id): a steam id is a key of it exactly when some entry of the message
    carries it and it is an Individual id. Entries of any other account
    type are left out. *)
Theorem friend_list_keeps_individuals_only (ext : Collaborators)
    (self : ProtobufClient) (body : bytes) (f : callee call)
    (message : CMsgClientFriendsList.t) :
  relationship_handler self = Some f ->
  parse_FriendsList ext body = Ok message ->
  (forall r, r ∈ CMsgClientFriendsList.friends message ->
     SteamId_parse_type ext (CMsgClientFriendsList.ulfriendid r)
       = EAccountType_Individual ext ->
     is_EFriendRelationship ext (CMsgClientFriendsList.efriendrelationship r)
       = true) ->
  let friends :=
    dict_of (individual_friends ext (CMsgClientFriendsList.friends message)) in
  _process_client_friend_list ext body self
  = delivered f
      (call_relationship_handler
         (CMsgClientFriendsList.bincremental message) friends)
      self
  /\ (forall steam_id,
        is_Some (friends !! steam_id) <->
        SteamId_parse_type ext steam_id = EAccountType_Individual ext
        /\ exists r, r ∈ CMsgClientFriendsList.friends message
                     /\ CMsgClientFriendsList.ulfriendid r = steam_id).
Proof.
  intros Hh Hparse Hvalid friends. split.
  - unfold _process_client_friend_list, bind, get, lift.
    rewrite Hh, Hparse.
    change (∅ : gmap Z Z) with (dict_of []).
    rewrite (friend_list_fold ext self _ Hvalid []). simpl.
    apply await_handler_set.
  - intros steam_id. unfold friends. rewrite dict_of_lookup_is_Some. split.
    + intros [v Hv]. apply individual_friends_elem in Hv
        as (r & Hr & Hid & _ & Hi). eauto.
    + intros [Hi (r & Hr & Hid)].
      exists (CMsgClientFriendsList.efriendrelationship r).
      apply individual_friends_elem. eauto.
Qed.

Lemma friend_list_keeps_individuals_only_witness :
  _process_client_friend_list
    (Fixture.collaborators [Fixture.P_FriendsList friends_example]) [x00]
    Fixture.client
  = delivered Fixture.returns
      (call_relationship_handler false
         (dict_of [(76561197960265729, 3)]))
      Fixture.client.
Proof.
  refine (proj1 (friend_list_keeps_individuals_only
           (Fixture.collaborators [Fixture.P_FriendsList friends_example])
           Fixture.client [x00] Fixture.returns friends_example
           eq_refl eq_refl _)).
  intros r Hr _.
  repeat (apply elem_of_cons in Hr as [->|Hr]; [reflexivity|]).
  by apply elem_of_nil in Hr.
Defined.

(** ** Persona states *)

Lemma translations_handler_set_trace (t : list event)
    (self : ProtobufClient) :
  translations_handler (set_trace t self) = translations_handler self.
Proof. by destruct self. Qed.

Lemma user_info_handler_set_trace (t : list event) (self : ProtobufClient) :
  user_info_handler (set_trace t self) = user_info_handler self.
Proof. by destruct self. Qed.

(** One attribute: it is stored, and a localization key asks for one
    translation. *)
Lemma rich_presence_element_exact (gameid : Z) (rp : gmap string string)
    (element : CMsgClientPersonaState.KV) (self : ProtobufClient) :
  (localization_key element = true ->
   exists g, translations_handler self = Some g /\ always_returns g) ->
  rich_presence_element gameid rp element self
  = (Ok (<[CMsgClientPersonaState.key element
           := CMsgClientPersonaState.value element]> rp),
     set_trace
       (trace self
        ++ (if localization_key element
            then [Call (call_translations_handler gameid None)]
            else [])) self).
Proof.
  unfold rich_presence_element, localization_key.
  destruct element as [k v]. simpl. intros Hhandler.
  destruct (String.eqb k "status"); simpl in *.
  2:{ unfold bind, ret. by rewrite app_nil_r, set_trace_trace. }
  destruct v as [|c v]; simpl in *.
  { unfold bind, ret. by rewrite app_nil_r, set_trace_trace. }
  destruct (Ascii.eqb c "#"); simpl in *.
  2:{ unfold bind, ret. by rewrite app_nil_r, set_trace_trace. }
  destruct (Hhandler eq_refl) as (g & Hg & Hreturns).
  unfold bind, get. rewrite Hg, await_handler_set. unfold delivered.
  by rewrite Hreturns.
Qed.

Lemma rich_presence_fold_exact (gameid : Z)
    (elements : list CMsgClientPersonaState.KV) :
  forall (rp : gmap string string) (self : ProtobufClient),
    (List.filter localization_key elements <> [] ->
     exists g, translations_handler self = Some g /\ always_returns g) ->
    fold_each elements rp (rich_presence_element gameid) self
    = (Ok (foldl (fun d element =>
                    <[CMsgClientPersonaState.key element
                      := CMsgClientPersonaState.value element]> d)
             rp elements),
       set_trace
         (trace self
          ++ map (fun _ => Call (call_translations_handler gameid None))
               (List.filter localization_key elements)) self).
Proof.
  induction elements as [|element elements IH]; intros rp self Hhandler.
  - simpl. unfold ret. by rewrite app_nil_r, set_trace_trace.
  - cbn [fold_each List.filter foldl]. unfold bind.
    rewrite rich_presence_element_exact.
    2:{ intros Hkey. apply Hhandler. simpl. by rewrite Hkey. }
    rewrite IH.
    2:{ intros Hrest. rewrite translations_handler_set_trace.
        apply Hhandler. simpl.
        destruct (localization_key element); [done|exact Hrest]. }
    rewrite trace_set_trace, set_trace_set_trace, <- app_assoc.
    by destruct (localization_key element).
Qed.

(** C8 (amended). Take a persona-state entry whose persona state, when
    it has one, is a value of the enumeration, processed while the
    user-info handler is set; let the app-info request of the entry (made
    only when the entry is about the client's own account playing an app)
    return; and let the translations handler, when the entry needs it, be
    set and return. Then the translations handler is called with the game
    id of the entry once for each rich-presence attribute whose key is
    [status] and whose value begins with [#], in attribute order and only
    when the entry has a game id; after these calls the presence record of
    the entry, with all its attributes, is delivered to the user-info
    handler. The request before the calls makes no handler call, and
    attributes under any other key ask for no translation. *)
Theorem persona_translations_precede_delivery (ext : Collaborators)
    (user : CMsgClientPersonaState.Friend) (self self1 : ProtobufClient)
    (f : callee call) :
  user_info_handler self = Some f ->
  valid_persona_state ext user ->
  (if own_account_playing user self
   then get_apps_info ext
          [VInt (CMsgClientPersonaState.game_played_app_id user)]
   else ret tt) self = (Ok tt, self1) ->
  (translation_calls user <> [] ->
   exists g, translations_handler self = Some g /\ always_returns g) ->
  persona_state_user ext user self
  = delivered f
      (call_user_info_handler (CMsgClientPersonaState.friendid user)
         (presence_record user))
      (set_trace (trace self1 ++ translation_calls user) self1)
  /\ (exists requests,
        trace self1 = trace self ++ requests
        /\ Forall (fun ev => ~ is_handler_call ev) requests)
  /\ translation_calls user
     = match CMsgClientPersonaState.gameid user with
       | Some gameid =>
           map (fun _ => Call (call_translations_handler gameid None))
             (List.filter
                (fun element =>
                   String.eqb (CMsgClientPersonaState.key element) "status"
                   && starts_with_hash (CMsgClientPersonaState.value element))
                (CMsgClientPersonaState.rich_presence user))
       | None => []
       end.
Proof.
  intros Hf Hstate Hrequest Htranslations.
  assert (exists requests,
            extends self self1 requests
            /\ Forall (fun ev => ~ is_handler_call ev) requests)
    as (requests & Hext & Hrequests).
  { unfold own_account_playing in Hrequest.
    destruct (_ && _).
    - destruct (get_apps_info_extends ext
                  [VInt (CMsgClientPersonaState.game_played_app_id user)] self)
        as (evs & Hevs & Hno).
      rewrite Hrequest in Hevs. by exists evs.
    - injection Hrequest as <-. exists []. split; [apply extends_nil|done]. }
  destruct (extends_handlers _ _ _ Hext) as (Htr1 & Hui1 & _).
  split; [|split]; [|exists requests; split; [by apply extends_trace|done]
                    |reflexivity].
  unfold persona_state_user. cbv zeta.
  unfold bind at 1, get at 1. unfold bind at 1.
  unfold own_account_playing in Hrequest. rewrite Hrequest.
  unfold bind at 1.
  assert (match CMsgClientPersonaState.persona_state user with
          | Some p =>
              if is_EPersonaState ext p then ret (Some p)
              else raise ValueError
          | None => ret None
          end self1
          = (Ok (CMsgClientPersonaState.persona_state user), self1)) as ->.
  { destruct (CMsgClientPersonaState.persona_state user) as [p|] eqn:Hp;
      [|done].
    by rewrite (Hstate p Hp). }
  unfold bind at 1.
  assert (match CMsgClientPersonaState.gameid user with
          | Some gameid =>
              rp ← fold_each (CMsgClientPersonaState.rich_presence user)
                     (∅ : gmap string string) (rich_presence_element gameid);
              ret (Some rp)
          | None => ret None
          end self1
          = (Ok (UserInfo.rich_presence (presence_record user)),
             set_trace (trace self1 ++ translation_calls user) self1)) as ->.
  { unfold translation_calls, presence_record in *. simpl.
    destruct (CMsgClientPersonaState.gameid user) as [gameid|].
    - unfold bind. rewrite rich_presence_fold_exact; [done|].
      intros Hkeys. rewrite Htr1. apply Htranslations.
      destruct (List.filter localization_key
                  (CMsgClientPersonaState.rich_presence user));
        [done|discriminate].
    - unfold ret. by rewrite app_nil_r, set_trace_trace. }
  unfold bind, get. rewrite user_info_handler_set_trace, Hui1, Hf.
  apply await_handler_set.
Qed.

Lemma persona_translations_precede_delivery_witness :
  persona_state_user (Fixture.collaborators []) persona_status_example
    Fixture.client
  = (Ok tt,
     set_trace
       [Call (call_translations_handler 730 None);
        Call (call_user_info_handler 76561197960265729
                (persona_info_example {["status" := "#Status_InGame"]}))]
       Fixture.client).
Proof.
  refine (proj1 (persona_translations_precede_delivery
                   (Fixture.collaborators []) persona_status_example
                   Fixture.client Fixture.client Fixture.returns _ _ _ _)).
  - reflexivity.
  - intros p [= <-]. reflexivity.
  - reflexivity.
  - intros _. exists Fixture.returns. split; [reflexivity|]. by intros tr a.
Defined.

(** C8 (as stated) fails: a presence value that begins with [#] under the
    key [steam_display] asks for no translation; the record is delivered
    and the translations handler is never called. *)
Lemma hash_value_under_other_key_is_not_translated :
  let after :=
    _process_client_persona_state
      (Fixture.collaborators
         [Fixture.P_PersonaState
            {| CMsgClientPersonaState.friends := [persona_display_example] |}])
      [x00] Fixture.client in
  fst after = Ok tt
  /\ trace (snd after)
     = [Call (call_user_info_handler 76561197960265729
                (persona_info_example
                   {["steam_display" := "#Status_InGame"]}))].
Proof. split; vm_compute; reflexivity. Qed.

(** ** License lists *)

Lemma forwarded_licenses_foldl (p : Z)
    (ls acc : list CMsgClientLicenseList.License) :
  foldl (fun acc l =>
           if (CMsgClientLicenseList.owner_id l =? p)
              && negb (CMsgClientLicenseList.flags l =? 520)
           then acc ++ [l] else acc) acc ls
  = acc ++ forwarded_licenses p ls.
Proof.
  revert acc. induction ls as [|l ls IH]; intros acc; simpl.
  - by rewrite app_nil_r.
  - rewrite IH. unfold forwarded_licenses. rewrite filter_cons.
    destruct (Z.eqb_spec (CMsgClientLicenseList.owner_id l) p) as [Ho|Ho];
      destruct (Z.eqb_spec (CMsgClientLicenseList.flags l) 520) as [Hf|Hf];
      simpl; case_decide as Hd; try reflexivity;
      try (by rewrite <- app_assoc); exfalso; tauto.
Qed.

(** C7. The list handed to the license-import handler holds exactly the
    entries owned by the session's miniprofile id whose flags are not 520,
    in message order. *)
Theorem license_list_forwards_owned_non_junk (ext : Collaborators)
    (self : ProtobufClient) (body : bytes) (f : callee call) (p : Z)
    (message : CMsgClientLicenseList.t) :
  license_import_handler self = Some f ->
  _miniprofile_id self = Some p ->
  parse_LicenseList ext body = Ok message ->
  _process_license_list ext body self
  = delivered f
      (call_license_import_handler
         (forwarded_licenses p (CMsgClientLicenseList.licenses message)))
      self.
Proof.
  intros Hh Hp Hparse.
  unfold _process_license_list, bind, get, lift. rewrite Hh, Hparse.
  erewrite fold_each_ok; cycle 1.
  { intros acc l _. unfold license_list_entry, bind, get, ret. rewrite Hp.
    instantiate (1 := fun acc l =>
      if (CMsgClientLicenseList.owner_id l =? p)
         && negb (CMsgClientLicenseList.flags l =? 520)
      then acc ++ [l] else acc).
    simpl. by destruct (_ && _). }
  rewrite forwarded_licenses_foldl, Hh. apply await_handler_set.
Qed.

Lemma license_list_forwards_owned_non_junk_witness :
  let self := set_miniprofile_id (Some 42) Fixture.client in
  _process_license_list
    (Fixture.collaborators [Fixture.P_LicenseList license_example]) [x00] self
  = delivered Fixture.returns
      (call_license_import_handler
         [ {| CMsgClientLicenseList.package_id := 1;
              CMsgClientLicenseList.owner_id := 42;
              CMsgClientLicenseList.flags := 0;
              CMsgClientLicenseList.license_type := 1 |} ])
      self.
Proof.
  intros self.
  exact (license_list_forwards_owned_non_junk
           (Fixture.collaborators [Fixture.P_LicenseList license_example])
           self [x00] Fixture.returns 42 license_example
           eq_refl eq_refl eq_refl).
Defined.

(** ** User stats *)

(** The loop body over flattened slots. *)
Lemma user_stats_blocks_flat (schema : vdf)
    (message : CMsgClientGetUserStatsResponse.t) (acc : list Achievement)
    (self : ProtobufClient) :
  fold_each (CMsgClientGetUserStatsResponse.achievement_blocks message) acc
    (user_stats_block schema (CMsgClientGetUserStatsResponse.game_id message))
    self
  = fold_each (slots_of message) acc
      (fun acc slot =>
         user_stats_slot schema (CMsgClientGetUserStatsResponse.game_id message)
           slot.1 acc slot.2)
      self.
Proof.
  unfold slots_of. rewrite <- fold_each_concat.
  generalize (CMsgClientGetUserStatsResponse.achievement_blocks message).
  intros blocks. revert acc self.
  induction blocks as [|b blocks IH]; intros acc self; simpl; [done|].
  unfold bind. unfold user_stats_block at 1. rewrite fold_each_map. simpl.
  destruct (fold_each _ acc _ self) as [[acc'|e] self']; auto.
Qed.

#[local] Arguments getpath : simpl never.
#[local] Arguments contains : simpl never.
#[local] Arguments str : simpl never.

Lemma user_stats_slot_benign (schema : vdf) (game_id : Z)
    (slot : Z * (Z * Z)) (acc : list Achievement) (self : ProtobufClient) :
  benign (slot_status_of schema game_id slot) ->
  user_stats_slot schema game_id slot.1 acc slot.2 self
  = (Ok (acc ++ achievements_of schema game_id [slot]),
     set_trace (trace self ++ skipped_logs schema game_id [slot]) self).
Proof.
  destruct slot as [aid [index t]].
  unfold achievements_of, skipped_logs, slot_status_of, user_stats_slot,
    display_name, bind, lift, try_except.
  simpl.
  destruct (0 <? t); repeat case_lookup;
    first [ by intros [] | intros _; unfold ret ];
    rewrite ?app_nil_r, ?set_trace_trace; reflexivity.
Qed.

Lemma user_stats_slot_unreadable (schema : vdf) (game_id : Z)
    (slot : Z * (Z * Z)) (acc : list Achievement) (self : ProtobufClient) :
  slot_status_of schema game_id slot = Unreadable ->
  user_stats_slot schema game_id slot.1 acc slot.2 self
  = (Raise UnknownBackendResponse,
     set_trace
       (trace self
        ++ [Log INFO
              "Unable to parse achievement {index} from block {achievement_block.achievement_id}";
            Log INFO "{achievs}";
            Log INFO "{achievements_schema}";
            Log INFO "{message.schema}"]) self).
Proof.
  destruct slot as [aid [index t]].
  unfold slot_status_of, user_stats_slot, display_name, bind, lift,
    try_except.
  simpl.
  destruct (0 <? t); repeat case_lookup; try discriminate; intros _;
    unfold raise, log, emit, modify; simpl;
    rewrite ?trace_set_trace, ?set_trace_set_trace, <- ?app_assoc;
    reflexivity.
Qed.

Lemma achievements_of_cons (schema : vdf) (game_id : Z)
    (slot : Z * (Z * Z)) (slots : list (Z * (Z * Z))) :
  achievements_of schema game_id (slot :: slots)
  = achievements_of schema game_id [slot]
    ++ achievements_of schema game_id slots.
Proof.
  unfold achievements_of. simpl.
  by destruct (slot_status_of schema game_id slot).
Qed.

Lemma skipped_logs_cons (schema : vdf) (game_id : Z)
    (slot : Z * (Z * Z)) (slots : list (Z * (Z * Z))) :
  skipped_logs schema game_id (slot :: slots)
  = skipped_logs schema game_id [slot] ++ skipped_logs schema game_id slots.
Proof.
  unfold skipped_logs. simpl.
  by destruct (slot_status_of schema game_id slot).
Qed.

Lemma user_stats_slots_benign (schema : vdf) (game_id : Z)
    (slots : list (Z * (Z * Z))) :
  Forall (fun slot => benign (slot_status_of schema game_id slot)) slots ->
  forall (acc : list Achievement) (self : ProtobufClient),
  fold_each slots acc
    (fun acc slot => user_stats_slot schema game_id slot.1 acc slot.2) self
  = (Ok (acc ++ achievements_of schema game_id slots),
     set_trace (trace self ++ skipped_logs schema game_id slots) self).
Proof.
  induction 1 as [|slot slots Hslot _ IH]; intros acc self.
  - simpl. unfold ret. by rewrite !app_nil_r, set_trace_trace.
  - cbn [fold_each]. unfold bind.
    rewrite (user_stats_slot_benign _ _ _ _ _ Hslot), IH.
    rewrite trace_set_trace, set_trace_set_trace, <- !app_assoc.
    by rewrite (achievements_of_cons _ _ slot slots), (skipped_logs_cons _ _ slot slots).
Qed.

Lemma skipped_logs_are_logs (schema : vdf) (game_id : Z)
    (slots : list (Z * (Z * Z))) :
  Forall is_Log (skipped_logs schema game_id slots).
Proof.
  unfold skipped_logs. apply Forall_forall. intros ev Hev.
  apply list_elem_of_omap in Hev as (s & _ & Hs).
  destruct (slot_status_of schema game_id s); inversion Hs. exact I.
Qed.

Lemma user_stats_slots_unreadable (schema : vdf) (game_id : Z)
    (before after : list (Z * (Z * Z))) (slot : Z * (Z * Z)) :
  Forall (fun slot => benign (slot_status_of schema game_id slot)) before ->
  slot_status_of schema game_id slot = Unreadable ->
  forall (acc : list Achievement) (self : ProtobufClient),
  exists logs,
    Forall is_Log logs
    /\ fold_each (before ++ slot :: after) acc
         (fun acc slot => user_stats_slot schema game_id slot.1 acc slot.2)
         self
       = (Raise UnknownBackendResponse, set_trace (trace self ++ logs) self).
Proof.
  intros Hbefore Hslot acc self.
  eexists. split; cycle 1.
  - rewrite fold_each_app. unfold bind at 1.
    rewrite (user_stats_slots_benign _ _ _ Hbefore). cbn [fold_each].
    unfold bind.
    rewrite (user_stats_slot_unreadable _ _ _ _ _ Hslot).
    rewrite trace_set_trace, set_trace_set_trace, <- app_assoc. reflexivity.
  - apply Forall_app. split; [apply skipped_logs_are_logs|].
    repeat constructor.
Qed.

(** When the bits table of a block cannot be looked up at all (the schema
    has no entry for the game or for the block), the lookup error leaves
    the method as it is: it is raised outside the [try]. *)
Lemma user_stats_slot_no_bits_table (schema : vdf) (game_id : Z)
    (slot : Z * (Z * Z)) (acc : list Achievement) (self : ProtobufClient)
    (e : exn) :
  slot_status_of schema game_id slot = NoBitsTable e ->
  user_stats_slot schema game_id slot.1 acc slot.2 self = (Raise e, self).
Proof.
  destruct slot as [aid [index t]].
  unfold slot_status_of, user_stats_slot, display_name, bind, lift,
    try_except.
  simpl.
  destruct (0 <? t); repeat case_lookup; try discriminate;
    intros [= ->]; reflexivity.
Qed.

Lemma user_stats_lookup_error_propagates (ext : Collaborators)
    (self : ProtobufClient) (body : bytes)
    (message : CMsgClientGetUserStatsResponse.t) (schema : vdf)
    (before after : list (Z * (Z * Z))) (slot : Z * (Z * Z)) (e : exn) :
  parse_GetUserStatsResponse ext body = Ok message ->
  vdf_binary_loads ext false (CMsgClientGetUserStatsResponse.schema message)
    = Ok schema ->
  slots_of message = before ++ slot :: after ->
  Forall (fun slot =>
            benign (slot_status_of schema
                      (CMsgClientGetUserStatsResponse.game_id message) slot))
    before ->
  slot_status_of schema (CMsgClientGetUserStatsResponse.game_id message) slot
    = NoBitsTable e ->
  exists logs,
    Forall is_Log logs
    /\ _process_user_stats_response ext body self
       = (Raise e, set_trace (trace self ++ logs) self).
Proof.
  intros Hparse Hschema Hslots Hbefore Hslot.
  eexists. split; cycle 1.
  - unfold _process_user_stats_response, bind at 1 2 3 4, lift.
    rewrite Hparse, log_run, Hschema, user_stats_blocks_flat, Hslots.
    rewrite fold_each_app. unfold bind at 1.
    rewrite (user_stats_slots_benign _ _ _ Hbefore). cbn [fold_each].
    unfold bind at 1.
    rewrite (user_stats_slot_no_bits_table _ _ _ _ _ _ Hslot).
    rewrite trace_set_trace, set_trace_set_trace, <- app_assoc. reflexivity.
  - constructor; [exact I|]. apply skipped_logs_are_logs.
Qed.

(** C1 (amended). With a schema that decodes, take the slots of the
    response in order; a slot is harmless when it is locked, when it is
    unlocked and its bit index has no entry in the bits table of its block
    (it is then logged and skipped), or when it is unlocked and has a
    readable display name. The first slot that is not harmless decides.
    When every slot is harmless, the stats handler (when set) is called
    with the achievements of the named slots only. When the first slot
    that is not harmless has an entry in its bits table but no readable
    display name, processing raises [UnknownBackendResponse], only log
    lines are written, and the stats handler is not called. When the
    bits table of the first slot that is not harmless cannot be looked up
    at all, the lookup error itself is raised, and again only log lines are
    written and the stats handler is not called. *)
Theorem user_stats_absent_bit_skipped_unreadable_fatal (ext : Collaborators)
    (self : ProtobufClient) (body : bytes)
    (message : CMsgClientGetUserStatsResponse.t) (schema : vdf) :
  parse_GetUserStatsResponse ext body = Ok message ->
  vdf_binary_loads ext false (CMsgClientGetUserStatsResponse.schema message)
    = Ok schema ->
  let game_id := CMsgClientGetUserStatsResponse.game_id message in
  let started :=
    trace self
    ++ [Log INFO "Processing user stats response for {message.game_id}"] in
  (forall f,
     stats_handler self = Some f ->
     Forall (fun slot => benign (slot_status_of schema game_id slot))
       (slots_of message) ->
     _process_user_stats_response ext body self
     = delivered f
         (call_stats_handler game_id
            (CMsgClientGetUserStatsResponse.stats message)
            (achievements_of schema game_id (slots_of message)))
         (set_trace
            (started ++ skipped_logs schema game_id (slots_of message)) self))
  /\ (forall before slot after,
        slots_of message = before ++ slot :: after ->
        Forall (fun slot => benign (slot_status_of schema game_id slot))
          before ->
        slot_status_of schema game_id slot = Unreadable ->
        exists logs,
          Forall is_Log logs
          /\ _process_user_stats_response ext body self
             = (Raise UnknownBackendResponse,
                set_trace (trace self ++ logs) self))
  /\ (forall before slot after e,
        slots_of message = before ++ slot :: after ->
        Forall (fun slot => benign (slot_status_of schema game_id slot))
          before ->
        slot_status_of schema game_id slot = NoBitsTable e ->
        exists logs,
          Forall is_Log logs
          /\ _process_user_stats_response ext body self
             = (Raise e, set_trace (trace self ++ logs) self)).
Proof.
  intros Hparse Hschema game_id started. split; [|split].
  - intros f Hf Hbenign.
    unfold _process_user_stats_response, bind, lift.
    rewrite Hparse, log_run, Hschema, user_stats_blocks_flat.
    rewrite (user_stats_slots_benign _ _ _ Hbenign). unfold get.
    rewrite trace_set_trace, set_trace_set_trace, stats_handler_set_trace, Hf.
    apply await_handler_set.
  - intros before slot after Hslots Hbefore Hslot.
    destruct (user_stats_slots_unreadable schema game_id before after slot
                Hbefore Hslot []
                (set_trace started self)) as (logs & Hlogs & Hrun).
    exists (Log INFO "Processing user stats response for {message.game_id}"
              :: logs).
    split; [by constructor|].
    unfold _process_user_stats_response, bind, lift.
    rewrite Hparse, log_run, Hschema, user_stats_blocks_flat, Hslots.
    fold game_id. fold started. rewrite Hrun.
    rewrite trace_set_trace, set_trace_set_trace. unfold started.
    by rewrite <- app_assoc.
  - intros before slot after e Hslots Hbefore Hslot.
    by apply (user_stats_lookup_error_propagates ext self body message schema
                before after slot e).
Qed.

Lemma user_stats_absent_bit_skipped_unreadable_fatal_witness :
  (exists logs,
     Forall is_Log logs
     /\ _process_user_stats_response
          (Fixture.collaborators
             [Fixture.P_GetUserStatsResponse stats_example;
              Fixture.P_Vdf schema_unnamed_bit_5])
          [x00] Fixture.client
        = (Raise UnknownBackendResponse,
           set_trace (trace Fixture.client ++ logs) Fixture.client))
  /\ _process_user_stats_response
       (Fixture.collaborators
          [Fixture.P_GetUserStatsResponse stats_example;
           Fixture.P_Vdf schema_named_bit_5])
       [x00] Fixture.client
     = delivered Fixture.returns
         (call_stats_handler 1 []
            [{| id := 5; unlock_time := 1600000000;
                name := VStr "Survivor" |}])
         (set_trace
            [Log INFO "Processing user stats response for {message.game_id}"]
            Fixture.client)
  /\ (exists logs,
        Forall is_Log logs
        /\ _process_user_stats_response
             (Fixture.collaborators
                [Fixture.P_GetUserStatsResponse stats_example;
                 Fixture.P_Vdf schema_without_block_1])
             [x00] Fixture.client
           = (Raise KeyError,
              set_trace (trace Fixture.client ++ logs) Fixture.client)).
Proof.
  split; [|split].
  - destruct (user_stats_absent_bit_skipped_unreadable_fatal
                (Fixture.collaborators
                   [Fixture.P_GetUserStatsResponse stats_example;
                    Fixture.P_Vdf schema_unnamed_bit_5])
                Fixture.client [x00] stats_example schema_unnamed_bit_5
                eq_refl eq_refl) as (_ & Hfatal & _).
    apply (Hfatal [(1, (0, 0)); (1, (1, 0)); (1, (2, 0)); (1, (3, 0));
                   (1, (4, 0))] (1, (5, 1600000000)) []).
    + reflexivity.
    + repeat constructor.
    + reflexivity.
  - destruct (user_stats_absent_bit_skipped_unreadable_fatal
                (Fixture.collaborators
                   [Fixture.P_GetUserStatsResponse stats_example;
                    Fixture.P_Vdf schema_named_bit_5])
                Fixture.client [x00] stats_example schema_named_bit_5
                eq_refl eq_refl) as (Hnamed & _ & _).
    apply (Hnamed Fixture.returns); [reflexivity|]. repeat constructor.
  - destruct (user_stats_absent_bit_skipped_unreadable_fatal
                (Fixture.collaborators
                   [Fixture.P_GetUserStatsResponse stats_example;
                    Fixture.P_Vdf schema_without_block_1])
                Fixture.client [x00] stats_example schema_without_block_1
                eq_refl eq_refl) as (_ & _ & Hlookup).
    apply (Hlookup [(1, (0, 0)); (1, (1, 0)); (1, (2, 0)); (1, (3, 0));
                    (1, (4, 0))] (1, (5, 1600000000)) [] KeyError).
    + reflexivity.
    + repeat constructor.
    + reflexivity.
Defined.

(** C1 (as stated) fails on the specification's own example: block 1,
    bit 5 is unlocked and the schema of game 1, block 1 has no entry for
    bit 5, yet processing returns normally and the stats handler is called,
    with the unlocked slot left out. *)
Lemma unlocked_bit_without_entry_is_skipped :
  (1, (5, 1600000000)) ∈ slots_of stats_example
  /\ getpath schema_without_bit_5 (bits_path 1 1 ++ [str 5]) = Raise KeyError
  /\ _process_user_stats_response
       (Fixture.collaborators
          [Fixture.P_GetUserStatsResponse stats_example;
           Fixture.P_Vdf schema_without_bit_5])
       [x00] Fixture.client
     = (Ok tt,
        set_trace
          [Log INFO "Processing user stats response for {message.game_id}";
           Log INFO "Non existent achievement unlocked";
           Call (call_stats_handler 1 [] [])]
          Fixture.client).
Proof.
  split; [|split]; [|reflexivity|reflexivity].
  unfold slots_of, stats_example, enumerate. simpl.
  do 5 (apply elem_of_cons; right). apply elem_of_cons. by left.
Qed.

(** ** Unset handlers *)

(** The friend-list, persona-state and license-list branches test their
    handler first and do nothing when it is unset. *)
Lemma unset_handler_skips_guarded_branches (ext : Collaborators)
    (body : bytes) (self : ProtobufClient) :
  (relationship_handler self = None ->
   _process_client_friend_list ext body self = (Ok tt, self))
  /\ (user_info_handler self = None ->
      _process_client_persona_state ext body self = (Ok tt, self))
  /\ (license_import_handler self = None ->
      _process_license_list ext body self = (Ok tt, self)).
Proof.
  unfold _process_client_friend_list, _process_client_persona_state,
    _process_license_list, bind, get.
  repeat split; intros ->; reflexivity.
Qed.

(** The user-stats branch has no such test: with the stats handler unset
    it never returns normally. *)
Lemma unset_stats_handler_always_raises (ext : Collaborators) (body : bytes)
    (self : ProtobufClient) :
  stats_handler self = None ->
  exists e, fst (_process_user_stats_response ext body self) = Raise e.
Proof.
  intros Hnone. unfold _process_user_stats_response, bind at 1, lift at 1.
  destruct (parse_GetUserStatsResponse ext body) as [message|e]; [|by eauto].
  unfold bind at 1. rewrite log_run.
  unfold bind at 1, lift at 1.
  destruct (vdf_binary_loads ext false _) as [schema|e]; [|by eauto].
  unfold bind at 1.
  assert (forall (acc : list Achievement) s,
    stats_handler (snd (fold_each
      (CMsgClientGetUserStatsResponse.achievement_blocks message) acc
      (user_stats_block schema (CMsgClientGetUserStatsResponse.game_id message))
      s)) = stats_handler s) as Hkeep.
  { generalize (CMsgClientGetUserStatsResponse.achievement_blocks message).
    intros blocks. induction blocks as [|b blocks IH]; intros acc s; [done|].
    cbn [fold_each]. unfold bind.
    assert (forall slots (acc : list Achievement) s,
      stats_handler (snd (fold_each slots acc
        (user_stats_slot schema
           (CMsgClientGetUserStatsResponse.game_id message)
           (CMsgClientGetUserStatsResponse.achievement_id b)) s))
      = stats_handler s) as Hslots.
    { induction slots as [|[index t] slots IHs]; intros acc' s'; [done|].
      cbn [fold_each]. unfold bind.
      assert (stats_handler
                (snd (user_stats_slot schema
                        (CMsgClientGetUserStatsResponse.game_id message)
                        (CMsgClientGetUserStatsResponse.achievement_id b)
                        acc' (index, t) s')) = stats_handler s') as Hslot.
      { unfold user_stats_slot, bind, lift, try_except.
        destruct (0 <? t); [|done].
        repeat case_lookup; try done; by destruct s'. }
      destruct (user_stats_slot _ _ _ acc' (index, t) s')
        as [[acc''|e] s'']; simpl in Hslot; [|done].
      by rewrite IHs. }
    unfold user_stats_block at 1. specialize (Hslots
      (enumerate (CMsgClientGetUserStatsResponse.unlock_time b)) acc s).
    destruct (fold_each (enumerate _) acc _ s) as [[acc'|e] s'];
      simpl in Hslots; [|done].
    by rewrite IH. }
  specialize (Hkeep [] (set_trace
    (trace self
     ++ [Log INFO "Processing user stats response for {message.game_id}"])
    self)).
  destruct (fold_each _ [] _ _) as [[achievements|e] self1]; [|by eauto].
  simpl in Hkeep. unfold bind, get.
  rewrite Hkeep, stats_handler_set_trace, Hnone. by eauto.
Qed.

(** C4. What the code does when a user-stats response or a product-info
    response arrives at a client with no handler registered: the call of
    the unset handler raises [TypeError]. *)
Theorem unset_handler_raises_type_error :
  let self := __init__ Fixture.returns in
  stats_handler self = None
  /\ package_info_handler self = None
  /\ _process_user_stats_response handler_examples [x00] self
     = (Raise TypeError,
        set_trace
          [Log INFO "Processing user stats response for {message.game_id}"]
          self)
  /\ _process_package_info_response handler_examples [x02] self
     = (Raise TypeError, self).
Proof. repeat split; reflexivity. Qed.


(** * The requests, the framing and the job loop *)

(** ** The protobuf flag *)

Lemma proto_mask_clear (emsg : Z) :
  0 <= emsg < 2 ^ 31 -> Z.land emsg _PROTO_MASK = 0.
Proof.
  intros H. apply Z.bits_inj'. intros n Hn.
  rewrite Z.land_spec, Z.bits_0.
  change _PROTO_MASK with (2 ^ 31). rewrite Z.pow2_bits_eqb by lia.
  destruct (Z.eqb_spec 31 n) as [<-|]; [|apply andb_false_r].
  rewrite andb_true_r.
  destruct (Z.eq_dec emsg 0) as [->|]; [apply Z.bits_0|].
  apply Z.bits_above_log2; [lia|]. apply Z.log2_lt_pow2; lia.
Qed.

Lemma lor_proto_mask (emsg : Z) :
  0 <= emsg < 2 ^ 31 -> Z.lor emsg _PROTO_MASK = emsg + 2 ^ 31.
Proof.
  intros H. pose proof (proto_mask_clear emsg H) as Hclear.
  rewrite <- Z.lxor_lor by exact Hclear.
  symmetry. apply Z.add_nocarry_lxor. exact Hclear.
Qed.

Lemma flag_of_lor_proto_mask (emsg : Z) :
  Z.land (Z.lor emsg _PROTO_MASK) _PROTO_MASK = _PROTO_MASK.
Proof.
  apply Z.bits_inj'. intros n Hn. rewrite Z.land_spec, Z.lor_spec.
  by destruct (Z.testbit emsg n), (Z.testbit _PROTO_MASK n).
Qed.

Lemma emsg_of_lor_proto_mask (emsg : Z) :
  0 <= emsg < 2 ^ 31 ->
  Z.land (Z.lor emsg _PROTO_MASK) (Z.lnot _PROTO_MASK) = emsg.
Proof.
  intros H. pose proof (proto_mask_clear emsg H) as Hclear.
  apply Z.bits_inj'. intros n Hn.
  apply (f_equal (fun z => Z.testbit z n)) in Hclear.
  rewrite Z.land_spec, Z.bits_0 in Hclear.
  rewrite Z.land_spec, Z.lor_spec, Z.lnot_spec by exact Hn.
  by destruct (Z.testbit emsg n), (Z.testbit _PROTO_MASK n).
Qed.

(** ** What [_send] emits *)

Lemma assign_if_set_uint (bits : Z) (o : option Z) :
  fits_uint bits o -> assign_if_set (check_uint bits) o = Ok o.
Proof.
  destruct o as [z|]; [|done]. simpl. intros Hz. unfold check_uint.
  destruct (Z.leb_spec 0 z); [|lia].
  by destruct (Z.ltb_spec z (2 ^ bits)); [|lia].
Qed.

Lemma assign_if_set_int32 (o : option Z) :
  fits_int32 o -> assign_if_set check_int32 o = Ok o.
Proof.
  destruct o as [z|]; [|done]. simpl. intros Hz. unfold check_int32.
  destruct (Z.leb_spec (- 2 ^ 31) z); [|lia].
  by destruct (Z.ltb_spec z (2 ^ 31)); [|lia].
Qed.

Lemma struct_pack_2I_frame (emsg n : Z) :
  0 <= emsg < 2 ^ 31 -> 0 <= n < 2 ^ 32 ->
  struct_pack_2I (Z.lor emsg _PROTO_MASK) n
  = Ok (le32 (Z.lor emsg _PROTO_MASK) ++ le32 n).
Proof.
  intros He Hn. unfold struct_pack_2I. rewrite lor_proto_mask by exact He.
  destruct (Z.leb_spec 0 (emsg + 2 ^ 31)); [|lia].
  destruct (Z.ltb_spec (emsg + 2 ^ 31) (2 ^ 32)); [|lia].
  destruct (Z.leb_spec 0 n); [|lia].
  by destruct (Z.ltb_spec n (2 ^ 32)); [|lia].
Qed.

Lemma _send_serialized_run (ext : Collaborators) (emsg : Z) (body : bytes)
    (source target : option Z) (name : option string)
    (self : ProtobufClient) :
  ids_fit self -> fits_uint 64 source -> fits_uint 64 target ->
  0 <= emsg < 2 ^ 31 ->
  header_fits ext (stamped_header self source target name) ->
  _send_serialized ext emsg body source target name self
  = sent (request_frame ext self emsg source target name body) self.
Proof.
  intros [Hsteam Hsession] Hsource Htarget Hemsg Hlen.
  unfold _send_serialized, bind, get, lift.
  rewrite (assign_if_set_uint 64 _ Hsteam), (assign_if_set_int32 _ Hsession),
    (assign_if_set_uint 64 _ Hsource), (assign_if_set_uint 64 _ Htarget).
  cbv zeta. fold (stamped_header self source target name).
  rewrite struct_pack_2I_frame
    by first [exact Hemsg | split; [apply len_nonneg|exact Hlen]].
  rewrite await_run. unfold sent, request_frame, wire_frame.
  by rewrite <- !app_assoc.
Qed.

Lemma _send_serialize (ext : Collaborators) (emsg : Z) (message : out_message)
    (source target : option Z) (name : option string) :
  _send ext emsg message source target name
  = _send_serialized ext emsg (serialize ext message) source target name.
Proof. reflexivity. Qed.

(** ** Reading a frame *)

Lemma slice_from_app {A} (pre rest : list A) :
  slice_from (pre ++ rest) (len pre) = rest.
Proof.
  unfold slice_from. rewrite len_app. pose proof (len_nonneg rest).
  replace (Z.min (len pre) (len pre + len rest)) with (len pre) by lia.
  unfold len. rewrite Nat2Z.id. by rewrite drop_app_length.
Qed.

Lemma wire_frame_words (emsg : Z) (header body : bytes) :
  let packet := wire_frame emsg header body in
  slice packet 0 4 = le32 (Z.lor emsg _PROTO_MASK)
  /\ slice packet 4 8 = le32 (len header)
  /\ slice packet 8 (8 + len header) = header
  /\ slice_from packet (8 + len header) = body
  /\ len packet = 8 + len header + len body.
Proof.
  unfold wire_frame. cbv zeta. repeat split.
  - apply (slice_prefix (le32 _)).
  - change 4 with (len (le32 (Z.lor emsg _PROTO_MASK)) + 0) at 1.
    change 8 with (len (le32 (Z.lor emsg _PROTO_MASK)) + 4).
    rewrite slice_app_shift by lia. apply (slice_prefix (le32 _)).
  - rewrite (app_assoc (le32 _) (le32 _)).
    change 8 with (len (le32 (Z.lor emsg _PROTO_MASK) ++ le32 (len header)) + 0)
      at 1.
    change 8 with (len (le32 (Z.lor emsg _PROTO_MASK) ++ le32 (len header))).
    rewrite slice_app_shift by lia. apply slice_prefix.
  - rewrite !app_assoc.
    replace (8 + len header)
      with (len ((le32 (Z.lor emsg _PROTO_MASK) ++ le32 (len header)) ++ header)).
    + apply slice_from_app.
    + rewrite len_app. reflexivity.
  - rewrite !len_app, !len_le32. lia.
Qed.

Lemma process_packet_body_frame (ext : Collaborators)
    (process_packet : bytes -> M unit) (emsg : Z) (header body : bytes)
    (h : CMsgProtoBufHeader.t) (self : ProtobufClient) :
  0 <= emsg < 2 ^ 31 -> len header < 2 ^ 32 ->
  parse_Header ext header = Ok h ->
  process_packet_body ext process_packet (wire_frame emsg header body) self
  = (note_session_id h;; _process_message ext process_packet emsg h body) self.
Proof.
  intros Hemsg Hlen Hparse.
  destruct (wire_frame_words emsg header body) as (H0 & H4 & H8 & Hbody & Hsize).
  pose proof (len_nonneg header). pose proof (len_nonneg body).
  unfold process_packet_body. cbv zeta. rewrite Hsize, H0.
  destruct (Z.ltb_spec (8 + len header + len body) 8); [lia|].
  unfold bind at 1, ret at 1. unfold bind at 1, lift at 1.
  rewrite struct_unpack_I_le32
    by (rewrite lor_proto_mask by exact Hemsg; lia).
  rewrite flag_of_lor_proto_mask, emsg_of_lor_proto_mask by exact Hemsg.
  change (negb (_PROTO_MASK =? 0)) with true. cbv iota.
  unfold bind at 1, lift at 1. rewrite H4, struct_unpack_I_le32 by lia.
  unfold bind at 1, lift at 1. rewrite H8, Hparse, Hbody. reflexivity.
Qed.

(** ** Frames sent and frames received *)

(** X1. When the ids of the client and the job ids of the call fit their
    header fields, [_send] emits exactly one frame: the message type with
    the protobuf flag, the header length, a header stamped with the
    client's steam id and session id and the job fields of the call, and
    the serialized message. The outcome is the socket's answer. *)
Theorem send_emits_one_stamped_frame (ext : Collaborators) (emsg : Z)
    (message : out_message) (source target : option Z) (name : option string)
    (self : ProtobufClient) :
  ids_fit self -> fits_uint 64 source -> fits_uint 64 target ->
  0 <= emsg < 2 ^ 31 ->
  header_fits ext (stamped_header self source target name) ->
  _send ext emsg message source target name self
  = (outcome_of
       (_socket self (trace self)
          (request_frame ext self emsg source target name
             (serialize ext message))),
     set_trace
       (trace self
        ++ [Send (request_frame ext self emsg source target name
                    (serialize ext message))]) self).
Proof.
  intros Hids Hsource Htarget Hemsg Hlen. rewrite _send_serialize.
  by apply _send_serialized_run.
Qed.

Lemma send_emits_one_stamped_frame_witness :
  _send (Fixture.collaborators []) 8903
    (CMsgClientPICSProductInfoRequest [] [730]) (Some 5) None (Some "job")
    (set_steam_id (Some 76561198000000001) Fixture.client)
  = (Ok tt,
     set_trace
       [Send (wire_frame 8903 [] [])]
       (set_steam_id (Some 76561198000000001) Fixture.client)).
Proof.
  apply (send_emits_one_stamped_frame (Fixture.collaborators []) 8903
           (CMsgClientPICSProductInfoRequest [] [730]) (Some 5) None
           (Some "job")
           (set_steam_id (Some 76561198000000001) Fixture.client)).
  - split; simpl; lia.
  - simpl; lia.
  - exact I.
  - lia.
  - unfold header_fits. simpl. unfold len. simpl. lia.
Defined.

(** X2. A well-formed frame is read back: for a message type below
    [2^31], a header the length word can hold and that parses,
    [_process_packet] recovers the type, the header and the body, notes
    the session id of the header and dispatches the message. *)
Theorem wire_frame_is_read_back (ext : Collaborators) (depth : nat)
    (emsg : Z) (header body : bytes) (h : CMsgProtoBufHeader.t)
    (self : ProtobufClient) :
  0 <= emsg < 2 ^ 31 -> len header < 2 ^ 32 ->
  parse_Header ext header = Ok h ->
  _process_packet ext (S depth) (wire_frame emsg header body) self
  = (note_session_id h;;
     _process_message ext (_process_packet ext depth) emsg h body) self.
Proof.
  intros Hemsg Hlen Hparse. cbn [_process_packet].
  by apply process_packet_body_frame.
Qed.

Lemma wire_frame_is_read_back_witness :
  _process_packet session_examples 2 (wire_frame 9999 [x00] [x2a]) Fixture.client
  = (note_session_id (header_with_session 7);;
     _process_message session_examples (_process_packet session_examples 1)
       9999 (header_with_session 7) [x2a]) Fixture.client.
Proof.
  apply (wire_frame_is_read_back session_examples 1 9999 [x00] [x2a]
           (header_with_session 7) Fixture.client).
  - lia.
  - unfold len. simpl. lia.
  - reflexivity.
Defined.

(** X3. A packet whose type word lacks the protobuf flag is ignored
    whatever follows the word: the only effect is the warning about the
    extended header, after the warning about the size when the packet has
    fewer than eight bytes. No header is parsed and nothing raises. *)
Theorem packet_without_flag_is_ignored (ext : Collaborators) (depth : nat)
    (raw : Z) (rest : bytes) (self : ProtobufClient) :
  0 <= raw < 2 ^ 31 ->
  _process_packet ext (S depth) (le32 raw ++ rest) self
  = (Ok tt,
     set_trace
       (trace self
        ++ (if len rest <? 4 then [too_small_warning] else [])
        ++ [extended_header_warning]) self).
Proof.
  intros Hraw. cbn [_process_packet]. unfold process_packet_body. cbv zeta.
  rewrite len_app, len_le32.
  assert (slice (le32 raw ++ rest) 0 4 = le32 raw) as Hword
    by apply (slice_prefix (le32 raw)).
  pose proof (len_nonneg rest).
  assert (forall self0 : ProtobufClient,
            (raw_emsg ← lift (struct_unpack_I (slice (le32 raw ++ rest) 0 4));
             if negb (Z.land raw_emsg _PROTO_MASK =? 0)
             then header_len ← lift (struct_unpack_I
                                       (slice (le32 raw ++ rest) 4 8));
                  header ← lift (parse_Header ext
                                   (slice (le32 raw ++ rest) 8 (8 + header_len)));
                  note_session_id header;;
                  _process_message ext (_process_packet ext depth)
                    (Z.land raw_emsg (Z.lnot _PROTO_MASK)) header
                    (slice_from (le32 raw ++ rest) (8 + header_len))
             else log WARNING "Packet with extended header - ignoring") self0
            = (Ok tt, set_trace (trace self0 ++ [extended_header_warning]) self0))
    as Htail.
  { intros self0. unfold bind at 1, lift at 1.
    rewrite Hword, struct_unpack_I_le32 by lia.
    rewrite proto_mask_clear by exact Hraw. reflexivity. }
  unfold bind at 1.
  destruct (Z.ltb_spec (4 + len rest) 8), (Z.ltb_spec (len rest) 4); try lia.
  - rewrite log_run, Htail, trace_set_trace, set_trace_set_trace.
    by rewrite <- app_assoc.
  - unfold ret at 1. by rewrite Htail.
Qed.

Lemma packet_without_flag_is_ignored_witness :
  _process_packet (Fixture.collaborators []) 1
    (le32 751 ++ [x01; x02]) Fixture.client
  = (Ok tt, set_trace [too_small_warning; extended_header_warning]
              Fixture.client).
Proof.
  apply (packet_without_flag_is_ignored (Fixture.collaborators []) 0 751
           [x01; x02] Fixture.client).
  lia.
Defined.

(** X4. A frame of a message type the client has no branch for is
    harmless: apart from noting the session id of its header, the only
    effect is the warning that the message was ignored. *)
Theorem unknown_message_is_only_logged (ext : Collaborators) (depth : nat)
    (emsg : Z) (header body : bytes) (h : CMsgProtoBufHeader.t)
    (self : ProtobufClient) :
  0 <= emsg < 2 ^ 31 -> len header < 2 ^ 32 ->
  parse_Header ext header = Ok h ->
  emsg ∉ known_emsgs ext ->
  _process_packet ext (S depth) (wire_frame emsg header body) self
  = (note_session_id h;; log WARNING "Ignored message %d") self.
Proof.
  intros Hemsg Hlen Hparse Hunknown. cbn [_process_packet].
  rewrite (process_packet_body_frame ext _ emsg header body h self)
    by assumption.
  assert (_process_message ext (_process_packet ext depth) emsg h body
          = log WARNING "Ignored message %d") as ->; [|done].
  unfold _process_message.
  repeat match goal with
         | |- context [emsg =? ?c] =>
             destruct (Z.eqb_spec emsg c) as [Heq|Hne];
             [exfalso; apply Hunknown; rewrite Heq; unfold known_emsgs;
              repeat (apply elem_of_cons; first [by left | right])
             |clear Hne]
         end.
  reflexivity.
Qed.

Lemma unknown_message_is_only_logged_witness :
  _process_packet session_examples 1 (wire_frame 9999 [x00] []) Fixture.client
  = (Ok tt,
     set_session_id (Some 7)
       (set_trace [Log INFO "Session id: %d"; Log WARNING "Ignored message %d"]
          Fixture.client)).
Proof.
  apply (unknown_message_is_only_logged session_examples 0 9999 [x00] []
           (header_with_session 7) Fixture.client).
  - lia.
  - unfold len. simpl. lia.
  - reflexivity.
  - unfold known_emsgs. simpl. rewrite !not_elem_of_cons.
    repeat split; try lia. apply not_elem_of_nil.
Defined.

(** X5. A logon whose send the socket accepts stores both ids and sends
    one logon frame; the header of the frame already carries the new steam
    id. *)
Theorem log_on_sends_frame_with_new_steam_id (ext : Collaborators)
    (steam_id miniprofile_id : Z) (account_name token : string)
    (self : ProtobufClient) :
  let self' := logging_on steam_id miniprofile_id self in
  let data :=
    request_frame ext self' (EMsg_ClientLogon ext) None None None
      (serialize ext (logon_message account_name token)) in
  0 <= steam_id < 2 ^ 64 -> fits_int32 (_session_id self) ->
  0 <= EMsg_ClientLogon ext < 2 ^ 31 ->
  header_fits ext (stamped_header self' None None None) ->
  _socket self (trace self) data = None ->
  log_on ext steam_id miniprofile_id account_name token self
  = (Ok tt, set_trace (trace self ++ [Send data]) self')
  /\ CMsgProtoBufHeader.steamid (stamped_header self' None None None)
     = Some steam_id.
Proof.
  intros self' data Hsteam Hsession Hemsg Hlen Hsocket.
  assert (_steam_id self' = Some steam_id) as Hid by (by destruct self).
  assert (_session_id self' = _session_id self) as Hsid by (by destruct self).
  assert (trace self' = trace self) as Htrace by (by destruct self).
  assert (_socket self' = _socket self) as Hsock by (by destruct self).
  split; [|exact Hid].
  apply log_on_success_keeps_ids. fold (logging_on steam_id miniprofile_id self).
  fold self'. rewrite _send_serialize, _send_serialized_run.
  - unfold sent. rewrite Hsock, Htrace.
    unfold data, self', logon_message, logging_on in *. by rewrite Hsocket.
  - split; [by rewrite Hid|by rewrite Hsid].
  - exact I.
  - exact I.
  - exact Hemsg.
  - exact Hlen.
Qed.

Lemma log_on_sends_frame_with_new_steam_id_witness :
  log_on (Fixture.collaborators []) 76561198000000001 42 "gordon" "nonce"
    Fixture.client
  = (Ok tt,
     set_trace [Send (wire_frame 5514 [] [])]
       (logging_on 76561198000000001 42 Fixture.client))
  /\ CMsgProtoBufHeader.steamid
       (stamped_header (logging_on 76561198000000001 42 Fixture.client)
          None None None)
     = Some 76561198000000001.
Proof.
  apply (log_on_sends_frame_with_new_steam_id (Fixture.collaborators [])
           76561198000000001 42 "gordon" "nonce" Fixture.client).
  - lia.
  - exact I.
  - simpl. lia.
  - unfold header_fits. simpl. unfold len. simpl. lia.
  - reflexivity.
Defined.

(** ** Collections *)

Lemma collections_set_collections (v : list (json * json))
    (self : ProtobufClient) :
  collections (set_collections v self) = v.
Proof. by destruct self. Qed.

Lemma set_collections_twice (v v' : list (json * json))
    (self : ProtobufClient) :
  set_collections v' (set_collections v self) = set_collections v' self.
Proof. by destruct self. Qed.

Lemma set_collections_same (self : ProtobufClient) :
  set_collections (collections self) self = self.
Proof. by destruct self. Qed.

(** One entry of a download: the assignment is made, or the entry is
    skipped; nothing is raised. *)
Lemma collections_entry_run (ext : Collaborators) (value : string)
    (self : ProtobufClient) :
  try_except
    (loaded_val ← lift (json_loads ext value);
     added ← lift (json_getitem loaded_val "added");
     name ← lift (json_getitem loaded_val "name");
     if hashable name
     then modify (fun self =>
            set_collections (collections self ++ [(name, added)]) self)
     else raise TypeError)
    (fun _ => true)
    (fun _ => ret tt) self
  = (Ok tt,
     set_collections
       (collections self ++ option_list (collection_of ext value)) self).
Proof.
  unfold try_except, bind, lift, collection_of.
  destruct (json_loads ext value) as [loaded_val|e]; simpl;
    [|by rewrite app_nil_r, set_collections_same].
  destruct (json_getitem loaded_val "added") as [added|e]; simpl;
    [|by rewrite app_nil_r, set_collections_same].
  destruct (json_getitem loaded_val "name") as [name|e]; simpl;
    [|by rewrite app_nil_r, set_collections_same].
  destruct (hashable name); simpl; [done|].
  by rewrite app_nil_r, set_collections_same.
Qed.

Lemma collections_entries_run (ext : Collaborators) (entries : list string)
    (self : ProtobufClient) :
  for_each entries (fun value =>
    try_except
      (loaded_val ← lift (json_loads ext value);
       added ← lift (json_getitem loaded_val "added");
       name ← lift (json_getitem loaded_val "name");
       if hashable name
       then modify (fun self =>
              set_collections (collections self ++ [(name, added)]) self)
       else raise TypeError)
      (fun _ => true)
      (fun _ => ret tt)) self
  = (Ok tt,
     set_collections
       (collections self ++ omap (collection_of ext) entries) self).
Proof.
  revert self. induction entries as [|value entries IH]; intros self.
  - simpl. by rewrite app_nil_r, set_collections_same.
  - cbn [for_each]. unfold bind at 1. rewrite collections_entry_run.
    rewrite IH, collections_set_collections, set_collections_twice.
    rewrite <- app_assoc. f_equal. f_equal. f_equal.
    simpl. by destruct (collection_of ext value).
Qed.

(** X6. Once the body of a collections download parses, processing it
    cannot fail: every entry that is a JSON document with an [added] and a
    hashable [name] key is assigned, in message order, every other entry
    is skipped silently, and the event is set at the end. *)
Theorem collections_response_skips_bad_entries (ext : Collaborators)
    (body : bytes) (message : CCloudConfigStore_Download_Response.t)
    (self : ProtobufClient) :
  parse_CloudConfigStore_Download ext body = Ok message ->
  _process_collections_response ext body self
  = (Ok tt,
     set_collections_event true
       (set_collections
          (collections self
           ++ omap (collection_of ext)
                (concat (CCloudConfigStore_Download_Response.data message)))
          self)).
Proof.
  intros Hparse. unfold _process_collections_response.
  unfold bind at 1, lift at 1. rewrite Hparse.
  assert (forall groups (self0 : ProtobufClient),
            for_each groups (fun entries =>
              for_each entries (fun value =>
                try_except
                  (loaded_val ← lift (json_loads ext value);
                   added ← lift (json_getitem loaded_val "added");
                   name ← lift (json_getitem loaded_val "name");
                   if hashable name
                   then modify (fun self =>
                          set_collections
                            (collections self ++ [(name, added)]) self)
                   else raise TypeError)
                  (fun _ => true)
                  (fun _ => ret tt))) self0
            = (Ok tt,
               set_collections
                 (collections self0 ++ omap (collection_of ext) (concat groups))
                 self0)) as Hgroups.
  { induction groups as [|entries groups IH]; intros self0.
    - simpl. by rewrite app_nil_r, set_collections_same.
    - cbn [for_each]. unfold bind at 1. rewrite collections_entries_run.
      rewrite IH, collections_set_collections, set_collections_twice.
      cbn [concat]. by rewrite omap_app, app_assoc. }
  unfold bind. by rewrite Hgroups.
Qed.

Lemma collections_response_skips_bad_entries_witness :
  _process_collections_response collections_examples [x00] Fixture.client
  = (Ok tt,
     set_collections_event true
       (set_collections
          [(JStr "Favourites", JArr [JInt 730; JInt 440])] Fixture.client)).
Proof.
  apply (collections_response_skips_bad_entries collections_examples [x00]
           collections_example Fixture.client).
  reflexivity.
Defined.

(** ** The footprint of the inbound half *)

Lemma upd_ret {A} (a : A) : only_updates (ret a).
Proof. by intros self. Qed.

Lemma upd_raise {A} (e : exn) : only_updates (raise (A := A) e).
Proof. by intros self. Qed.

Lemma upd_lift {A} (r : result A) : only_updates (lift r).
Proof. by intros self. Qed.

Lemma upd_get : only_updates get.
Proof. by intros self. Qed.

Lemma upd_bind {A B} (m : M A) (k : A -> M B) :
  only_updates m -> (forall a, only_updates (k a)) -> only_updates (bind m k).
Proof.
  intros Hm Hk self. unfold bind. specialize (Hm self).
  destruct (m self) as [[a|e] self']; simpl in *; [|done].
  etrans; [exact Hm|apply Hk].
Qed.

Lemma upd_try_except {A} (body : M A) (catches : exn -> bool)
    (handler : exn -> M A) :
  only_updates body -> (forall e, only_updates (handler e)) ->
  only_updates (try_except body catches handler).
Proof.
  intros Hb Hh self. unfold try_except. specialize (Hb self).
  destruct (body self) as [[a|e] self']; simpl in *; [done|].
  destruct (catches e); [|done]. etrans; [exact Hb|apply Hh].
Qed.

Lemma upd_for_each {A} (xs : list A) (body : A -> M unit) :
  (forall x, only_updates (body x)) -> only_updates (for_each xs body).
Proof.
  intros Hbody. induction xs as [|x xs IH]; simpl.
  - apply upd_ret.
  - apply upd_bind; [apply Hbody|]. by intros _.
Qed.

Lemma upd_fold_each {A B} (xs : list A) (body : B -> A -> M B) :
  (forall acc x, only_updates (body acc x)) ->
  forall acc, only_updates (fold_each xs acc body).
Proof.
  intros Hbody. induction xs as [|x xs IH]; intros acc; simpl.
  - apply upd_ret.
  - apply upd_bind; [apply Hbody|]. apply IH.
Qed.

Lemma upd_modify (f : ProtobufClient -> ProtobufClient) :
  (forall self, update self (f self)) -> only_updates (modify f).
Proof. intros Hf self. apply rtc_once, Hf. Qed.

Lemma upd_log (level : loglevel) (template : string) :
  only_updates (log level template).
Proof. apply upd_modify. intros self. apply update_trace. Qed.

Lemma upd_await {A} (f : callee A) (ev : event) (args : A) :
  only_updates (await f ev args).
Proof. intros self. rewrite await_run. apply rtc_once, update_trace. Qed.

Lemma upd_await_handler (h : option (callee call)) (c : call) :
  only_updates (await_handler h c).
Proof. destruct h; [apply upd_await|apply upd_raise]. Qed.

Lemma upd_await_if_set (h : option (callee call)) (c : call) :
  only_updates (await_if_set h c).
Proof. destruct h; [apply upd_await|apply upd_ret]. Qed.

Lemma upd_cancel (t : nat) : only_updates (cancel t).
Proof. apply upd_modify. intros self. apply update_cancel. Qed.

Lemma upd_create_heartbeat_task (seconds : Z) :
  only_updates (create_heartbeat_task seconds).
Proof. apply upd_modify. intros self. apply update_new_task. Qed.

Lemma upd_set_collections_event :
  only_updates (modify (set_collections_event true)).
Proof. apply upd_modify. intros self. apply update_collections_event. Qed.

Lemma upd_set_session_id (v : Z) :
  only_updates (modify (set_session_id (Some v))).
Proof. apply upd_modify. intros self. apply update_session_id. Qed.

Lemma upd_add_collection (item : json * json) :
  only_updates
    (modify (fun self => set_collections (collections self ++ [item]) self)).
Proof. apply upd_modify. intros self. apply update_collections. Qed.

#[local] Hint Resolve upd_ret upd_raise upd_lift upd_get upd_log upd_await
  upd_await_handler upd_await_if_set upd_cancel upd_create_heartbeat_task
  upd_set_collections_event upd_set_session_id upd_add_collection : updates.

Ltac updates :=
  repeat first
    [ updates_step
    | apply upd_bind; [|intros ?]
    | apply upd_try_except; [|intros ?]
    | apply upd_for_each; intros ?
    | apply upd_fold_each; intros ? ? ].

Lemma upd__send_serialized (ext : Collaborators) (emsg : Z) (body : bytes)
    (source target : option Z) (name : option string) :
  only_updates (_send_serialized ext emsg body source target name).
Proof. unfold _send_serialized. updates. Qed.

Lemma upd__send (ext : Collaborators) (emsg : Z) (message : out_message)
    (source target : option Z) (name : option string) :
  only_updates (_send ext emsg message source target name).
Proof. unfold _send. updates. Qed.

#[local] Hint Resolve upd__send upd__send_serialized : updates.

Lemma upd_get_apps_info (ext : Collaborators) (app_ids : list vdf) :
  only_updates (get_apps_info ext app_ids).
Proof. unfold get_apps_info. updates. Qed.

#[local] Hint Resolve upd_get_apps_info : updates.

Lemma upd_process_message (ext : Collaborators)
    (process_packet : bytes -> M unit) (emsg : Z)
    (header : CMsgProtoBufHeader.t) (body : bytes) :
  (forall packet, only_updates (process_packet packet)) ->
  only_updates (_process_message ext process_packet emsg header body).
Proof.
  intros Hpp. unfold _process_message.
  destruct (emsg =? EMsg_Multi ext).
  { unfold _process_multi.
    apply upd_bind; [apply upd_lift|]. intros message.
    apply upd_bind; [apply upd_lift|]. intros data.
    generalize 0. induction (length data) as [|turns IH]; intros offset; simpl.
    - apply upd_ret.
    - destruct (offset + 4 <=? len data); [|apply upd_ret].
      apply upd_bind; [apply upd_lift|]. intros size.
      apply upd_bind; [apply Hpp|]. intros _. apply IH. }
  unfold _process_client_log_on_response, _process_client_log_off,
    _process_client_friend_list, friend_list_entry,
    _process_client_persona_state, persona_state_user, rich_presence_element,
    _process_license_list, license_list_entry,
    _process_package_info_response, package_info_entry, app_info_entry,
    _process_user_stats_response, user_stats_block, user_stats_slot,
    _process_service_method_response, _process_rich_presence_translations,
    _process_user_time_response, _process_collections_response.
  repeat match goal with
         | |- only_updates (if ?c then _ else _) => destruct c
         end; updates.
Qed.

Lemma upd_process_packet (ext : Collaborators) (depth : nat) :
  forall packet, only_updates (_process_packet ext depth packet).
Proof.
  induction depth as [|depth IH]; intros packet; simpl.
  - apply upd_raise.
  - unfold process_packet_body, note_session_id.
    apply upd_bind; [destruct (len packet <? 8); auto with updates|].
    intros _. apply upd_bind; [apply upd_lift|]. intros raw.
    destruct (negb _); [|apply upd_log].
    apply upd_bind; [apply upd_lift|]. intros header_len.
    apply upd_bind; [apply upd_lift|]. intros header.
    apply upd_bind; [updates|]. intros _.
    by apply upd_process_message.
Qed.

Lemma upd_process_packets (ext : Collaborators) (depth : nat)
    (packets : list bytes) :
  only_updates (process_packets ext depth packets).
Proof. apply upd_for_each, upd_process_packet. Qed.

Lemma rtc_update_inv (P : ProtobufClient -> ProtobufClient -> Prop) :
  (forall a, P a a) ->
  (forall a b c, P a b -> P b c -> P a c) ->
  (forall a b, update a b -> P a b) ->
  forall a b, rtc update a b -> P a b.
Proof.
  intros Hrefl Htrans Hstep a b Hab.
  induction Hab as [a|a b c Hab _ IH]; [apply Hrefl|].
  eapply Htrans; [apply Hstep, Hab|exact IH].
Qed.

Lemma same_wiring_of_updates (a b : ProtobufClient) :
  rtc update a b -> same_wiring a b.
Proof.
  apply (rtc_update_inv same_wiring).
  - intros c. by repeat split.
  - unfold same_wiring. intros c d e Hcd Hde.
    destruct_and!. repeat split; congruence.
  - intros c d []; destruct self; by repeat split.
Qed.

(** X7. Whatever the packets hold and however their processing ends, the
    inbound half leaves the socket, the steam id, the miniprofile id and
    all ten handlers of the client as they were. *)
Theorem inbound_keeps_ids_and_handlers (ext : Collaborators) (depth : nat)
    (packets : list bytes) (self : ProtobufClient) :
  same_wiring self (snd (process_packets ext depth packets self)).
Proof. apply same_wiring_of_updates, upd_process_packets. Qed.

(** X8. The inbound half only ever adds heartbeat tasks or cancels them:
    over any sequence of packets a task stays where it is with its
    interval, and a cancelled task stays cancelled. *)
Theorem inbound_keeps_heartbeat_tasks (ext : Collaborators) (depth : nat)
    (packets : list bytes) (self : ProtobufClient) :
  tasks_kept self (snd (process_packets ext depth packets self)).
Proof.
  apply (rtc_update_inv tasks_kept); [| | |apply upd_process_packets].
  - intros a t k Hk. by exists k.
  - intros a b c Hab Hbc t k Hk.
    destruct (Hab t k Hk) as (k1 & Hk1 & Hi1 & Hc1).
    destruct (Hbc t k1 Hk1) as (k2 & Hk2 & Hi2 & Hc2).
    exists k2. split; [done|]. split; [congruence|auto].
  - intros a b Hab t k Hk.
    destruct Hab as [ev a|v a|item a|a|seconds a|t' a].
    + exists k. by destruct a.
    + exists k. by destruct a.
    + exists k. by destruct a.
    + exists k. by destruct a.
    + exists k. split; [|done]. destruct a; simpl in *.
      by apply lookup_app_l_Some.
    + rewrite cancelled_at_tasks.
      destruct (decide (t' = t)) as [->|Hne].
      * exists (cancelled_task k). rewrite list_lookup_alter_eq, Hk. done.
      * exists k. by rewrite list_lookup_alter_ne.
Qed.

(** X9. The inbound half never deletes from the collections: over any
    sequence of packets a name that has a value keeps one (a later
    download may replace the value), and the event, once set, is never
    cleared. *)
Theorem inbound_keeps_collections (ext : Collaborators) (depth : nat)
    (packets : list bytes) (self : ProtobufClient) :
  collections_kept self (snd (process_packets ext depth packets self)).
Proof.
  apply (rtc_update_inv collections_kept); [| | |apply upd_process_packets].
  - intros a. by split.
  - intros a b c [Hab Hab'] [Hbc Hbc']. split; [|auto].
    intros name Hname. by apply Hbc, Hab.
  - intros a b Hab. unfold collections_kept, has_collection.
    destruct Hab as [ev a|v a|item a|a|seconds a|t a]; destruct a; simpl;
      split; try done.
    intros name [added Hin]. exists added. apply elem_of_app. by left.
Qed.

(** ** Logon and logoff *)

Lemma alter_last {A} (f : A -> A) (l : list A) (x : A) :
  alter f (length l) (l ++ [x]) = l ++ [f x].
Proof.
  induction l as [|y l IH]; [done|]. simpl. f_equal. exact IH.
Qed.

(** X10. A logon response with the result OK followed by a logoff: the
    heartbeat task the first creates is the one the second cancels, so the
    assertion of the logoff holds; both handlers hear their result in that
    order, and the tasks that existed before are untouched. *)
Theorem logon_then_logoff_cancels_the_new_task (ext : Collaborators)
    (logon_body logoff_body : bytes) (logon : CMsgClientLogonResponse.t)
    (logoff : CMsgClientLoggedOff.t) (f g : callee call)
    (self : ProtobufClient) :
  parse_LogonResponse ext logon_body = Ok logon ->
  CMsgClientLogonResponse.eresult logon = EResult_OK ext ->
  parse_LoggedOff ext logoff_body = Ok logoff ->
  log_on_handler self = Some f -> log_off_handler self = Some g ->
  f (trace self) (call_log_on_handler (EResult_OK ext)) = None ->
  (_process_client_log_on_response ext logon_body;;
   _process_client_log_off ext logoff_body) self
  = (outcome_of
       (g (trace self ++ [Call (call_log_on_handler (EResult_OK ext))])
          (call_log_off_handler (CMsgClientLoggedOff.eresult logoff))),
     set_trace
       (trace self
        ++ [Call (call_log_on_handler (EResult_OK ext));
            Call (call_log_off_handler (CMsgClientLoggedOff.eresult logoff))])
       (set_heartbeat_task (Some (length (tasks self)))
          (set_tasks
             (tasks self
              ++ [{| interval :=
                       CMsgClientLogonResponse.out_of_game_heartbeat_seconds
                         logon;
                     cancelled := true |}])
             self))).
Proof.
  intros Hlogon Hok Hlogoff Hf Hg Hreturns.
  unfold _process_client_log_on_response, _process_client_log_off,
    create_heartbeat_task, cancel, cancelled_at, bind, lift, get, modify.
  rewrite Hlogon, Hok, Z.eqb_refl, Hlogoff.
  destruct self as [socket h0 h1 h2 h3 h4 h5 h6 h7 h8 h9 sid mid hb ses ev col
                      tks tr].
  simpl in *. subst h0 h1. simpl. rewrite !await_run. simpl.
  rewrite Hreturns. simpl. rewrite await_run. simpl.
  by rewrite alter_last, <- app_assoc.
Qed.

(** ** License lists before logon *)

(** X11. A license list that arrives while no miniprofile id is stored
    (before [log_on]) cannot be filtered: unless the list is empty, the
    comparison with the owner id raises [TypeError] at the first entry and
    the handler is not called. An empty list is forwarded as it is. *)
Theorem license_list_needs_miniprofile_id (ext : Collaborators) (body : bytes)
    (message : CMsgClientLicenseList.t) (f : callee call)
    (self : ProtobufClient) :
  parse_LicenseList ext body = Ok message ->
  license_import_handler self = Some f ->
  _miniprofile_id self = None ->
  _process_license_list ext body self
  = match CMsgClientLicenseList.licenses message with
    | [] => delivered f (call_license_import_handler []) self
    | _ :: _ => (Raise TypeError, self)
    end.
Proof.
  intros Hparse Hf Hnone. unfold _process_license_list.
  unfold bind at 1, get at 1. rewrite Hf.
  unfold bind at 1, lift at 1. rewrite Hparse.
  destruct (CMsgClientLicenseList.licenses message) as [|license rest].
  - simpl. unfold bind, ret, get. rewrite Hf. apply await_handler_set.
  - cbn [fold_each]. unfold license_list_entry at 1.
    unfold bind, get. by rewrite Hnone.
Qed.

(** ** Product information *)

Lemma package_info_handler_set_trace (t : list event) (self : ProtobufClient) :
  package_info_handler (set_trace t self) = package_info_handler self.
Proof. by destruct self. Qed.

Lemma app_info_handler_set_trace (t : list event) (self : ProtobufClient) :
  app_info_handler (set_trace t self) = app_info_handler self.
Proof. by destruct self. Qed.

Lemma packages_zero_fold (ext : Collaborators)
    (packages : list CMsgClientPICSProductInfoResponse.PackageInfo)
    (f : callee call) :
  Forall (fun info => CMsgClientPICSProductInfoResponse.packageid info = 0)
    packages ->
  always_returns f ->
  forall (apps_to_parse : list vdf) (self : ProtobufClient),
    package_info_handler self = Some f ->
    fold_each packages apps_to_parse (package_info_entry ext) self
    = (Ok apps_to_parse,
       set_trace
         (trace self ++ concat (map (fun _ => skipped_package) packages))
         self).
Proof.
  intros Hzero Hf. induction Hzero as [|info packages Hinfo _ IH];
    intros apps_to_parse self Hhandler.
  - simpl. by rewrite app_nil_r, set_trace_trace.
  - cbn [fold_each]. unfold bind at 1. unfold package_info_entry at 1.
    cbv zeta. rewrite Hinfo. unfold bind at 1, get at 1.
    unfold bind at 1. rewrite Hhandler, await_handler_set.
    unfold delivered. rewrite Hf. cbn [outcome_of]. rewrite Z.eqb_refl.
    unfold bind at 1. rewrite log_run. unfold ret at 1.
    rewrite trace_set_trace, set_trace_set_trace.
    rewrite IH by (by rewrite package_info_handler_set_trace).
    rewrite trace_set_trace, set_trace_set_trace.
    cbn [map concat]. unfold skipped_package at 2.
    by rewrite <- !app_assoc.
Qed.

Lemma package_zero_entry_run (ext : Collaborators)
    (info : CMsgClientPICSProductInfoResponse.PackageInfo) (f : callee call)
    (apps_to_parse : list vdf) (self : ProtobufClient) :
  CMsgClientPICSProductInfoResponse.packageid info = 0 ->
  package_info_handler self = Some f -> always_returns f ->
  package_info_entry ext apps_to_parse info self
  = (Ok apps_to_parse, set_trace (trace self ++ skipped_package) self).
Proof.
  intros Hinfo Hhandler Hf. unfold package_info_entry.
  cbv zeta. rewrite Hinfo. unfold bind at 1, get at 1.
  unfold bind at 1. rewrite Hhandler, await_handler_set.
  unfold delivered. rewrite Hf. cbn [outcome_of]. rewrite Z.eqb_refl.
  unfold bind at 1. rewrite log_run. unfold ret at 1.
  rewrite trace_set_trace, set_trace_set_trace.
  unfold skipped_package. by rewrite <- app_assoc.
Qed.

Lemma upd_package_info_entry (ext : Collaborators) (apps_to_parse : list vdf)
    (info : CMsgClientPICSProductInfoResponse.PackageInfo) :
  only_updates (package_info_entry ext apps_to_parse info).
Proof. unfold package_info_entry. updates. Qed.

(** X12. An entry for package 0, wherever it stands among the package
    entries of a product-info response, is reported to the package handler
    and then skipped: the response is processed as the entries before it,
    the two events of the entry (the call and the log line), and the
    entries after it; its buffer is not parsed and the apps collected go
    past it untouched. A response that holds only such entries and no app
    entry sends no request. *)
Theorem packages_with_id_zero_are_skipped (ext : Collaborators) (body : bytes)
    (message : CMsgClientPICSProductInfoResponse.t) (f : callee call)
    (self : ProtobufClient) :
  parse_PICSProductInfoResponse ext body = Ok message ->
  package_info_handler self = Some f -> always_returns f ->
  (forall pre info post,
     CMsgClientPICSProductInfoResponse.packages message = pre ++ info :: post ->
     CMsgClientPICSProductInfoResponse.packageid info = 0 ->
     _process_package_info_response ext body self
     = (apps_to_parse ← packages_around_zero ext pre post;
        for_each (CMsgClientPICSProductInfoResponse.apps message)
          (app_info_entry ext);;
        if 0 <? len apps_to_parse then
          log INFO
            "Apps to parse {apps_to_parse}, {len(apps_to_parse)} entries";;
          get_apps_info ext apps_to_parse
        else ret tt) self)
  /\ (Forall (fun info => CMsgClientPICSProductInfoResponse.packageid info = 0)
        (CMsgClientPICSProductInfoResponse.packages message) ->
      CMsgClientPICSProductInfoResponse.apps message = [] ->
      _process_package_info_response ext body self
      = (Ok tt,
         set_trace
           (trace self
            ++ concat (map (fun _ => skipped_package)
                         (CMsgClientPICSProductInfoResponse.packages message)))
           self)).
Proof.
  intros Hparse Hhandler Hf. split.
  - intros pre info post Hpackages Hinfo.
    assert (fold_each (pre ++ info :: post) [] (package_info_entry ext) self
            = packages_around_zero ext pre post self) as Hloop.
    { rewrite fold_each_app. unfold packages_around_zero, bind.
      pose proof (same_wiring_of_updates self
                    (snd (fold_each pre [] (package_info_entry ext) self))
                    (upd_fold_each pre (package_info_entry ext)
                       (upd_package_info_entry ext) [] self)) as Hwiring.
      destruct (fold_each pre [] (package_info_entry ext) self)
        as [[acc|e] self1]; [|reflexivity].
      simpl in Hwiring.
      assert (package_info_handler self1 = Some f) as Hhandler1.
      { unfold same_wiring in Hwiring. destruct_and!. congruence. }
      cbn [fold_each]. unfold bind.
      by rewrite (package_zero_entry_run ext info f acc self1 Hinfo
                    Hhandler1 Hf). }
    unfold _process_package_info_response.
    unfold bind at 1, lift at 1. rewrite Hparse, Hpackages.
    unfold bind at 1. rewrite Hloop. reflexivity.
  - intros Hzero Happs.
    unfold _process_package_info_response.
    unfold bind at 1, lift at 1. rewrite Hparse.
    unfold bind at 1. rewrite (packages_zero_fold ext _ f Hzero Hf) by done.
    rewrite Happs. reflexivity.
Qed.

Lemma packages_with_id_zero_are_skipped_witness :
  _process_package_info_response mixed_package_examples [x00] Fixture.client
  = (apps_to_parse ← packages_around_zero mixed_package_examples []
                       [package_17_entry];
     for_each (CMsgClientPICSProductInfoResponse.apps mixed_package_response)
       (app_info_entry mixed_package_examples);;
     if 0 <? len apps_to_parse then
       log INFO "Apps to parse {apps_to_parse}, {len(apps_to_parse)} entries";;
       get_apps_info mixed_package_examples apps_to_parse
     else ret tt) Fixture.client
  /\ _process_package_info_response handler_examples [x02] Fixture.client
     = (Ok tt, set_trace skipped_package Fixture.client).
Proof.
  split.
  - refine (proj1 (packages_with_id_zero_are_skipped mixed_package_examples
                     [x00] mixed_package_response Fixture.returns
                     Fixture.client _ _ _)
              [] package_0_entry [package_17_entry] _ _);
      try reflexivity.
    by intros tr a.
  - refine (proj2 (packages_with_id_zero_are_skipped handler_examples [x02]
                     package_info_example Fixture.returns Fixture.client
                     _ _ _) _ _);
      try reflexivity.
    + by intros tr a.
    + repeat constructor.
Defined.

(** The response with package 0 before package 17: package 0 is reported
    and skipped, package 17 and its two apps are reported, and the apps
    are requested. *)
Example package_zero_before_package_17 :
  trace (snd (_process_package_info_response mixed_package_examples [x00]
                Fixture.client))
  = skipped_package
    ++ [Call (call_package_info_handler 17);
        Call (call_app_info_handler 730 None None);
        Call (call_app_info_handler 440 None None);
        Log INFO "Apps to parse {apps_to_parse}, {len(apps_to_parse)} entries";
        Log INFO "Sending call {EMsg.PICSProductInfoRequest} with {app_ids}";
        Send (wire_frame 8903 [] [])].
Proof. vm_compute. reflexivity. Qed.

(** X13. How an app entry is classified, for a handler that returns. An
    app whose type is [game] up to case and that has a name is reported as a
    game with its title. Every other readable entry is reported as not a
    game, without a title: an app of another type, an app whose type cannot
    be looked up, and also a game whose name is missing. *)
Theorem app_entry_classification (ext : Collaborators)
    (info : CMsgClientPICSProductInfoResponse.AppInfo) (content v : vdf)
    (appid : Z) (f : callee call) (self : ProtobufClient) :
  vdf_loads ext
    (slice_but_last (CMsgClientPICSProductInfoResponse.app_buffer info))
    = Ok content ->
  getpath content ["appinfo"; "appid"] = Ok v -> py_int ext v = Ok appid ->
  app_info_handler self = Some f -> always_returns f ->
  let reports title :=
    app_info_entry ext info self
    = (Ok tt, set_trace (trace self ++ [Call (reported_app appid title)]) self)
  in
  (forall t title,
     getpath content ["appinfo"; "common"; "type"] = Ok t ->
     lower (str_lower ext) t = Ok "game" ->
     getpath content ["appinfo"; "common"; "name"] = Ok title ->
     reports (Some title))
  /\ (forall t kind,
        getpath content ["appinfo"; "common"; "type"] = Ok t ->
        lower (str_lower ext) t = Ok kind -> kind <> "game" ->
        reports None)
  /\ (getpath content ["appinfo"; "common"; "type"] = Raise KeyError ->
      reports None)
  /\ (forall t,
        getpath content ["appinfo"; "common"; "type"] = Ok t ->
        lower (str_lower ext) t = Ok "game" ->
        getpath content ["appinfo"; "common"; "name"] = Raise KeyError ->
        reports None).
Proof.
  intros Hcontent Hv Happid Hhandler Hf reports. subst reports. cbv beta.
  unfold app_info_entry. unfold bind at 1, lift at 1. rewrite Hcontent.
  cbv zeta. unfold try_except.
  repeat split.
  - intros t title Ht Hkind Htitle.
    unfold bind, lift, get. rewrite Ht, Hkind. simpl.
    rewrite Hv, Happid, Htitle, Hhandler, await_handler_set.
    unfold delivered. by rewrite Hf.
  - intros t kind Ht Hkind Hne.
    unfold bind, lift, get. rewrite Ht, Hkind.
    apply String.eqb_neq in Hne. rewrite Hne.
    rewrite Hv, Happid, Hhandler, await_handler_set.
    unfold delivered. by rewrite Hf.
  - intros Ht.
    unfold bind, lift, get. rewrite Ht. simpl.
    rewrite Hv, Happid, Hhandler, await_handler_set.
    unfold delivered. by rewrite Hf.
  - intros t Ht Hkind Htitle.
    unfold bind, lift, get. rewrite Ht, Hkind. simpl.
    rewrite Hv, Happid, Htitle. simpl.
    rewrite Hhandler, await_handler_set.
    unfold delivered. by rewrite Hf.
Qed.

(** X14. The [except KeyError] around the classification also covers the
    call to the handler: when the handler raises [KeyError] for a game, the
    exception is taken for an unknown type and the handler is called a
    second time, for the same app as not a game. *)
Theorem handler_key_error_is_taken_for_unknown_type (ext : Collaborators)
    (info : CMsgClientPICSProductInfoResponse.AppInfo) (content v t title : vdf)
    (appid : Z) (f : callee call) (self : ProtobufClient) :
  vdf_loads ext
    (slice_but_last (CMsgClientPICSProductInfoResponse.app_buffer info))
    = Ok content ->
  getpath content ["appinfo"; "appid"] = Ok v -> py_int ext v = Ok appid ->
  getpath content ["appinfo"; "common"; "type"] = Ok t ->
  lower (str_lower ext) t = Ok "game" ->
  getpath content ["appinfo"; "common"; "name"] = Ok title ->
  app_info_handler self = Some f ->
  f (trace self) (reported_app appid (Some title)) = Some KeyError ->
  app_info_entry ext info self
  = delivered f (reported_app appid None)
      (set_trace (trace self ++ [Call (reported_app appid (Some title))]) self).
Proof.
  intros Hcontent Hv Happid Ht Hkind Htitle Hhandler Hraises.
  unfold app_info_entry. unfold bind at 1, lift at 1. rewrite Hcontent.
  cbv zeta. unfold try_except.
  unfold bind, lift, get. rewrite Ht, Hkind. simpl.
  rewrite Hv, Happid, Htitle, Hhandler, await_handler_set.
  unfold delivered at 1. simpl in Hraises. rewrite Hraises. simpl.
  rewrite app_info_handler_set_trace, Hhandler. apply await_handler_set.
Qed.

(** ** Product-info requests *)

Lemma stamped_header_set_trace (t : list event) (self : ProtobufClient)
    (source target : option Z) (name : option string) :
  stamped_header (set_trace t self) source target name
  = stamped_header self source target name.
Proof. by destruct self. Qed.

Lemma request_frame_set_trace (ext : Collaborators) (t : list event)
    (self : ProtobufClient) (emsg : Z) (source target : option Z)
    (name : option string) (body : bytes) :
  request_frame ext (set_trace t self) emsg source target name body
  = request_frame ext self emsg source target name body.
Proof. unfold request_frame. by rewrite stamped_header_set_trace. Qed.

Lemma ids_fit_set_trace (t : list event) (self : ProtobufClient) :
  ids_fit self -> ids_fit (set_trace t self).
Proof. by destruct self. Qed.

Lemma socket_set_trace (t : list event) (self : ProtobufClient) :
  _socket (set_trace t self) = _socket self.
Proof. by destruct self. Qed.

Lemma assign_uint32_fold (ids acc : list Z) (self : ProtobufClient) :
  Forall is_uint32 ids ->
  fold_each (map VInt ids) acc
    (fun apps app_id => appid ← lift (assign_uint32 app_id);
                        ret (apps ++ [appid])) self
  = (Ok (acc ++ ids), self).
Proof.
  intros Hids. revert acc.
  induction Hids as [|z ids Hz _ IH]; intros acc; simpl.
  - by rewrite app_nil_r.
  - unfold bind at 1, lift at 1. unfold check_uint.
    destruct Hz as [Hz0 Hz1].
    destruct (Z.leb_spec 0 z); [|lia].
    destruct (Z.ltb_spec z (2 ^ 32)); [|lia]. simpl.
    unfold bind at 1, ret at 1. rewrite IH. by rewrite <- app_assoc.
Qed.

Lemma assign_uint32_fold_fails (ids : list vdf) (acc : list Z)
    (self : ProtobufClient) :
  ~ Forall (fun v => exists z, assign_uint32 v = Ok z) ids ->
  exists e,
    fold_each ids acc
      (fun apps app_id => appid ← lift (assign_uint32 app_id);
                          ret (apps ++ [appid])) self
    = (Raise e, self).
Proof.
  revert acc. induction ids as [|v ids IH]; intros acc Hbad.
  - destruct Hbad. constructor.
  - simpl. unfold bind at 1, lift at 1.
    destruct (assign_uint32 v) as [z|e] eqn:Hv; [|by exists e].
    unfold bind at 1, ret at 1. apply IH. intros Hrest. apply Hbad.
    constructor; [by exists z|exact Hrest].
Qed.

Lemma get_apps_info_run (ext : Collaborators) (ids : list Z)
    (self : ProtobufClient) :
  Forall is_uint32 ids -> ids_fit self ->
  0 <= EMsg_PICSProductInfoRequest ext < 2 ^ 31 ->
  header_fits ext (stamped_header self None None None) ->
  get_apps_info ext (map VInt ids) self
  = (outcome_of
       (_socket self
          (trace self
           ++ [Log INFO
                 "Sending call {EMsg.PICSProductInfoRequest} with {app_ids}"])
          (request_frame ext self (EMsg_PICSProductInfoRequest ext)
             None None None
             (serialize ext (CMsgClientPICSProductInfoRequest [] ids)))),
     set_trace
       (trace self
        ++ product_info_request ext self
             "Sending call {EMsg.PICSProductInfoRequest} with {app_ids}"
             [] ids)
       self).
Proof.
  intros Hids Hfit Hemsg Hlen. unfold get_apps_info.
  unfold bind at 1. rewrite log_run.
  unfold bind at 1. rewrite (assign_uint32_fold ids [] _ Hids). simpl app.
  rewrite _send_serialize, _send_serialized_run;
    [|by apply ids_fit_set_trace|exact I|exact I|exact Hemsg
     |by rewrite stamped_header_set_trace].
  unfold sent, product_info_request.
  rewrite request_frame_set_trace, socket_set_trace, trace_set_trace,
    set_trace_set_trace.
  by rewrite <- app_assoc.
Qed.

Lemma get_packages_info_run (ext : Collaborators) (ids : list Z) (self : ProtobufClient) :
  Forall is_uint32 ids -> ids_fit self ->
  0 <= EMsg_PICSProductInfoRequest ext < 2 ^ 31 ->
  header_fits ext (stamped_header self None None None) ->
  get_packages_info ext (map VInt ids) self
  = (outcome_of
       (_socket self
          (trace self
           ++ [Log INFO
                 "Sending call {EMsg.PICSProductInfoRequest} with {package_ids}"])
          (request_frame ext self (EMsg_PICSProductInfoRequest ext)
             None None None
             (serialize ext (CMsgClientPICSProductInfoRequest ids [])))),
     set_trace
       (trace self
        ++ product_info_request ext self
             "Sending call {EMsg.PICSProductInfoRequest} with {package_ids}"
             ids [])
       self).
Proof.
  intros Hids Hfit Hemsg Hlen. unfold get_packages_info.
  unfold bind at 1. rewrite log_run.
  unfold bind at 1. rewrite (assign_uint32_fold ids [] _ Hids). simpl app.
  rewrite _send_serialize, _send_serialized_run;
    [|by apply ids_fit_set_trace|exact I|exact I|exact Hemsg
     |by rewrite stamped_header_set_trace].
  unfold sent, product_info_request.
  rewrite request_frame_set_trace, socket_set_trace, trace_set_trace,
    set_trace_set_trace.
  by rewrite <- app_assoc.
Qed.

(** X15. A product-info request is all or nothing. When every id is an
    [int] of 32 unsigned bits, [get_packages_info] and [get_apps_info] log
    the call and send one frame that carries all the ids in the order
    given. When one id is not, the assignment raises after the log line
    and nothing is sent. *)
Theorem product_info_request_is_all_or_nothing (ext : Collaborators)
    (self : ProtobufClient) :
  ids_fit self ->
  0 <= EMsg_PICSProductInfoRequest ext < 2 ^ 31 ->
  header_fits ext (stamped_header self None None None) ->
  (forall ids,
     Forall is_uint32 ids ->
     trace (snd (get_packages_info ext (map VInt ids) self))
     = trace self
       ++ product_info_request ext self
            "Sending call {EMsg.PICSProductInfoRequest} with {package_ids}"
            ids []
     /\ trace (snd (get_apps_info ext (map VInt ids) self))
        = trace self
          ++ product_info_request ext self
               "Sending call {EMsg.PICSProductInfoRequest} with {app_ids}"
               [] ids)
  /\ (forall ids,
        ~ Forall (fun v => exists z, assign_uint32 v = Ok z) ids ->
        (exists e,
           get_packages_info ext ids self
           = (Raise e,
              set_trace
                (trace self
                 ++ [Log INFO
                       "Sending call {EMsg.PICSProductInfoRequest} with {package_ids}"])
                self))
        /\ (exists e,
              get_apps_info ext ids self
              = (Raise e,
                 set_trace
                   (trace self
                    ++ [Log INFO
                          "Sending call {EMsg.PICSProductInfoRequest} with {app_ids}"])
                   self))).
Proof.
  intros Hfit Hemsg Hlen. split.
  - intros ids Hids. split.
    + rewrite get_packages_info_run by assumption. apply trace_set_trace.
    + rewrite get_apps_info_run by assumption. apply trace_set_trace.
  - intros ids Hbad. split.
    + unfold get_packages_info. unfold bind at 1. rewrite log_run.
      unfold bind at 1.
      destruct (assign_uint32_fold_fails ids []
                  (set_trace
                     (trace self
                      ++ [Log INFO
                            "Sending call {EMsg.PICSProductInfoRequest} with {package_ids}"])
                     self) Hbad) as [e He].
      rewrite He. by exists e.
    + unfold get_apps_info. unfold bind at 1. rewrite log_run.
      unfold bind at 1.
      destruct (assign_uint32_fold_fails ids []
                  (set_trace
                     (trace self
                      ++ [Log INFO
                            "Sending call {EMsg.PICSProductInfoRequest} with {app_ids}"])
                     self) Hbad) as [e He].
      rewrite He. by exists e.
Qed.

Lemma product_info_request_is_all_or_nothing_witness :
  trace (snd (get_packages_info (Fixture.collaborators [])
                (map VInt [1; 2; 3]) Fixture.client))
  = [Log INFO "Sending call {EMsg.PICSProductInfoRequest} with {package_ids}";
     Send (wire_frame 8903 [] [])]
  /\ exists e,
       get_apps_info (Fixture.collaborators []) [VInt 730; VStr "440"]
         Fixture.client
       = (Raise e,
          set_trace
            [Log INFO
               "Sending call {EMsg.PICSProductInfoRequest} with {app_ids}"]
            Fixture.client).
Proof.
  destruct (product_info_request_is_all_or_nothing (Fixture.collaborators [])
              Fixture.client) as [Hgood Hbad].
  - by split.
  - simpl. lia.
  - unfold header_fits, len. simpl. lia.
  - split.
    + apply (Hgood [1; 2; 3]). repeat constructor; unfold is_uint32; lia.
    + apply (Hbad [VInt 730; VStr "440"]).
      intros Hall. apply Forall_cons in Hall as [_ Hall].
      apply Forall_cons in Hall as [[z Hz] _]. discriminate.
Defined.

(** ** Packages and their apps *)

Lemma getpath_cons (v : vdf) (k : string) (ks : list string) :
  getpath v (k :: ks)
  = match getitem v k with
    | Ok x => getpath x ks
    | Raise e => Raise e
    end.
Proof. reflexivity. Qed.

Lemma getpath_app (v : vdf) (ks ks' : list string) :
  getpath v (ks ++ ks')
  = match getpath v ks with
    | Ok x => getpath x ks'
    | Raise e => Raise e
    end.
Proof.
  revert v. induction ks as [|k ks IH]; intros v; [done|].
  cbn [app]. rewrite !getpath_cons.
  destruct (getitem v k) as [x|e]; [apply IH|done].
Qed.

Lemma assoc_appids (apps : list (string * Z)) (k : string) (n : Z) :
  NoDup (map fst apps) -> (k, n) ∈ apps ->
  assoc k (map (fun kn => (kn.1, VInt kn.2)) apps) = Some (VInt n).
Proof.
  induction apps as [|[k' n'] apps IH]; intros Hnodup Hin.
  - by apply elem_of_nil in Hin.
  - simpl in *. apply NoDup_cons in Hnodup as [Hfresh Hnodup].
    apply elem_of_cons in Hin as [[= <- <-]|Hin].
    + by rewrite String.eqb_refl.
    + destruct (String.eqb_spec k' k) as [->|_]; [|by apply IH].
      destruct Hfresh. apply list_elem_of_fmap. by exists (k, n).
Qed.

Lemma appids_lookup (content : vdf) (path : list string)
    (apps : list (string * Z)) (k : string) (n : Z) :
  getpath content path = Ok (appids_table apps) ->
  NoDup (map fst apps) -> (k, n) ∈ apps ->
  getpath content (path ++ [k]) = Ok (VInt n).
Proof.
  intros Htable Hnodup Hin. rewrite getpath_app, Htable.
  rewrite getpath_cons. cbn [appids_table getitem].
  by rewrite (assoc_appids apps k n).
Qed.

Lemma package_apps_fold (ext : Collaborators) (content : vdf) (p : Z)
    (fa : callee call) :
  always_returns fa ->
  forall (xs : list (string * Z)) (acc : list vdf) (self : ProtobufClient),
    Forall (fun kn => getpath content [str p; "appids"; kn.1] = Ok (VInt kn.2))
      xs ->
    app_info_handler self = Some fa ->
    fold_each (map fst xs) acc (fun apps_to_parse app =>
      v ← lift (getpath content [str p; "appids"; app]);
      n ← lift (py_int ext v);
      self ← get;
      await_handler (app_info_handler self) (call_app_info_handler n None None);;
      v' ← lift (getpath content [str p; "appids"; app]);
      ret (apps_to_parse ++ [v'])) self
    = (Ok (acc ++ map (fun kn => VInt kn.2) xs),
       set_trace
         (trace self
          ++ map (fun kn => Call (call_app_info_handler kn.2 None None)) xs)
         self).
Proof.
  intros Hfa xs. induction xs as [|[k n] xs IH]; intros acc self Hxs Hhandler.
  - simpl. by rewrite !app_nil_r, set_trace_trace.
  - apply Forall_cons in Hxs as [Hk Hxs]. simpl in Hk.
    cbn [map fst fold_each]. unfold bind at 1.
    unfold bind at 1, lift at 1. rewrite Hk.
    unfold bind at 1, lift at 1. cbn [py_int].
    unfold bind at 1, get at 1. unfold bind at 1.
    rewrite Hhandler, await_handler_set. unfold delivered.
    rewrite Hfa. cbn [outcome_of].
    unfold bind at 1, lift at 1. unfold ret at 1.
    rewrite IH by (try exact Hxs; by rewrite app_info_handler_set_trace).
    rewrite trace_set_trace, set_trace_set_trace.
    cbn [map snd]. by rewrite <- !app_assoc.
Qed.

(** X16. A package that lists apps: the package is reported, every app of
    its [appids] table is reported in table order, and after that one
    product-info request asks for exactly these apps, in the same order. *)
Theorem package_apps_are_reported_then_requested (ext : Collaborators)
    (body : bytes) (message : CMsgClientPICSProductInfoResponse.t)
    (info : CMsgClientPICSProductInfoResponse.PackageInfo) (content : vdf)
    (apps : list (string * Z)) (fp fa : callee call)
    (self : ProtobufClient) :
  let p := CMsgClientPICSProductInfoResponse.packageid info in
  parse_PICSProductInfoResponse ext body = Ok message ->
  CMsgClientPICSProductInfoResponse.packages message = [info] ->
  CMsgClientPICSProductInfoResponse.apps message = [] ->
  p <> 0 ->
  vdf_binary_loads ext true
    (slice_from (CMsgClientPICSProductInfoResponse.buffer info) 4)
    = Ok content ->
  getpath content [str p; "appids"] = Ok (appids_table apps) ->
  NoDup (map fst apps) -> apps <> [] ->
  Forall (fun kn => is_uint32 kn.2) apps ->
  package_info_handler self = Some fp -> always_returns fp ->
  app_info_handler self = Some fa -> always_returns fa ->
  always_returns (_socket self) ->
  ids_fit self ->
  0 <= EMsg_PICSProductInfoRequest ext < 2 ^ 31 ->
  header_fits ext (stamped_header self None None None) ->
  _process_package_info_response ext body self
  = (Ok tt,
     set_trace (trace self ++ package_with_apps_events ext self p apps) self).
Proof.
  intros p Hparse Hpackages Happs Hp Hcontent Htable Hnodup Hsome Hids
    Hhp Hfp Hha Hfa Hsocket Hfit Hemsg Hlen.
  unfold _process_package_info_response.
  unfold bind at 1, lift at 1. rewrite Hparse, Hpackages, Happs.
  cbn [fold_each for_each]. unfold package_info_entry. cbv zeta. fold p.
  unfold bind at 1. unfold bind at 1. unfold bind at 1, get at 1.
  unfold bind at 1. rewrite Hhp, await_handler_set. unfold delivered.
  rewrite Hfp. cbn [outcome_of].
  apply Z.eqb_neq in Hp. rewrite Hp.
  unfold bind at 1, lift at 1. rewrite Hcontent.
  unfold bind at 1, lift at 1. rewrite Htable.
  unfold bind at 1, lift at 1. cbn [iter_keys appids_table].
  replace (map fst (map (fun kn : string * Z => (kn.1, VInt kn.2)) apps))
    with (map fst apps) by (rewrite map_map; by apply map_ext).
  rewrite (package_apps_fold ext content p fa Hfa apps []);
    [| |by rewrite app_info_handler_set_trace].
  2: { apply Forall_forall. intros [k n] Hin.
       exact (appids_lookup content [str p; "appids"] apps k n Htable Hnodup
                Hin). }
  unfold ret at 1. unfold bind at 1, ret at 1.
  rewrite trace_set_trace, set_trace_set_trace.
  rewrite !(app_nil_l (map (fun kn : string * Z => VInt kn.2) apps)).
  assert ((0 <? len (map (fun kn : string * Z => VInt kn.2) apps)) = true)
    as ->.
  { apply Z.ltb_lt. destruct apps; [done|]. unfold len. simpl. lia. }
  unfold bind at 1. rewrite log_run.
  rewrite trace_set_trace, set_trace_set_trace.
  replace (map (fun kn : string * Z => VInt kn.2) apps)
    with (map VInt (map snd apps)) by (rewrite map_map; by apply map_ext).
  rewrite get_apps_info_run;
    [| |by apply ids_fit_set_trace|exact Hemsg
     |by rewrite stamped_header_set_trace].
  2: { apply Forall_forall. intros n Hin.
       apply list_elem_of_In, in_map_iff in Hin.
       destruct Hin as ([k n'] & <- & Hin). apply list_elem_of_In in Hin.
       exact (proj1 (Forall_forall _ _) Hids (k, n') Hin). }
  rewrite socket_set_trace, Hsocket. cbn [outcome_of].
  rewrite !trace_set_trace, !set_trace_set_trace.
  unfold package_with_apps_events, product_info_request.
  rewrite !request_frame_set_trace.
  by rewrite <- !app_assoc.
Qed.

(** ** Requests about one game *)

Lemma _import_game_stats_run (ext : Collaborators) (out : Outbound)
    (game_id : job_value) (g : Z) (body : bytes) (self : ProtobufClient) :
  job_int ext game_id = Ok g ->
  build_request out (CMsgClientGetUserStats g) = Ok body ->
  ids_fit self -> 0 <= EMsg_ClientGetUserStats out < 2 ^ 31 ->
  header_fits ext (stamped_header self None None None) ->
  _import_game_stats ext out game_id self
  = sent
      (request_frame ext self (EMsg_ClientGetUserStats out) None None None body)
      (set_trace
         (trace self ++ [Log INFO "Importing game stats for {game_id}"]) self).
Proof.
  intros Hg Hbuild Hfit Hemsg Hlen.
  unfold _import_game_stats. unfold bind at 1. rewrite log_run.
  unfold bind at 1, lift at 1. rewrite Hg.
  unfold bind at 1, lift at 1. rewrite Hbuild.
  rewrite _send_serialized_run;
    [|by apply ids_fit_set_trace|exact I|exact I|exact Hemsg
     |by rewrite stamped_header_set_trace].
  by rewrite request_frame_set_trace.
Qed.

Lemma _import_game_time_run (ext : Collaborators) (out : Outbound)
    (game_id : job_value) (g : Z) (body : bytes) (self : ProtobufClient) :
  job_int ext game_id = Ok g -> 0 <= g < 2 ^ 64 ->
  build_request out (CPlayer_GetFriendsGameplayInfo_Request g) = Ok body ->
  ids_fit self -> 0 <= EMsg_ServiceMethodCallFromClient out < 2 ^ 31 ->
  header_fits ext (game_time_header self g) ->
  _import_game_time ext out game_id self
  = sent
      (wire_frame (EMsg_ServiceMethodCallFromClient out)
         (serialize_Header ext (game_time_header self g)) body)
      (set_trace
         (trace self ++ [Log INFO "Importing game time for {game_id}"]) self).
Proof.
  intros Hg Hrange Hbuild Hfit Hemsg Hlen.
  unfold _import_game_time. unfold bind at 1. rewrite log_run.
  unfold bind at 1, lift at 1. rewrite Hg.
  unfold bind at 1, lift at 1. rewrite Hbuild.
  unfold bind at 1, lift at 1. unfold bind at 1, lift at 1.
  rewrite _send_serialized_run;
    [|by apply ids_fit_set_trace|exact Hrange|exact Hrange|exact Hemsg
     |by rewrite stamped_header_set_trace].
  by rewrite request_frame_set_trace.
Qed.

(** ** Game time *)

(** X17. The game-time request and its response pair up through the job
    ids. [_import_game_time] sends one frame whose header carries the game
    id as source and as target job id under the job name
    [Player.GetFriendsGameplayInfo#1]; a service response whose header
    answers that header reaches the times handler with the game id and
    the minutes played. *)
Theorem game_time_response_reports_game_id (ext : Collaborators)
    (out : Outbound) (game_id : job_value) (g : Z) (request : bytes)
    (self : ProtobufClient) :
  job_int ext game_id = Ok g -> 0 <= g < 2 ^ 64 ->
  build_request out (CPlayer_GetFriendsGameplayInfo_Request g) = Ok request ->
  ids_fit self ->
  0 <= EMsg_ServiceMethodCallFromClient out < 2 ^ 31 ->
  header_fits ext (game_time_header self g) ->
  _import_game_time ext out game_id self
  = sent
      (wire_frame (EMsg_ServiceMethodCallFromClient out)
         (serialize_Header ext (game_time_header self g)) request)
      (set_trace
         (trace self ++ [Log INFO "Importing game time for {game_id}"]) self)
  /\ (forall (h : CMsgProtoBufHeader.t) (body : bytes)
        (played : CPlayer_GetFriendsGameplayInfo_Response.t)
        (f : callee call) (peer : ProtobufClient),
        answers h (game_time_header self g) ->
        parse_GetFriendsGameplayInfo ext body = Ok played ->
        times_handler peer = Some f ->
        _process_service_method_response ext (header_target_job_name h)
          (header_jobid_target ext h) body peer
        = delivered f
            (call_times_handler g
               (CPlayer_GetFriendsGameplayInfo_Response.your_info_minutes_played_forever
                  played))
            peer).
Proof.
  intros Hg Hrange Hbuild Hfit Hemsg Hlen. split.
  - by apply _import_game_time_run.
  - intros h body played f peer [Hname Htarget] Hparse Hf.
    unfold header_target_job_name, header_jobid_target.
    rewrite Hname, Htarget. simpl.
    unfold _process_service_method_response, _process_user_time_response.
    simpl. unfold bind, ret, lift, get. rewrite Hparse, Hf.
    rewrite await_handler_set. unfold delivered.
    by destruct (f (trace peer) _).
Qed.

(** ** Job ids *)

Lemma on_client_run {A} (m : M A) (r : Runner) :
  on_client m r = (fst (m (client r)), with_client (snd (m (client r))) r).
Proof. unfold on_client. by destruct (m (client r)). Qed.

Lemma service_send_run (ext : Collaborators) (out : Outbound) (req : request)
    (emsg job_id : Z) (name : string) (body : bytes) (self : ProtobufClient) :
  build_request out req = Ok body ->
  ids_fit self -> 0 <= job_id < 2 ^ 64 -> 0 <= emsg < 2 ^ 31 ->
  header_fits ext (stamped_header self (Some job_id) None (Some name)) ->
  (body ← lift (build_request out req);
   _send_serialized ext emsg body (Some job_id) None (Some name)) self
  = sent (request_frame ext self emsg (Some job_id) None (Some name) body) self.
Proof.
  intros Hbody Hfit Hid Hemsg Hlen. unfold bind at 1, lift at 1.
  rewrite Hbody. by apply _send_serialized_run.
Qed.

Lemma perform_run (ext : Collaborators) (out : Outbound) (c : service_call)
    (r : Runner) :
  always_returns (_socket (client r)) -> ids_fit (client r) ->
  0 <= EMsg_ServiceMethodCallFromClient out < 2 ^ 31 ->
  header_fits ext
    (stamped_header (client r) (Some (_job_id_iterator r)) None
       (Some (service_job_name c))) ->
  0 <= _job_id_iterator r < 2 ^ 64 ->
  (exists body, build_request out (service_request c) = Ok body) ->
  perform ext out c r
  = (Ok tt,
     {| client :=
          set_trace
            (trace (client r)
             ++ service_events ext out (client r) (_job_id_iterator r) c)
            (client r);
        _job_id_iterator := _job_id_iterator r + 1;
        job_list := job_list r |}).
Proof.
  intros Hsocket Hfit Hemsg Hlen Hid [body Hbody].
  unfold service_events, service_body. rewrite Hbody.
  destruct c as [| |appid language]; simpl in Hbody, Hlen |- *.
  - unfold get_friends_statuses, rbind, next_job_id.
    rewrite on_client_run. cbn [client _job_id_iterator job_list].
    rewrite (service_send_run ext out _ _ _ _ body) by done.
    unfold sent, with_client. rewrite Hsocket. reflexivity.
  - unfold _import_collections, rbind, next_job_id.
    rewrite on_client_run. cbn [client _job_id_iterator job_list].
    rewrite (service_send_run ext out _ _ _ _ body) by done.
    unfold sent, with_client. rewrite Hsocket. reflexivity.
  - unfold get_presence_localization, rbind at 1.
    rewrite on_client_run, log_run. cbn [fst snd].
    unfold rbind at 1, rlift at 1. rewrite Hbody.
    unfold rbind, next_job_id. rewrite on_client_run.
    cbn [client _job_id_iterator job_list with_client].
    rewrite _send_serialized_run;
      [|by apply ids_fit_set_trace|exact Hid|exact I|exact Hemsg
       |by rewrite stamped_header_set_trace].
    unfold sent, with_client.
    rewrite socket_set_trace, Hsocket, request_frame_set_trace,
      trace_set_trace, set_trace_set_trace.
    cbn [client _job_id_iterator job_list fst snd outcome_of].
    by rewrite <- app_assoc.
Qed.

Lemma perform_all_run (ext : Collaborators) (out : Outbound)
    (calls : list service_call) :
  0 <= EMsg_ServiceMethodCallFromClient out < 2 ^ 31 ->
  Forall (fun c => exists body, build_request out (service_request c) = Ok body)
    calls ->
  forall r : Runner,
    always_returns (_socket (client r)) -> ids_fit (client r) ->
    0 <= _job_id_iterator r -> _job_id_iterator r + len calls <= 2 ^ 64 ->
    (forall i c,
       calls !! i = Some c ->
       header_fits ext
         (stamped_header (client r) (Some (_job_id_iterator r + Z.of_nat i))
            None (Some (service_job_name c)))) ->
    rfor_each calls (perform ext out) r
    = (Ok tt,
       {| client :=
            set_trace
              (trace (client r)
               ++ concat
                    (imap (fun i c =>
                             service_events ext out (client r)
                               (_job_id_iterator r + Z.of_nat i) c) calls))
              (client r);
          _job_id_iterator := _job_id_iterator r + len calls;
          job_list := job_list r |}).
Proof.
  intros Hemsg Hbuild.
  induction Hbuild as [|c calls Hc _ IH]; intros r Hsocket Hfit H0 Hmax Hlen.
  - simpl. unfold rret. rewrite app_nil_r, set_trace_trace.
    unfold len. simpl. rewrite Z.add_0_r. by destruct r.
  - assert (len (c :: calls) = 1 + len calls) as Hcons
      by (unfold len; simpl length; lia).
    rewrite Hcons in *. pose proof (len_nonneg calls).
    cbn [rfor_each]. unfold rbind at 1.
    rewrite perform_run; [|done|done|done| |lia|done].
    2:{ specialize (Hlen 0%nat c eq_refl). by rewrite Z.add_0_r in Hlen. }
    rewrite IH; cbn [client _job_id_iterator job_list].
    + f_equal. f_equal; [|lia].
      rewrite trace_set_trace, set_trace_set_trace.
      cbn [imap concat]. rewrite Z.add_0_r, <- app_assoc.
      f_equal. f_equal. f_equal. f_equal.
      apply imap_ext. intros i c' _. unfold service_events. cbn [compose].
      rewrite request_frame_set_trace.
      by replace (_job_id_iterator r + 1 + Z.of_nat i)
        with (_job_id_iterator r + Z.of_nat (S i)) by lia.
    + intros tr a. rewrite socket_set_trace. apply Hsocket.
    + by apply ids_fit_set_trace.
    + lia.
    + lia.
    + intros i c' Hi. rewrite stamped_header_set_trace.
      replace (_job_id_iterator r + 1 + Z.of_nat i)
        with (_job_id_iterator r + Z.of_nat (S i)) by lia.
      by apply Hlen.
Qed.

(** X18. Job ids are handed out in order. On a fresh client whose socket
    accepts every send, take any sequence of calls to
    [get_friends_statuses], [_import_collections] and
    [get_presence_localization] whose requests can be built and whose
    headers fit the length word. The k-th call is sent with the source job
    id k, under the job name of its method; afterwards the iterator stands
    at the number of calls plus one. *)
Theorem service_calls_use_consecutive_job_ids (ext : Collaborators)
    (out : Outbound) (calls : list service_call) (socket : callee bytes) :
  always_returns socket ->
  0 <= EMsg_ServiceMethodCallFromClient out < 2 ^ 31 ->
  (forall i c,
     calls !! i = Some c ->
     header_fits ext
       (stamped_header (__init__ socket) (Some (1 + Z.of_nat i)) None
          (Some (service_job_name c)))) ->
  Forall (fun c => exists body, build_request out (service_request c) = Ok body)
    calls ->
  len calls < 2 ^ 64 ->
  rfor_each calls (perform ext out) (new_runner socket)
  = (Ok tt,
     {| client :=
          set_trace
            (concat
               (imap (fun i c =>
                        service_events ext out (__init__ socket)
                          (1 + Z.of_nat i) c) calls))
            (__init__ socket);
        _job_id_iterator := 1 + len calls;
        job_list := [] |}).
Proof.
  intros Hsocket Hemsg Hlen Hbuild Hmax.
  rewrite perform_all_run; try done.
  simpl. lia.
Qed.

Lemma service_calls_use_consecutive_job_ids_witness :
  rfor_each
    [FriendsStatuses; PresenceLocalization 730 "english"; ImportCollections]
    (perform naming_collaborators outbound_example)
    (new_runner Fixture.returns)
  = (Ok tt,
     {| client :=
          set_trace
            (concat
               (imap (fun i c =>
                        service_events naming_collaborators
                          outbound_example (__init__ Fixture.returns)
                          (1 + Z.of_nat i) c)
                  [FriendsStatuses; PresenceLocalization 730 "english";
                   ImportCollections]))
            (__init__ Fixture.returns);
        _job_id_iterator :=
          1 + len [FriendsStatuses; PresenceLocalization 730 "english";
                   ImportCollections];
        job_list := [] |}).
Proof.
  apply (service_calls_use_consecutive_job_ids naming_collaborators
           outbound_example
           [FriendsStatuses; PresenceLocalization 730 "english";
            ImportCollections] Fixture.returns).
  - by intros tr a.
  - simpl. lia.
  - intros i c _. destruct c; vm_compute; reflexivity.
  - repeat constructor; by eexists.
  - unfold len. simpl. lia.
Defined.

(** The three calls of the instance above send three frames, each of
    eight bytes, a header that is the name of its service method, and a
    body of one byte; the next job id is then 4. *)
Example job_ids_of_three_service_calls :
  omap (fun ev => match ev with
                  | Send data => Some (len data)
                  | _ => None
                  end)
    (trace (client (snd (rfor_each
                           [FriendsStatuses;
                            PresenceLocalization 730 "english";
                            ImportCollections]
                           (perform naming_collaborators outbound_example)
                           (new_runner Fixture.returns)))))
  = [8 + 33 + 1; 8 + 42 + 1; 8 + 27 + 1]
  /\ _job_id_iterator
       (snd (rfor_each
               [FriendsStatuses; PresenceLocalization 730 "english";
                ImportCollections]
               (perform naming_collaborators outbound_example)
               (new_runner Fixture.returns)))
     = 4.
Proof. split; vm_compute; reflexivity. Qed.

(** ** The job list *)

Lemma list_remove_middle {A} `{EqDecision A} (x : A) (kept rest : list A) :
  x ∉ kept -> list_remove x (kept ++ x :: rest) = Some (kept ++ rest).
Proof.
  induction kept as [|y kept IH]; intros Hfresh; simpl.
  - by rewrite decide_True.
  - apply not_elem_of_cons in Hfresh as [Hne Hfresh].
    rewrite decide_False by done. by rewrite IH.
Qed.

Lemma served_job_name (j : job) (name : job_value) :
  job_getitem j "job_name" = Ok name ->
  served j
  = bool_decide (name = JobStr "import_game_stats")
    || bool_decide (name = JobStr "import_collections").
Proof.
  unfold job_getitem, served.
  destruct (j !! "job_name") as [v|]; [|done]. intros [= ->].
  f_equal; apply bool_decide_ext; split; congruence.
Qed.

(** One job of a turn: it is served and removed, or it is left alone, or
    the turn ends with the job still queued. *)
Lemma run_job_cases (ext : Collaborators) (out : Outbound) (j : job)
    (r : Runner) :
  (fst (run_job ext out j r) = Ok tt /\ served j = true
   /\ list_remove j (job_list r) = Some (job_list (snd (run_job ext out j r))))
  \/ (fst (run_job ext out j r) = Ok tt /\ served j = false
      /\ job_list (snd (run_job ext out j r)) = job_list r)
  \/ ((exists e, fst (run_job ext out j r) = Raise e)
      /\ job_list (snd (run_job ext out j r)) = job_list r).
Proof.
  destruct (run_job ext out j r) as [res r'] eqn:Hrun. cbn [fst snd].
  revert Hrun. unfold run_job. unfold rbind at 1.
  rewrite on_client_run, log_run.
  cbn [fst snd]. unfold rbind at 1, rlift at 1.
  destruct (job_getitem j "job_name") as [name|e] eqn:Hname;
    [|intros [= <- <-]; right; right; split; [by eexists|done]].
  rewrite (served_job_name j name Hname). unfold rbind at 1.
  destruct (bool_decide (name = JobStr "import_game_stats")) eqn:Hstats.
  - apply bool_decide_eq_true in Hstats. subst name.
    unfold rbind at 1, rlift at 1.
    destruct (job_getitem j "game_id") as [game_id|e];
      [|intros [= <- <-]; right; right; split; [by eexists|done]].
    unfold rbind at 1. rewrite on_client_run.
    destruct (_import_game_stats ext out game_id _) as [[[]|e] c1];
      cbn [fst snd];
      [|intros [= <- <-]; right; right; split; [by eexists|done]].
    unfold rbind at 1, rlift at 1. unfold rbind at 1. rewrite on_client_run.
    destruct (_import_game_time ext out game_id _) as [[[]|e] c2];
      cbn [fst snd];
      [|intros [= <- <-]; right; right; split; [by eexists|done]].
    unfold remove_job at 1. cbn [job_list with_client client _job_id_iterator].
    destruct (list_remove j (job_list r)) as [rest|] eqn:Hremove;
      [|intros [= <- <-]; right; right; split; [by eexists|done]].
    unfold rbind at 1, rlift at 1. simpl. intros [= <- <-]. by left.
  - unfold rret at 1. unfold rbind at 1, rlift at 1.
    destruct (bool_decide (name = JobStr "import_collections")) eqn:Hcoll.
    + unfold rbind at 1. unfold _import_collections, rbind at 1, next_job_id.
      rewrite on_client_run.
      match goal with
      | |- context [fst (?m ?c)] => destruct (m c) as [[[]|e] c1]
      end; cbn [fst snd];
        [|intros [= <- <-]; right; right; split; [by eexists|done]].
      unfold remove_job. cbn [job_list with_client client _job_id_iterator].
      destruct (list_remove j (job_list r)) as [rest|] eqn:Hremove;
        [|intros [= <- <-]; right; right; split; [by eexists|done]].
      intros [= <- <-]. by left.
    + intros [= <- <-]. right. left. done.
Qed.

Lemma run_jobs_loop (ext : Collaborators) (out : Outbound)
    (pending : list job) :
  forall (kept : list job) (r : Runner),
    job_list r = kept ++ pending ->
    Forall (fun j => served j = false) kept ->
    exists done rest,
      pending = done ++ rest
      /\ job_list (snd (rfor_each pending (run_job ext out) r))
         = kept ++ List.filter (fun j => negb (served j)) done ++ rest
      /\ (fst (rfor_each pending (run_job ext out) r) = Ok tt -> rest = []).
Proof.
  induction pending as [|j pending IH]; intros kept r Hlist Hkept.
  - exists [], []. simpl. by rewrite Hlist.
  - cbn [rfor_each]. unfold rbind.
    destruct (run_job_cases ext out j r)
      as [(Hok & Hserved & Hremove)|[(Hok & Hserved & Hsame)|([e He] & Hsame)]];
      destruct (run_job ext out j r) as [[[]|e'] r1]; simpl in *;
      try discriminate.
    + rewrite Hlist, list_remove_middle in Hremove.
      2:{ intros Hin. rewrite Forall_forall in Hkept.
          specialize (Hkept j Hin). congruence. }
      injection Hremove as Hremove.
      destruct (IH kept r1 (eq_sym Hremove) Hkept)
        as (done & rest & -> & Hjobs & Hrest).
      exists (j :: done), rest. split; [done|]. simpl. by rewrite Hserved.
    + destruct (IH (kept ++ [j]) r1) as (done & rest & -> & Hjobs & Hrest).
      { by rewrite Hsame, Hlist, <- app_assoc. }
      { apply Forall_app. split; [done|]. by constructor. }
      exists (j :: done), rest. split; [done|]. simpl. rewrite Hserved. simpl.
      by rewrite Hjobs, <- app_assoc.
    + exists [], (j :: pending). by rewrite Hsame, Hlist.
Qed.


(** ** Timeouts *)

(** X20. A turn of [run] swallows [asyncio.TimeoutError]: when nothing
    arrives in time the turn ends normally after the jobs; any other
    exception of the receive ends the loop. The [try] also covers the
    processing of the packet: a [TimeoutError] raised there, for example by
    a handler, is swallowed in the same way and what was done up to it
    stays done. *)
Theorem turn_swallows_timeouts (ext : Collaborators) (out : Outbound)
    (depth : nat) (r r1 : Runner) :
  run_jobs ext out r = (Ok tt, r1) ->
  (forall e,
     run_turn ext out depth (Raise e) r
     = (if is_TimeoutError e then Ok tt else Raise e, r1))
  /\ (forall packet c,
        _process_packet ext depth packet (client r1) = (Raise TimeoutError, c) ->
        run_turn ext out depth (Ok packet) r = (Ok tt, with_client c r1)).
Proof.
  intros Hjobs. split.
  - intros e. unfold run_turn, rbind at 1. rewrite Hjobs.
    unfold rbind, rlift. by destruct (is_TimeoutError e).
  - intros packet c Hpacket. unfold run_turn, rbind at 1. rewrite Hjobs.
    unfold rbind, rlift. rewrite on_client_run, Hpacket. reflexivity.
Qed.

(** ** Serving a stats job *)

(** X21. Serving a stats job, when the socket accepts the sends, the ids
    are in range and the two headers built fit the length word: the job is
    logged, the stats of the game are requested, then its game time, both
    for [int(job['game_id'])], and the job is taken off the list. No job id
    is consumed. *)
Theorem stats_job_is_served_and_removed (ext : Collaborators) (out : Outbound)
    (j : job) (game_id : job_value) (g : Z) (stats_body time_body : bytes)
    (rest : list job) (r : Runner) :
  j !! "job_name" = Some (JobStr "import_game_stats") ->
  j !! "game_id" = Some game_id ->
  job_int ext game_id = Ok g -> 0 <= g < 2 ^ 64 ->
  build_request out (CMsgClientGetUserStats g) = Ok stats_body ->
  build_request out (CPlayer_GetFriendsGameplayInfo_Request g) = Ok time_body ->
  always_returns (_socket (client r)) -> ids_fit (client r) ->
  0 <= EMsg_ClientGetUserStats out < 2 ^ 31 ->
  0 <= EMsg_ServiceMethodCallFromClient out < 2 ^ 31 ->
  header_fits ext (stamped_header (client r) None None None) ->
  header_fits ext (game_time_header (client r) g) ->
  list_remove j (job_list r) = Some rest ->
  run_job ext out j r
  = (Ok tt,
     {| client :=
          set_trace
            (trace (client r)
             ++ stats_job_events ext out (client r) g stats_body time_body)
            (client r);
        _job_id_iterator := _job_id_iterator r;
        job_list := rest |}).
Proof.
  intros Hname Hgame Hg Hrange Hstats Htime Hsocket Hfit Hemsg1 Hemsg2
    Hlen1 Hlen2 Hremove.
  unfold run_job. unfold rbind at 1. rewrite on_client_run, log_run.
  cbn [fst snd]. unfold rbind at 1, rlift at 1.
  unfold job_getitem. rewrite Hname, Hgame. unfold rbind at 1. simpl.
  unfold rbind at 1, rlift at 1. unfold rbind at 1.
  rewrite on_client_run.
  rewrite (_import_game_stats_run ext out game_id g stats_body);
    [|done|done|by apply ids_fit_set_trace|done
     |by cbn [client with_client]; rewrite stamped_header_set_trace].
  unfold sent at 1 2. cbn [fst snd client with_client].
  rewrite !socket_set_trace, Hsocket. cbn [outcome_of].
  rewrite !trace_set_trace, !set_trace_set_trace.
  unfold rbind at 1, rlift at 1. unfold rbind at 1.
  rewrite on_client_run. cbn [fst snd client with_client].
  rewrite (_import_game_time_run ext out game_id g time_body);
    [|done|done|done|by apply ids_fit_set_trace|done
     |by unfold game_time_header; rewrite stamped_header_set_trace].
  unfold sent at 1 2. cbn [fst snd client with_client].
  rewrite !socket_set_trace, Hsocket. cbn [outcome_of].
  unfold remove_job. cbn [job_list with_client]. rewrite Hremove.
  unfold rbind at 1, rlift at 1. unfold rret.
  cbn [client _job_id_iterator job_list with_client].
  rewrite !trace_set_trace, !set_trace_set_trace.
  unfold stats_job_events, game_time_header.
  rewrite !request_frame_set_trace, !stamped_header_set_trace.
  by rewrite <- !app_assoc.
Qed.

Lemma stats_job_is_served_and_removed_witness :
  let r :=
    {| client := Fixture.client; _job_id_iterator := 1;
       job_list := [unknown_job_example; stats_job_example] |} in
  run_job naming_collaborators outbound_example stats_job_example r
  = (Ok tt,
     {| client :=
          set_trace
            [Log INFO "New job on list {job}";
             Log INFO "Importing game stats for {game_id}";
             Send (wire_frame 818 [] [x01]);
             Log INFO "Importing game time for {game_id}";
             Send (wire_frame 151
                     (list_byte_of_string "Player.GetFriendsGameplayInfo#1")
                     [x02])]
            Fixture.client;
        _job_id_iterator := 1;
        job_list := [unknown_job_example] |}).
Proof.
  intros r.
  apply (stats_job_is_served_and_removed naming_collaborators
           outbound_example stats_job_example (JobInt 730) 730 [x01] [x02]
           [unknown_job_example] r).
  - reflexivity.
  - reflexivity.
  - reflexivity.
  - lia.
  - reflexivity.
  - reflexivity.
  - by intros tr a.
  - by split.
  - simpl. lia.
  - simpl. lia.
  - vm_compute. reflexivity.
  - vm_compute. reflexivity.
  - vm_compute. reflexivity.
Defined.

(** A turn over a queue that holds an unserved job and a stats job: the
    first stays, the second goes. *)
Example turn_keeps_the_unknown_job :
  job_list
    (snd (run_jobs (Fixture.collaborators []) outbound_example
            {| client := Fixture.client; _job_id_iterator := 1;
               job_list := [unknown_job_example; stats_job_example] |}))
  = [unknown_job_example].
Proof. vm_compute. reflexivity. Qed.

(** ** Friend lists with an unknown relationship *)

Lemma friend_list_fold_bad (ext : Collaborators) (self : ProtobufClient)
    (friends : list CMsgClientFriendsList.Friend) :
  Exists (bad_relationship ext) friends ->
  forall acc,
    fold_each friends acc (friend_list_entry ext) self
    = (Raise ValueError, self).
Proof.
  induction friends as [|r friends IH]; intros Hbad acc.
  - by apply Exists_nil in Hbad.
  - cbn [fold_each]. unfold bind. unfold friend_list_entry at 1. cbv zeta.
    destruct (Z.eqb_spec
                (SteamId_parse_type ext (CMsgClientFriendsList.ulfriendid r))
                (EAccountType_Individual ext)) as [Hi|Hi].
    + destruct (is_EFriendRelationship ext
                  (CMsgClientFriendsList.efriendrelationship r)) eqn:Hrel;
        [|done].
      unfold ret at 1. apply IH.
      apply Exists_cons in Hbad as [[_ Hfalse]|Hbad]; [congruence|done].
    + unfold ret at 1. apply IH.
      apply Exists_cons in Hbad as [[Htrue _]|Hbad]; [congruence|done].
Qed.

(** X22. One entry that cannot be converted spoils a whole friend list:
    when some individual account of the list has a relationship value
    outside the enumeration, the list raises [ValueError] and the
    relationship handler hears nothing, not even the entries before it. *)
Theorem unknown_relationship_spoils_the_list (ext : Collaborators)
    (self : ProtobufClient) (body : bytes) (f : callee call)
    (message : CMsgClientFriendsList.t) :
  relationship_handler self = Some f ->
  parse_FriendsList ext body = Ok message ->
  Exists (bad_relationship ext) (CMsgClientFriendsList.friends message) ->
  _process_client_friend_list ext body self = (Raise ValueError, self).
Proof.
  intros Hh Hparse Hbad.
  unfold _process_client_friend_list. unfold bind at 1, get at 1.
  rewrite Hh. unfold bind at 1, lift at 1. rewrite Hparse.
  unfold bind at 1. by rewrite (friend_list_fold_bad ext self _ Hbad).
Qed.

Lemma unknown_relationship_spoils_the_list_witness :
  _process_client_friend_list
    (Fixture.collaborators [Fixture.P_FriendsList bad_friends_example]) [x00]
    Fixture.client
  = (Raise ValueError, Fixture.client).
Proof.
  apply (unknown_relationship_spoils_the_list
           (Fixture.collaborators [Fixture.P_FriendsList bad_friends_example])
           Fixture.client [x00] Fixture.returns bad_friends_example).
  - reflexivity.
  - reflexivity.
  - apply Exists_cons. right. apply Exists_cons. left. by split.
Defined.

(** ** The own account in a persona state *)

Lemma oc_ret {A} (a : A) : only_calls (ret a).
Proof. intros self. exists []. split; [apply extends_nil|constructor]. Qed.

Lemma oc_raise {A} (e : exn) : only_calls (raise (A := A) e).
Proof. intros self. exists []. split; [apply extends_nil|constructor]. Qed.

Lemma oc_get : only_calls get.
Proof. intros self. exists []. split; [apply extends_nil|constructor]. Qed.

Lemma oc_bind {A B} (m : M A) (k : A -> M B) :
  only_calls m -> (forall a, only_calls (k a)) -> only_calls (bind m k).
Proof.
  intros Hm Hk self. unfold bind. destruct (Hm self) as (evs & Hext & Hevs).
  destruct (m self) as [[a|e] self1]; simpl in *; [|by exists evs].
  destruct (Hk a self1) as (evs' & Hext' & Hevs').
  exists (evs ++ evs'). split; [by eapply extends_app|by apply Forall_app].
Qed.

Lemma oc_fold_each {A B} (xs : list A) (body : B -> A -> M B) :
  (forall acc x, only_calls (body acc x)) ->
  forall acc, only_calls (fold_each xs acc body).
Proof.
  intros Hbody. induction xs as [|x xs IH]; intros acc; simpl.
  - apply oc_ret.
  - apply oc_bind; [apply Hbody|]. apply IH.
Qed.

Lemma oc_await_handler (h : option (callee call)) (c : call) :
  only_calls (await_handler h c).
Proof.
  destruct h as [f|]; [|apply oc_raise]. intros self.
  exists [Call c]. split; [apply await_extends|]. by repeat constructor.
Qed.

Lemma oc_rich_presence_element (gameid : Z) (rp : gmap string string)
    (element : CMsgClientPersonaState.KV) :
  only_calls (rich_presence_element gameid rp element).
Proof.
  unfold rich_presence_element. cbv zeta.
  apply oc_bind; [|intros _; apply oc_ret].
  destruct (_ && _); [|apply oc_ret].
  destruct (starts_with_hash _); [|apply oc_ret].
  apply oc_bind; [apply oc_get|]. intros self. apply oc_await_handler.
Qed.

(** What follows the product-info request in [persona_state_user]. *)
Lemma oc_persona_record (ext : Collaborators)
    (user : CMsgClientPersonaState.Friend) :
  only_calls
    (state ← match CMsgClientPersonaState.persona_state user with
             | Some p =>
                 if is_EPersonaState ext p then ret (Some p)
                 else raise ValueError
             | None => ret None
             end;
     rich_presence ←
       match CMsgClientPersonaState.gameid user with
       | Some gameid =>
           rp ← fold_each (CMsgClientPersonaState.rich_presence user)
                  (∅ : gmap string string) (rich_presence_element gameid);
           ret (Some rp)
       | None => ret None
       end;
     let user_info :=
       {| UserInfo.name := CMsgClientPersonaState.player_name user;
          UserInfo.avatar_hash := CMsgClientPersonaState.avatar_hash user;
          UserInfo.state := state;
          UserInfo.game_id := CMsgClientPersonaState.gameid user;
          UserInfo.game_name := CMsgClientPersonaState.game_name user;
          UserInfo.rich_presence := rich_presence |} in
     self ← get;
     await_handler (user_info_handler self)
       (call_user_info_handler (CMsgClientPersonaState.friendid user)
          user_info)).
Proof.
  apply oc_bind.
  { destruct (CMsgClientPersonaState.persona_state user) as [p|];
      [destruct (is_EPersonaState ext p)|]; auto using oc_ret, oc_raise. }
  intros state. apply oc_bind.
  { destruct (CMsgClientPersonaState.gameid user) as [gameid|];
      [|apply oc_ret].
    apply oc_bind; [|intros rp; apply oc_ret].
    apply oc_fold_each. intros acc x. apply oc_rich_presence_element. }
  intros rich_presence. cbv zeta.
  apply oc_bind; [apply oc_get|]. intros self. apply oc_await_handler.
Qed.

(** X23. The entry of a persona state about the client's own account,
    while it plays an app, first requests the product information of that
    app; everything after the request is a handler call. An entry about
    another account, or about the own account playing nothing, sends and
    logs nothing: it only calls handlers. *)
Theorem own_persona_entry_requests_the_played_app (ext : Collaborators)
    (user : CMsgClientPersonaState.Friend) (self : ProtobufClient) :
  let played := CMsgClientPersonaState.game_played_app_id user in
  is_uint32 played ->
  always_returns (_socket self) -> ids_fit self ->
  0 <= EMsg_PICSProductInfoRequest ext < 2 ^ 31 ->
  header_fits ext (stamped_header self None None None) ->
  exists calls,
    Forall is_handler_call calls
    /\ trace (snd (persona_state_user ext user self))
       = trace self
         ++ (if bool_decide
                  (Some (CMsgClientPersonaState.friendid user) = _steam_id self)
                && negb (played =? 0)
             then product_info_request ext self
                    "Sending call {EMsg.PICSProductInfoRequest} with {app_ids}"
                    [] [played]
             else [])
         ++ calls.
Proof.
  intros played Hplayed Hsocket Hfit Hemsg Hlen.
  unfold persona_state_user. cbv zeta. fold played.
  unfold bind at 1, get at 1. unfold bind at 1.
  destruct (bool_decide _ && negb (played =? 0)).
  - change [VInt played] with (map VInt [played]).
    rewrite get_apps_info_run;
      [|constructor; [exact Hplayed|constructor]|done|done|done].
    rewrite Hsocket. cbn [outcome_of].
    destruct (oc_persona_record ext user
                (set_trace
                   (trace self
                    ++ product_info_request ext self
                         "Sending call {EMsg.PICSProductInfoRequest} with {app_ids}"
                         [] [played]) self)) as (calls & Hext & Hcalls).
    exists calls. split; [done|].
    apply extends_trace in Hext. rewrite trace_set_trace in Hext.
    rewrite <- app_assoc in Hext. exact Hext.
  - unfold ret at 1.
    destruct (oc_persona_record ext user self) as (calls & Hext & Hcalls).
    exists calls. split; [done|]. apply extends_trace in Hext.
    rewrite app_nil_l. exact Hext.
Qed.

Lemma own_persona_entry_requests_the_played_app_witness :
  exists calls,
    Forall is_handler_call calls
    /\ trace (snd (persona_state_user (Fixture.collaborators [])
                     own_persona_example logged_on_client))
       = trace logged_on_client
         ++ (if bool_decide
                  (Some (CMsgClientPersonaState.friendid own_persona_example)
                   = _steam_id logged_on_client)
                && negb (CMsgClientPersonaState.game_played_app_id
                           own_persona_example =? 0)
             then product_info_request (Fixture.collaborators [])
                    logged_on_client
                    "Sending call {EMsg.PICSProductInfoRequest} with {app_ids}"
                    []
                    [CMsgClientPersonaState.game_played_app_id
                       own_persona_example]
             else [])
         ++ calls.
Proof.
  apply (own_persona_entry_requests_the_played_app (Fixture.collaborators [])
           own_persona_example logged_on_client).
  - unfold is_uint32. simpl. lia.
  - by intros tr a.
  - split; simpl; lia.
  - simpl. lia.
  - unfold header_fits, len. simpl. lia.
Defined.

(** The own account playing app 730: the request, one translation call,
    the delivery. *)
Example own_persona_entry_trace :
  map (fun ev => match ev with
                 | Log _ _ => "log" | Send _ => "send"
                 | Call (call_translations_handler _ _) => "translations"
                 | Call (call_user_info_handler _ _) => "user info"
                 | Call _ => "call"
                 end)
    (trace (snd (persona_state_user (Fixture.collaborators [])
                   own_persona_example logged_on_client)))
  = ["log"; "send"; "translations"; "user info"].
Proof. vm_compute. reflexivity. Qed.

(** ** What the loop of [run] keeps *)

Lemma run_keeps_refl (r : Runner) : run_keeps r r.
Proof. by repeat split. Qed.

Lemma run_keeps_trans (a b c : Runner) :
  run_keeps a b -> run_keeps b c -> run_keeps a c.
Proof.
  intros (Hi & Hj & Hc) (Hi' & Hj' & Hc'). repeat split.
  - lia.
  - by etrans.
  - by etrans.
Qed.

Lemma kr_rret {A} (a : A) : keeps_running (rret a).
Proof. intros r. apply run_keeps_refl. Qed.

Lemma kr_rlift {A} (x : result A) : keeps_running (rlift x).
Proof. intros r. apply run_keeps_refl. Qed.

Lemma kr_rbind {A B} (m : R A) (k : A -> R B) :
  keeps_running m -> (forall a, keeps_running (k a)) ->
  keeps_running (rbind m k).
Proof.
  intros Hm Hk r. unfold rbind. specialize (Hm r).
  destruct (m r) as [[a|e] r1]; simpl in *; [|done].
  eapply run_keeps_trans; [exact Hm|apply Hk].
Qed.

Lemma kr_on_client {A} (m : M A) : only_updates m -> keeps_running (on_client m).
Proof.
  intros Hm r. rewrite on_client_run. repeat split; simpl; [lia|done|apply Hm].
Qed.

Lemma kr_next_job_id : keeps_running next_job_id.
Proof. intros r. repeat split; simpl; [lia|done|done]. Qed.

Lemma list_remove_sublist {A} `{EqDecision A} (x : A) (l l' : list A) :
  list_remove x l = Some l' -> l' `sublist_of` l.
Proof.
  revert l'. induction l as [|y l IH]; intros l'; simpl; [done|].
  destruct (decide (y = x)).
  - intros [= <-]. by apply sublist_cons.
  - destruct (list_remove x l) as [l0|]; [|done]. intros [= <-].
    by apply sublist_skip, IH.
Qed.

Lemma kr_remove_job (j : job) : keeps_running (remove_job j).
Proof.
  intros r. unfold remove_job.
  destruct (list_remove j (job_list r)) as [rest|] eqn:Hremove;
    [|apply run_keeps_refl].
  repeat split; simpl; [lia| |done]. by eapply list_remove_sublist.
Qed.

Lemma kr_rfor_each {A} (xs : list A) (body : A -> R unit) :
  (forall x, keeps_running (body x)) -> keeps_running (rfor_each xs body).
Proof.
  intros Hbody. induction xs as [|x xs IH]; simpl.
  - apply kr_rret.
  - apply kr_rbind; [apply Hbody|]. by intros _.
Qed.

Lemma kr_run_job (ext : Collaborators) (out : Outbound) (j : job) :
  keeps_running (run_job ext out j).
Proof.
  unfold run_job, _import_collections, _import_game_stats, _import_game_time.
  repeat first
    [ apply kr_rbind; [|intros ?]
    | apply kr_rlift | apply kr_rret | apply kr_remove_job
    | apply kr_next_job_id
    | apply kr_on_client; updates
    | match goal with
      | |- keeps_running (if ?c then _ else _) => destruct c
      end ].
Qed.

Lemma kr_run_turn (ext : Collaborators) (out : Outbound) (depth : nat)
    (received : result bytes) :
  keeps_running (run_turn ext out depth received).
Proof.
  unfold run_turn. apply kr_rbind.
  { intros r. unfold run_jobs. apply kr_rfor_each. apply kr_run_job. }
  intros _ r.
  assert (keeps_running
            (rbind (rlift received)
               (fun packet => on_client (_process_packet ext depth packet))))
    as Hinner.
  { apply kr_rbind; [apply kr_rlift|]. intros packet.
    apply kr_on_client, upd_process_packet. }
  specialize (Hinner r).
  destruct (rbind _ _ r) as [[[]|e] r1]; simpl in *; [done|].
  by destruct (is_TimeoutError e).
Qed.

(** X24. What the loop of [run] never does, however many turns it makes
    and however it ends: it never moves the job id iterator back; it never
    adds a job to the list or reorders the list; and it leaves the socket,
    the ids and the handlers of the client alone. *)
Theorem run_only_consumes (ext : Collaborators) (out : Outbound)
    (depth : nat) (arrivals : list (result bytes)) (r : Runner) :
  _job_id_iterator r <= _job_id_iterator (snd (run ext out depth arrivals r))
  /\ job_list (snd (run ext out depth arrivals r)) `sublist_of` job_list r
  /\ same_wiring (client r) (client (snd (run ext out depth arrivals r))).
Proof.
  destruct (kr_rfor_each arrivals (run_turn ext out depth)
              (kr_run_turn ext out depth) r) as (Hi & Hj & Hc).
  split; [exact Hi|]. split; [exact Hj|].
  by apply same_wiring_of_updates.
Qed.

(** * Instances *)

Lemma logon_then_logoff_cancels_the_new_task_witness :
  (_process_client_log_on_response session_end_examples [x00];;
   _process_client_log_off session_end_examples [x01]) Fixture.client
  = (Ok tt,
     set_trace [Call (call_log_on_handler 1); Call (call_log_off_handler 1)]
       (set_heartbeat_task (Some 0%nat)
          (set_tasks [{| interval := 9; cancelled := true |}]
             Fixture.client))).
Proof.
  apply (logon_then_logoff_cancels_the_new_task session_end_examples
           [x00] [x01] logon_response_example logged_off_example
           Fixture.returns Fixture.returns Fixture.client);
    reflexivity.
Defined.

Lemma license_list_needs_miniprofile_id_witness :
  _process_license_list
    (Fixture.collaborators [Fixture.P_LicenseList license_example]) [x00]
    Fixture.client
  = (Raise TypeError, Fixture.client).
Proof.
  apply (license_list_needs_miniprofile_id
           (Fixture.collaborators [Fixture.P_LicenseList license_example])
           [x00] license_example Fixture.returns Fixture.client);
    reflexivity.
Defined.

Lemma app_entry_classification_witness :
  app_info_entry app_examples game_app_entry Fixture.client
  = (Ok tt,
     set_trace
       [Call (call_app_info_handler 730 (Some (VStr "Counter-Strike"))
                (Some true))]
       Fixture.client).
Proof.
  refine (proj1 (app_entry_classification app_examples game_app_entry
                   game_app_example (VInt 730) 730 Fixture.returns
                   Fixture.client _ _ _ _ _)
            (VStr "game") (VStr "Counter-Strike") _ _ _);
    try reflexivity.
  by intros tr a.
Defined.

Lemma handler_key_error_is_taken_for_unknown_type_witness :
  app_info_entry app_examples game_app_entry client_with_game_averse_handler
  = (Ok tt,
     set_trace
       [Call (call_app_info_handler 730 (Some (VStr "Counter-Strike"))
                (Some true));
        Call (call_app_info_handler 730 None (Some false))]
       client_with_game_averse_handler).
Proof.
  apply (handler_key_error_is_taken_for_unknown_type app_examples
           game_app_entry game_app_example (VInt 730) (VStr "game")
           (VStr "Counter-Strike") 730 game_averse_handler
           client_with_game_averse_handler);
    reflexivity.
Defined.

Lemma package_apps_are_reported_then_requested_witness :
  _process_package_info_response package_examples [x00] Fixture.client
  = (Ok tt,
     set_trace
       [Call (call_package_info_handler 17);
        Call (call_app_info_handler 730 None None);
        Call (call_app_info_handler 440 None None);
        Log INFO "Apps to parse {apps_to_parse}, {len(apps_to_parse)} entries";
        Log INFO "Sending call {EMsg.PICSProductInfoRequest} with {app_ids}";
        Send (wire_frame 8903 [] [])]
       Fixture.client).
Proof.
  apply (package_apps_are_reported_then_requested package_examples [x00]
           package_17_response package_17_entry package_17_document
           package_17_apps Fixture.returns Fixture.returns Fixture.client).
  - reflexivity.
  - reflexivity.
  - reflexivity.
  - discriminate.
  - reflexivity.
  - reflexivity.
  - simpl. apply NoDup_cons. split; [|apply NoDup_singleton].
    intros Hin. apply list_elem_of_singleton in Hin. discriminate.
  - discriminate.
  - repeat constructor; simpl; lia.
  - reflexivity.
  - by intros tr a.
  - reflexivity.
  - by intros tr a.
  - by intros tr a.
  - by split.
  - simpl. lia.
  - unfold header_fits, len. simpl. lia.
Defined.

Lemma game_time_response_reports_game_id_witness :
  _import_game_time (Fixture.collaborators []) outbound_example (JobInt 730)
    Fixture.client
  = (Ok tt,
     set_trace
       [Log INFO "Importing game time for {game_id}";
        Send (wire_frame 151 [] [x02])]
       Fixture.client)
  /\ _process_service_method_response played_examples
       "Player.GetFriendsGameplayInfo#1" 730 [x00] Fixture.client
     = (Ok tt, set_trace [Call (call_times_handler 730 1234)] Fixture.client).
Proof.
  split.
  - refine (proj1 (game_time_response_reports_game_id
                     (Fixture.collaborators []) outbound_example (JobInt 730)
                     730 [x02] Fixture.client _ _ _ _ _ _)).
    + reflexivity.
    + lia.
    + reflexivity.
    + by split.
    + simpl. lia.
    + unfold header_fits, len. simpl. lia.
  - refine (proj2 (game_time_response_reports_game_id
                     played_examples outbound_example (JobInt 730)
                     730 [x02] Fixture.client _ _ _ _ _ _)
              (game_time_header Fixture.client 730) [x00] played_example
              Fixture.returns Fixture.client _ _ _).
    + reflexivity.
    + lia.
    + reflexivity.
    + by split.
    + simpl. lia.
    + unfold header_fits, len. simpl. lia.
    + by split.
    + reflexivity.
    + reflexivity.
Defined.

Lemma turn_swallows_timeouts_witness :
  run_turn (Fixture.collaborators []) outbound_example 3 (Raise TimeoutError)
    (new_runner Fixture.returns)
  = (Ok tt, new_runner Fixture.returns).
Proof.
  exact (proj1 (turn_swallows_timeouts (Fixture.collaborators [])
                  outbound_example 3 (new_runner Fixture.returns)
                  (new_runner Fixture.returns) eq_refl) TimeoutError).
Defined.
